(** * QA automation suite: the HTTP harness, the browser suite and the runner

    A shallow embedding of the API harness of the repository
    (src/api_automation.py, src/config.py), of the driver management and
    the test frame of the browser suite (src/web_automation.py) and of the
    process entry point (src/test_runner.py), with the properties of the
    specification that can be settled on it.

    Conventions.
    - A Python call either returns or raises: [result].  Exceptions are
      split the way the handlers of the source split them: classes derived
      from [Exception] (caught by [except Exception]), [KeyboardInterrupt]
      and [SystemExit] (both derived from [BaseException] only).
    - Objects with identity (requests.Session) live in a heap indexed by
      object identities; the registry [_sessions] stores identities.
    - The class-level dict [_sessions] is an insertion-ordered association
      list, because [close_all_sessions] iterates over it.
    - Durations handed to [time.sleep] are rationals (seconds).
    - Builtins and libraries ([int], [time.sleep], [json], requests'
      headers) behave as in CPython 3.11 on a POSIX system. *)

From Stdlib Require Import ZArith QArith List String Ascii Lia.
From stdpp Require Import gmap strings list fin_maps.
Import ListNotations.

Local Open Scope Z_scope.
Local Open Scope string_scope.
Local Open Scope list_scope.

#[local] Set Warnings "-register-all,-clear-no-such-hyp".

(** ** Python control flow *)

Inductive exn : Type :=
| Exception (cls : string)   (* an instance of a class derived from Exception *)
| KeyboardInterrupt
| SystemExit (code : Z).

(** What [except Exception] catches. *)
Definition is_Exception (e : exn) : bool :=
  match e with
  | Exception _ => true
  | KeyboardInterrupt | SystemExit _ => false
  end.

(** What [except KeyboardInterrupt] catches. *)
Definition is_KeyboardInterrupt (e : exn) : bool :=
  match e with
  | KeyboardInterrupt => true
  | Exception _ | SystemExit _ => false
  end.

Inductive result (A : Type) : Type :=
| Returns (a : A)
| Raises (e : exn).
Arguments Returns {A} a.
Arguments Raises {A} e.

(** The call returns, or what it raises is derived from Exception. *)
Definition raises_only_Exception {A : Type} (r : result A) : Prop :=
  match r with
  | Returns _ => True
  | Raises e => is_Exception e = true
  end.

Definition ValueError : exn := Exception "ValueError".
Definition OverflowError : exn := Exception "OverflowError".
Definition ZeroDivisionError : exn := Exception "ZeroDivisionError".
Definition AssertionError : exn := Exception "AssertionError".
Definition RequestException : exn := Exception "RequestException".

(** ** Configuration (src/config.py) *)

Module Config.

Definition DEFAULT_HEADERS : gmap string string :=
  <["User-Agent" := "QA-Automation-Tests/1.0"]>
    (<["Content-Type" := "application/json"]> ∅).

(** [{**DEFAULT_HEADERS, "Accept": ..., ...}] *)
Definition REQRES_HEADERS : gmap string string :=
  <["Connection" := "keep-alive"]>
    (<["Accept-Encoding" := "gzip, deflate"]>
       (<["x-api-key" := "reqres-free-v1"]>
          (<["Host" := "reqres.in"]>
             (<["Accept" := "application/json"]> DEFAULT_HEADERS)))).

Record http_timeouts := { connect : Z; read : Z }.
Definition HTTP_TIMEOUTS : http_timeouts := {| connect := 5; read := 30 |}.

Record rate_limit_config := {
  max_requests : nat;
  delay_between_requests : Q;
  retry_attempts : Z;
  backoff_factor : Z
}.

Definition RATE_LIMIT_CONFIG : rate_limit_config :=
  {| max_requests := 100;
     delay_between_requests := 1 # 10;
     retry_attempts := 3;
     backoff_factor := 2 |}.

End Config.

(** ** Session registry (class HTTPSessionManager) *)

Module Registry.

Record Retry := {
  total : Z;
  retry_backoff_factor : Z;
  status_forcelist : list Z;
  allowed_methods : list string
}.

Record HTTPAdapter := {
  max_retries : Retry;
  pool_connections : Z;
  pool_maxsize : Z
}.

(** A requests.Session, as far as the source touches it.  [headers] are
    the entries of [session.headers], each under the name it was set
    with. *)
Record Session := {
  headers : gmap string string;
  adapters : gmap string HTTPAdapter
}.

(** [str.lower] on a name, whose characters are code points up to
    U+00FF: the letters A to Z and the capital letters of Latin-1 move 32
    places up. *)
Definition lower_char (a : ascii) : ascii :=
  let n := nat_of_ascii a in
  if (((65 <=? n)%nat && (n <=? 90)%nat)
      || ((192 <=? n)%nat && (n <=? 222)%nat && negb (n =? 215)%nat))%bool
  then ascii_of_nat (n + 32) else a.

Fixpoint lower (s : string) : string :=
  match s with
  | EmptyString => EmptyString
  | String a s' => String (lower_char a) (lower s')
  end.

(** Does [h] have an entry whose name is [k] when case is ignored? *)
Definition names (h : gmap string string) (k : string) : bool :=
  existsb (fun entry => String.eqb (lower (fst entry)) (lower k)) (map_to_list h).

(** [session.headers.update(h)].  The headers of a Session are a
    case-insensitive dict: setting a header replaces the entry whose name
    differs from it at most in case, and the entry is kept under the new
    name.  (When [h] itself holds one name in two spellings, the order of
    the dict decides which of the two stays; the model keeps both.) *)
Definition update_headers (h current : gmap string string) : gmap string string :=
  h ∪ filter (fun entry : string * string => names h (fst entry) = false) current.

(** The singleton's state: the class attribute [_sessions] (name to
    object identity, in insertion order) and the objects themselves. *)
Record manager := {
  _sessions : list (string * nat);
  heap : gmap nat Session
}.

(** State at process start: [_sessions = {}], no Session constructed. *)
Definition initial : manager := {| _sessions := []; heap := ∅ |}.

(** [name in d] / [d[name]] on an insertion-ordered dict. *)
Fixpoint dict_get {V : Type} (k : string) (d : list (string * V)) : option V :=
  match d with
  | [] => None
  | (k', v) :: d' => if String.eqb k k' then Some v else dict_get k d'
  end.

(** [headers or DEFAULT_HEADERS]: None and the empty dict are falsy. *)
Definition headers_or_default (hdrs : option (gmap string string))
  : gmap string string :=
  match hdrs with
  | None => Config.DEFAULT_HEADERS
  | Some h => if decide (h = ∅) then Config.DEFAULT_HEADERS else h
  end.

Definition retry_strategy : Retry :=
  {| total := Config.retry_attempts Config.RATE_LIMIT_CONFIG;
     retry_backoff_factor := Config.backoff_factor Config.RATE_LIMIT_CONFIG;
     status_forcelist := [429; 500; 502; 503; 504];
     allowed_methods := ["HEAD"; "GET"; "POST"; "PUT"; "DELETE"] |}.

Definition adapter : HTTPAdapter :=
  {| max_retries := retry_strategy; pool_connections := 10; pool_maxsize := 10 |}.

Section WithLibrary.

(** What [requests.Session()] builds before the source configures it
    (the library's default headers and adapters). *)
Variable fresh_session : Session.

(** [_create_session]: a new object; [session.headers.update] lets the
    given headers override the library's; both prefixes get the
    adapter. *)
Definition _create_session (hdrs : option (gmap string string)) (m : manager)
  : nat * manager :=
  let id := fresh (dom (heap m)) in
  let session :=
    {| headers := update_headers (headers_or_default hdrs) (headers fresh_session);
       adapters := <["https://" := adapter]>
                     (<["http://" := adapter]> (adapters fresh_session)) |} in
  (id, {| _sessions := _sessions m; heap := <[id := session]> (heap m) |}).

(** [get_session]:
      if api_name not in self._sessions:
          self._sessions[api_name] = self._create_session(headers)
      return self._sessions[api_name] *)
Definition get_session (api_name : string) (hdrs : option (gmap string string))
  (m : manager) : nat * manager :=
  match dict_get api_name (_sessions m) with
  | Some id => (id, m)
  | None =>
      let '(id, m') := _create_session hdrs m in
      (id, {| _sessions := _sessions m' ++ [(api_name, id)]; heap := heap m' |})
  end.

(** A sequence of [get_session] calls; the identities returned, in order. *)
Fixpoint get_sessions (calls : list (string * option (gmap string string)))
  (m : manager) : list nat * manager :=
  match calls with
  | [] => ([], m)
  | (name, hdrs) :: rest =>
      let '(id, m1) := get_session name hdrs m in
      let '(ids, m2) := get_sessions rest m1 in
      (id :: ids, m2)
  end.

End WithLibrary.

(** *** close_all_sessions *)

Inductive close_event : Type :=
| CallClose (name : string)               (* session.close() is invoked *)
| PrintClosed (name : string)             (* "EXITOSO: Sesión ... cerrada" *)
| PrintCloseError (name : string) (e : exn). (* "ADVERTENCIA: Error cerrando" *)

(** The for loop over [self._sessions.items()].  [close id] is what
    [session.close()] does on the object [id]: return, or raise.  The
    source reads nothing of a Session after its close, so the objects are
    handed on as they are. *)
Fixpoint close_loop (close : nat -> result unit) (items : list (string * nat))
  (h : gmap nat Session) : result unit * gmap nat Session * list close_event :=
  match items with
  | [] => (Returns tt, h, [])
  | (session_name, id) :: rest =>
      match close id with
      | Returns _ =>
          let '(r, h', tr) := close_loop close rest h in
          (r, h', CallClose session_name :: PrintClosed session_name :: tr)
      | Raises e =>
          if is_Exception e then
            let '(r, h', tr) := close_loop close rest h in
            (r, h', CallClose session_name :: PrintCloseError session_name e :: tr)
          else (Raises e, h, [CallClose session_name])
      end
  end.

(** [close_all_sessions]: the loop, then [self._sessions.clear()]. *)
Definition close_all_sessions (close : nat -> result unit) (m : manager)
  : result unit * manager * list close_event :=
  match close_loop close (_sessions m) (heap m) with
  | (Returns _, h, tr) => (Returns tt, {| _sessions := []; heap := h |}, tr)
  | (Raises e, h, tr) => (Raises e, {| _sessions := _sessions m; heap := h |}, tr)
  end.

(** Every registered identity denotes a constructed object. *)
Definition registered_alive (m : manager) : Prop :=
  forall name id, dict_get name (_sessions m) = Some id -> id ∈ dom (heap m).

Definition close_attempts (tr : list close_event) : list string :=
  flat_map (fun ev => match ev with CallClose n => [n] | _ => [] end) tr.

(** *** Sample data for the examples *)

(** A library session and a process history used in the examples: the
    two scenarios of the source ask for their sessions, the second one
    with custom headers, and the first name is asked for again. *)
Definition library_session : Session :=
  {| headers := <["User-Agent" := "python-requests"]> ∅;
     adapters := ∅ |}.

Definition sample_calls : list (string * option (gmap string string)) :=
  [("jsonplaceholder", None);
   ("reqres", Some Config.REQRES_HEADERS);
   ("jsonplaceholder", Some Config.REQRES_HEADERS)].

Definition sample_manager : manager :=
  snd (get_sessions library_session sample_calls initial).

(** Custom headers that spell a header of the library in lower case. *)
Definition lowercase_agent : gmap string string :=
  <["user-agent" := "probe/2.0"]> ∅.

(** No two names of [h] differ in case only. *)
Definition case_distinct (h : gmap string string) : Prop :=
  forall k1 k2, is_Some (h !! k1) -> is_Some (h !! k2) ->
                lower k1 = lower k2 -> k1 = k2.

(** The close of the first Session constructed fails, the others succeed. *)
Definition first_close_fails (id : nat) : result unit :=
  if (id =? 0)%nat then Raises (Exception "OSError") else Returns tt.

End Registry.

(** ** Builtins the probe relies on *)

Module Py.

(** A character of a string is a code point up to U+00FF (a header
    value reaches the program decoded as latin-1).

    Whitespace that [int()] skips around the literal: tab to carriage
    return and the space, and of the characters beyond ASCII the two that
    are Unicode whitespace, U+0085 and U+00A0.  (U+001C to U+001F are
    whitespace for [str.strip] but not for [int()].) *)
Definition is_space (a : ascii) : bool :=
  let n := nat_of_ascii a in
  ((9 <=? n)%nat && (n <=? 13)%nat) || (n =? 32)%nat
  || (n =? 133)%nat || (n =? 160)%nat.

Fixpoint lstrip (l : list ascii) : list ascii :=
  match l with
  | [] => []
  | a :: l' => if is_space a then lstrip l' else l
  end.

Definition strip (l : list ascii) : list ascii :=
  rev (lstrip (rev (lstrip l))).

Definition digit_val (a : ascii) : option Z :=
  let n := nat_of_ascii a in
  if ((48 <=? n)%nat && (n <=? 57)%nat)%bool then Some (Z.of_nat (n - 48)) else None.

(** Decimal digits, with single underscores allowed between digits. *)
Fixpoint parse_digits (acc : Z) (after_digit : bool) (l : list ascii) : option Z :=
  match l with
  | [] => if after_digit then Some acc else None
  | a :: l' =>
      if Ascii.eqb a "_"%char then
        if after_digit then parse_digits acc false l' else None
      else
        match digit_val a with
        | Some d => parse_digits (10 * acc + d) true l'
        | None => None
        end
  end.

(** The interpreter's default limit on the number of digits of a decimal
    literal handed to [int()] ([sys.int_info.default_max_str_digits]). *)
Definition max_str_digits : nat := 4300.

Definition count_digits (l : list ascii) : nat :=
  length (List.filter (fun a => match digit_val a with
                                | Some _ => true
                                | None => false
                                end) l).

(** [int(s)], base 10: [None] stands for ValueError, which is raised for
    a string that is not a literal and for a literal of more than
    [max_str_digits] digits (underscores, the sign and the whitespace
    around it do not count). *)
Definition int (s : string) : option Z :=
  let literal := strip (list_ascii_of_string s) in
  let '(negative, digits) :=
    match literal with
    | "-"%char :: l => (true, l)
    | "+"%char :: l => (false, l)
    | l => (false, l)
    end in
  if (max_str_digits <? count_digits digits)%nat then None
  else option_map (fun n => if negative then Z.opp n else n)
         (parse_digits 0 false digits).

(** Truthiness of [d.get(k)]: None and the empty string are falsy. *)
Definition truthy (v : option string) : bool :=
  match v with
  | None => false
  | Some s => negb (String.eqb s "")
  end.

(** Whether a duration in seconds is, in nanoseconds, within the signed
    64-bit range of the interpreter's clock type. *)
Definition fits_timer (secs : Q) : bool :=
  Qle_bool (inject_Z (-9223372036854775808)) (secs * inject_Z 1000000000)
  && Qle_bool (secs * inject_Z 1000000000) (inject_Z 9223372036854775807).

(** [time.sleep(secs)]: the argument is first converted to nanoseconds,
    with OverflowError when it does not fit the clock type (for an int,
    beyond 9223372036 seconds either way); a negative duration is then
    refused with ValueError; otherwise the call returns once the time has
    passed.  (The conversion is exact for an int; the only float the
    source passes is the configured delay.) *)
Definition sleep (secs : Q) : result unit :=
  if fits_timer secs then
    if Qle_bool 0 secs then Returns tt else Raises ValueError
  else Raises OverflowError.

(** Does the call return? *)
Definition sleeps_through (secs : Q) : bool :=
  match sleep secs with
  | Returns _ => true
  | Raises _ => false
  end.

End Py.

(** ** Rate-limit probe (_test_reqres_rate_limiting) *)

Module Probe.

(** A requests.Response, as far as the probe reads it.  [headers] is keyed
    by the header name under which [response.headers.get] finds it (the
    library's lookup ignores case). *)
Record Response := {
  status_code : Z;
  headers : gmap string string
}.

Record counters := {
  successful_requests : Z;
  rate_limited_requests : Z
}.

Inductive event : Type :=
| CallRequest (i : nat)                 (* make_api_request in iteration i *)
| CallSleep (secs : Q)                  (* time.sleep(secs) is called *)
| PrintRateLimit (wait_time : Z)        (* "Rate limit detectado, esperando" *)
| PrintWarning (request_no : nat) (e : exn)  (* "ADVERTENCIA: Error en request" *)
| PrintSummary (c : counters).

(** The [except Exception as e: print(...); continue] of the loop body,
    entered with the counters as they are when the exception is raised. *)
Definition handler (i : nat) (e : exn) (c : counters) (tr : list event)
  : result counters * list event :=
  if is_Exception e then (Returns c, tr ++ [PrintWarning (S i) e])
  else (Raises e, tr).

(** [time.sleep(secs)] as the last statement of the try block. *)
Definition sleep_then (i : nat) (secs : Q) (c : counters) (tr : list event)
  : result counters * list event :=
  match Py.sleep secs with
  | Returns _ => (Returns c, tr ++ [CallSleep secs])
  | Raises e => handler i e c (tr ++ [CallSleep secs])
  end.

(** One pass through the loop body; [out] is what make_api_request does.
    [Returns c'] means the loop goes on with counters [c'], [Raises e]
    that [e] leaves the loop. *)
Definition iteration (i : nat) (out : result Response) (c : counters)
  : result counters * list event :=
  match out with
  | Raises e => handler i e c [CallRequest i]
  | Returns response =>
      if (status_code response =? 429)%Z then
        let c1 := {| successful_requests := successful_requests c;
                     rate_limited_requests := rate_limited_requests c + 1 |} in
        let retry_after := headers response !! "Retry-After" in
        let wait_time :=
          if Py.truthy retry_after
          then Py.int (default "" retry_after)
          else Some 5 in
        match wait_time with
        | None => handler i ValueError c1 [CallRequest i]
        | Some w =>
            sleep_then i (inject_Z w) c1 [CallRequest i; PrintRateLimit w]
        end
      else
        let c1 :=
          if (status_code response =? 200)%Z
          then {| successful_requests := successful_requests c + 1;
                  rate_limited_requests := rate_limited_requests c |}
          else c in
        sleep_then i (Config.delay_between_requests Config.RATE_LIMIT_CONFIG)
          c1 [CallRequest i]
  end.

(** [for i in range(...)], over the indices still to run. *)
Fixpoint loop (outcomes : nat -> result Response) (indices : list nat)
  (c : counters) : result counters * list event :=
  match indices with
  | [] => (Returns c, [])
  | i :: rest =>
      match iteration i (outcomes i) c with
      | (Returns c', tr) =>
          let '(r, tr') := loop outcomes rest c' in (r, tr ++ tr')
      | (Raises e, tr) => (Raises e, tr)
      end
  end.

Definition _test_reqres_rate_limiting (outcomes : nat -> result Response)
  : result unit * list event :=
  let c0 := {| successful_requests := 0; rate_limited_requests := 0 |} in
  match loop outcomes (seq 0 (Config.max_requests Config.RATE_LIMIT_CONFIG)) c0 with
  | (Returns c, tr) => (Returns tt, tr ++ [PrintSummary c])
  | (Raises e, tr) => (Raises e, tr)
  end.

(** Observations on a trace. *)
Definition sleeps (tr : list event) : list Q :=
  flat_map (fun ev => match ev with CallSleep d => [d] | _ => [] end) tr.

Definition requests (tr : list event) : list nat :=
  flat_map (fun ev => match ev with CallRequest i => [i] | _ => [] end) tr.

(** The waits that took place: the durations of the [time.sleep] calls
    that returned.  A call that raises is in [sleeps] and not here. *)
Definition waits (tr : list event) : list Q :=
  List.filter Py.sleeps_through (sleeps tr).

(** *** Sample data for the examples *)

Definition c0 : counters :=
  {| successful_requests := 0; rate_limited_requests := 0 |}.

Definition rate_limited (retry_after : option string) : Response :=
  {| status_code := 429;
     headers := match retry_after with
                | Some s => <["Retry-After" := s]> ∅
                | None => ∅
                end |}.

Definition ok : Response := {| status_code := 200; headers := ∅ |}.

(** A server that rate-limits every third request, with a network fault
    on every seventh. *)
Definition sample_outcomes (i : nat) : result Response :=
  if (i mod 7 =? 6)%nat then Raises RequestException
  else if (i mod 3 =? 2)%nat then Returns (rate_limited (Some "2"))
  else Returns ok.

End Probe.

(** ** Orchestrator (run_all_api_tests) *)

Module Orchestrator.

(** A scenario function acts on the session registry, then returns or
    raises. *)
Definition scenario : Type := Registry.manager -> result unit * Registry.manager.

Inductive event : Type :=
| CallScenario (k : nat)                (* test_func() for entry k of the list *)
| PrintFailed (k : nat) (e : exn)       (* "ERROR: Falló ..." *)
| PrintReport (successful_tests failed_tests : Z)
| PrintRate (percent : Q)               (* "Tasa de éxito: ..." *)
| PrintCritical (e : exn)               (* "ERROR CRÍTICO: ..." *)
| CallCloseAll                          (* session_manager.close_all_sessions() *)
| Close (ev : Registry.close_event)     (* what that call does, step by step *)
| PrintSessionsClosed.

(** [for test_func in test_functions], entry [k] onwards. *)
Fixpoint run_scenarios (k : nat) (test_functions : list scenario)
  (successful_tests failed_tests : Z) (m : Registry.manager)
  : result (Z * Z) * Registry.manager * list event :=
  match test_functions with
  | [] => (Returns (successful_tests, failed_tests), m, [])
  | test_func :: rest =>
      match test_func m with
      | (Returns _, m1) =>
          let '(r, m2, tr) :=
            run_scenarios (S k) rest (successful_tests + 1) failed_tests m1 in
          (r, m2, CallScenario k :: tr)
      | (Raises e, m1) =>
          if is_Exception e then
            let '(r, m2, tr) :=
              run_scenarios (S k) rest successful_tests (failed_tests + 1) m1 in
            (r, m2, CallScenario k :: PrintFailed k e :: tr)
          else (Raises e, m1, [CallScenario k])
      end
  end.

(** The final report; the success rate divides by the number of tests. *)
Definition report (successful_tests failed_tests : Z) : result unit * list event :=
  if (successful_tests + failed_tests =? 0)%Z
  then (Raises ZeroDivisionError, [PrintReport successful_tests failed_tests])
  else (Returns tt,
        [PrintReport successful_tests failed_tests;
         PrintRate (inject_Z successful_tests
                    / inject_Z (successful_tests + failed_tests) * 100)%Q]).

(** The finally clause: [close_all_sessions()] on the registry as the
    try block left it, then the closing message. *)
Definition teardown (close : nat -> result unit) (m : Registry.manager)
  : result unit * Registry.manager * list event :=
  let '(rc, m', steps) := Registry.close_all_sessions close m in
  (rc, m',
   CallCloseAll :: map Close steps
   ++ match rc with
      | Returns _ => [PrintSessionsClosed]
      | Raises _ => []
      end).

(** [run_all_api_tests] over a list of scenario functions (the source
    runs [test_jsonplaceholder_api; test_reqres_api]); [close] is the
    behaviour of [session.close()] per object. *)
Definition run_all_api_tests (test_functions : list scenario)
  (close : nat -> result unit) (m : Registry.manager)
  : result unit * Registry.manager * list event :=
  (* try: the loop and the report *)
  let '(r, m1, tr) := run_scenarios 0 test_functions 0 0 m in
  let '(body, tr1) :=
    match r with
    | Returns (s, f) => let '(rr, trr) := report s f in (rr, tr ++ trr)
    | Raises e => (Raises e, tr)
    end in
  (* except Exception as e *)
  let '(pending, tr2) :=
    match body with
    | Returns _ => (Returns tt, tr1)
    | Raises e =>
        if is_Exception e then (Returns tt, tr1 ++ [PrintCritical e])
        else (Raises e, tr1)
    end in
  (* finally: an exception raised there replaces the pending outcome *)
  let '(rc, m2, tr3) := teardown close m1 in
  match rc with
  | Returns _ => (pending, m2, tr2 ++ tr3)
  | Raises e => (Raises e, m2, tr2 ++ tr3)
  end.

(** What each scenario does when the list is simply run in order. *)
Fixpoint observe (test_functions : list scenario) (m : Registry.manager)
  : list (result unit) :=
  match test_functions with
  | [] => []
  | test_func :: rest =>
      let '(r, m1) := test_func m in r :: observe rest m1
  end.

Definition returned (r : result unit) : bool :=
  match r with Returns _ => true | Raises _ => false end.

Definition raised (r : result unit) : bool := negb (returned r).

Definition scenarios_called (tr : list event) : list nat :=
  flat_map (fun ev => match ev with CallScenario k => [k] | _ => [] end) tr.

Definition reports (tr : list event) : list (Z * Z) :=
  flat_map (fun ev => match ev with PrintReport s f => [(s, f)] | _ => [] end) tr.

Definition teardowns (tr : list event) : nat :=
  length (flat_map (fun ev => match ev with CallCloseAll => [tt] | _ => [] end) tr).

(** What the calls of close_all_sessions did, in order. *)
Definition closes (tr : list event) : list Registry.close_event :=
  flat_map (fun ev => match ev with Close step => [step] | _ => [] end) tr.

(** The registry as the scenario loop leaves it, which is the registry
    the finally clause works on. *)
Definition registry_at_teardown (test_functions : list scenario)
  (m : Registry.manager) : Registry.manager :=
  snd (fst (run_scenarios 0 test_functions 0 0 m)).

Definition successes (obs : list (result unit)) : Z :=
  Z.of_nat (length (List.filter returned obs)).

Definition failures (obs : list (result unit)) : Z :=
  Z.of_nat (length (List.filter raised obs)).

(** *** Sample data for the examples *)

(** Three scenarios, the second of which fails an assertion after it has
    taken its session from the registry. *)
Definition passing_scenario (name : string) : scenario :=
  fun m =>
    let '(_, m') := Registry.get_session Registry.library_session name None m in
    (Returns tt, m').

Definition failing_scenario (name : string) : scenario :=
  fun m =>
    let '(_, m') :=
      Registry.get_session Registry.library_session name
        (Some Config.REQRES_HEADERS) m in
    (Raises AssertionError, m').

Definition three_scenarios : list scenario :=
  [passing_scenario "jsonplaceholder"; failing_scenario "reqres";
   passing_scenario "jsonplaceholder"].

Definition close_ok (id : nat) : result unit := Returns tt.

End Orchestrator.

(** ** Process entry point (src/test_runner.py) *)

Module Runner.

(** What [check_environment] inspects. *)
Record environment := {
  python_major : nat;
  python_minor : nat;
  selenium_importable : bool;
  requests_importable : bool;
  jsonschema_importable : bool
}.

Definition check_environment (env : environment) : bool :=
  if ((python_major env <? 3)%nat
      || ((python_major env =? 3)%nat && (python_minor env <? 8)%nat))%bool
  then false
  else if negb (selenium_importable env) then false
  else if negb (requests_importable env) then false
  else if negb (jsonschema_importable env) then false
  else true.

(** One execution: the environment, and what each step of the run does
    when it is reached: it returns, or an exception leaves it.  (A Ctrl+C
    raises [KeyboardInterrupt] inside the step that is running; whether
    that exception leaves the step is the step's business, and a step
    that swallows it goes on.) *)
Record run := {
  env : environment;
  usage : result unit;        (* display_usage_info(); print() *)
  countdown : result unit;    (* print("Iniciando en 3 segundos..."); time.sleep(3) *)
  web_suite : result unit;    (* run_all_web_tests() *)
  pause : result unit;        (* print(...); time.sleep(2) *)
  api_suite : result unit;    (* run_all_api_tests() *)
  final_report : result unit; (* self._generate_final_report() *)
  farewell : result unit      (* the print before sys.exit in main *)
}.

(** [_execute_test_suite]: True when the suite function returns, False
    when it raises an Exception. *)
Definition _execute_test_suite (test_function : result unit) : result bool :=
  match test_function with
  | Returns _ => Returns true
  | Raises e => if is_Exception e then Returns false else Raises e
  end.

(** [TestRunner.run_all_tests]. *)
Definition run_all_tests (r : run) : result bool :=
  (* try *)
  let body : result (bool * bool) :=
    match _execute_test_suite (web_suite r) with
    | Raises e => Raises e
    | Returns web_test_success =>
        match pause r with
        | Raises e => Raises e
        | Returns _ =>
            match _execute_test_suite (api_suite r) with
            | Raises e => Raises e
            | Returns api_test_success =>
                Returns (web_test_success, api_test_success)
            end
        end
    end in
  (* except KeyboardInterrupt: return False / except Exception: return False *)
  let pending : result bool :=
    match body with
    | Returns (web_test_success, api_test_success) =>
        Returns (web_test_success && api_test_success)
    | Raises e =>
        if is_KeyboardInterrupt e then Returns false
        else if is_Exception e then Returns false
        else Raises e
    end in
  (* finally: an exception raised there replaces the pending outcome *)
  match final_report r with
  | Raises e => Raises e
  | Returns _ => pending
  end.

(** [main]: every path ends in [sys.exit] or in an exception, so the
    outcome is the exception that leaves the function. *)
Definition main (r : run) : exn :=
  match usage r with
  | Raises e => e
  | Returns _ =>
      if negb (check_environment (env r)) then SystemExit 1
      else
        match countdown r with
        | Raises e => e
        | Returns _ =>
            match run_all_tests r with
            | Raises e => e
            | Returns success =>
                match farewell r with
                | Raises e => e
                | Returns _ => if success then SystemExit 0 else SystemExit 1
                end
            end
        end
  end.

(** The [if __name__ == "__main__"] block: KeyboardInterrupt exits with
    130, any Exception with 1, and a SystemExit keeps its code. *)
Definition exit_code (r : run) : Z :=
  match main r with
  | KeyboardInterrupt => 130
  | Exception _ => 1
  | SystemExit code => code
  end.

Definition good_environment : environment :=
  {| python_major := 3; python_minor := 11; selenium_importable := true;
     requests_importable := true; jsonschema_importable := true |}.

(** The steps in program order, for saying which of them a
    KeyboardInterrupt leaves. *)
Inductive step : Type :=
| AtUsage | AtCountdown | AtWebSuite | AtPause | AtApiSuite
| AtFinalReport | AtFarewell.

(** The run [r], except that step [s] raises KeyboardInterrupt. *)
Definition interrupt (s : step) (r : run) : run :=
  let ki : result unit := Raises KeyboardInterrupt in
  {| env := env r;
     usage := match s with AtUsage => ki | _ => usage r end;
     countdown := match s with AtCountdown => ki | _ => countdown r end;
     web_suite := match s with AtWebSuite => ki | _ => web_suite r end;
     pause := match s with AtPause => ki | _ => pause r end;
     api_suite := match s with AtApiSuite => ki | _ => api_suite r end;
     final_report := match s with AtFinalReport => ki | _ => final_report r end;
     farewell := match s with AtFarewell => ki | _ => farewell r end |}.

(** A run that no KeyboardInterrupt or SystemExit cuts short: the steps
    around the suites return, and a suite function returns or raises an
    Exception. *)
Definition uninterrupted (r : run) : Prop :=
  usage r = Returns tt /\ countdown r = Returns tt /\ pause r = Returns tt
  /\ final_report r = Returns tt /\ farewell r = Returns tt
  /\ raises_only_Exception (web_suite r)
  /\ raises_only_Exception (api_suite r).

(** A run in a good environment in which both suite functions behave as
    given and every other step returns. *)
Definition plain_run (web api : result unit) : run :=
  {| env := good_environment;
     usage := Returns tt; countdown := Returns tt;
     web_suite := web; pause := Returns tt; api_suite := api;
     final_report := Returns tt; farewell := Returns tt |}.

End Runner.

(** ** Schema validation (validate_json_schema, JSONPLACEHOLDER_POST_SCHEMA) *)

Module Schema.

(** A parsed JSON document, as the Python values [json.loads] gives:
    None, bool, int, float, str, list, dict.  A finite float is given by
    its value.  The other floats are NaN, which the parser reads from the
    literal NaN and always as one and the same object, and the two
    infinities, read from the literals Infinity and -Infinity and from
    numbers beyond the range of a float. *)
Inductive json : Type :=
| JNull
| JBool (b : bool)
| JInt (n : Z)
| JFloat (q : Q)
| JString (s : string)
| JArray (l : list json)
| JObject (m : gmap string json)
| JNaN
| JInfinity (negative : bool).

Inductive jtype : Type :=
| TObject | TInteger | TString.

(** The keywords the repository's post schema uses. *)
Inductive schema : Type :=
| MkSchema (type : option jtype)
           (properties : list (string * schema))
           (required : list string)
           (additionalProperties : bool)
           (minimum : option Z)
           (minLength : option nat).

Definition scalar (type : jtype) (minimum : option Z) (minLength : option nat)
  : schema :=
  MkSchema (Some type) [] [] true minimum minLength.

(** config.JSONPLACEHOLDER_POST_SCHEMA *)
Definition JSONPLACEHOLDER_POST_SCHEMA : schema :=
  MkSchema (Some TObject)
    [("userId", scalar TInteger (Some 1) None);
     ("id", scalar TInteger (Some 1) None);
     ("title", scalar TString None (Some 1%nat));
     ("body", scalar TString None (Some 1%nat))]
    ["userId"; "id"; "title"; "body"]
    false None None.

(** A float counts as an integer when its value is whole (JSON Schema
    draft 6 and later, the validator's default), which NaN and the
    infinities are not; a bool never counts as a number. *)
Definition whole (q : Q) : bool := (Z.pos (Qden (Qred q)) =? 1)%Z.

Definition has_type (t : jtype) (d : json) : bool :=
  match t, d with
  | TObject, JObject _ => true
  | TInteger, JInt _ => true
  | TInteger, JFloat q => whole q
  | TString, JString _ => true
  | _, _ => false
  end.

Definition check_type (type : option jtype) (d : json) : bool :=
  match type with
  | None => true
  | Some t => has_type t d
  end.

(** [minimum] constrains numbers only, and rejects a number that
    compares as less than the bound: NaN, which compares as less than
    nothing, is let through. *)
Definition check_minimum (minimum : option Z) (d : json) : bool :=
  match minimum, d with
  | Some lo, JInt n => (lo <=? n)%Z
  | Some lo, JFloat q => Qle_bool (inject_Z lo) q
  | Some lo, JInfinity negative => negb negative
  | _, _ => true
  end.

(** [minLength] constrains strings only. *)
Definition check_minLength (minLength : option nat) (d : json) : bool :=
  match minLength, d with
  | Some len, JString s => (len <=? String.length s)%nat
  | _, _ => true
  end.

(** [required] and [additionalProperties] constrain objects only. *)
Definition check_required (required : list string) (d : json) : bool :=
  match d with
  | JObject m => forallb (fun k => bool_decide (is_Some (m !! k))) required
  | _ => true
  end.

Definition declared (properties : list (string * schema)) (k : string) : bool :=
  existsb (String.eqb k) (map fst properties).

Definition check_additional (additionalProperties : bool)
  (properties : list (string * schema)) (d : json) : bool :=
  match d with
  | JObject m =>
      additionalProperties
      || forallb (declared properties) (map fst (map_to_list m))
  | _ => true
  end.

(** The failing/passing verdict of [jsonschema.validate] for these
    keywords: every keyword of the schema must accept the document, and
    [properties] applies each sub-schema to the member it names, when
    present. *)
Fixpoint valid (s : schema) (d : json) : bool :=
  match s with
  | MkSchema type properties required additionalProperties minimum minLength =>
      check_type type d
      && (fix members (ps : list (string * schema)) : bool :=
            match ps with
            | [] => true
            | (k, sub) :: ps' =>
                match d with
                | JObject m =>
                    match m !! k with
                    | Some v => valid sub v
                    | None => true
                    end
                | _ => true
                end && members ps'
            end) properties
      && check_required required d
      && check_additional additionalProperties properties d
      && check_minimum minimum d
      && check_minLength minLength d
  end.

Definition ValidationError : exn := Exception "ValidationError".

(** [validate_json_schema]: returns, or re-raises the ValidationError. *)
Definition validate_json_schema (data : json) (s : schema) : result unit :=
  if valid s data then Returns tt else Raises ValidationError.

(** The four declared members of a post. *)
Definition post (userId id : Z) (title body : string) : gmap string json :=
  <["userId" := JInt userId]>
    (<["id" := JInt id]>
       (<["title" := JString title]>
          (<["body" := JString body]> ∅))).

End Schema.

(** ** Further observations on the registry, the probe and the orchestrator *)

Module Observe.

(** No identity is registered under two names. *)
Definition injective (m : Registry.manager) : Prop :=
  forall n1 n2 id,
    Registry.dict_get n1 (Registry._sessions m) = Some id ->
    Registry.dict_get n2 (Registry._sessions m) = Some id ->
    n1 = n2.

(** Does the request return a response with this status? *)
Definition status_is (code : Z) (out : result Probe.Response) : bool :=
  match out with
  | Returns response => (Probe.status_code response =? code)%Z
  | Raises _ => false
  end.

(** Among the given passes, how many got a response with this status. *)
Definition count_status (code : Z) (outcomes : nat -> result Probe.Response)
  (indices : list nat) : Z :=
  Z.of_nat (length (List.filter (fun i => status_is code (outcomes i)) indices)).

(** Total of the durations handed to time.sleep. *)
Definition total_sleep (tr : list Probe.event) : Q :=
  fold_right Qplus 0%Q (Probe.sleeps tr).

(** The registry after the scenarios have simply been run in order. *)
Fixpoint state_after (test_functions : list Orchestrator.scenario)
  (m : Registry.manager) : Registry.manager :=
  match test_functions with
  | [] => m
  | test_func :: rest => state_after rest (snd (test_func m))
  end.

End Observe.

(** ** API scenarios (src/api_automation.py, the rest of the module) *)

(** Test data and endpoints of src/config.py. *)
Module Fixtures.
Import Schema.

Definition jsonplaceholder_base : string := "https://jsonplaceholder.typicode.com".
Definition reqres_base : string := "https://reqres.in/api".

(** API_ENDPOINTS["jsonplaceholder"] *)
Definition jsonplaceholder_endpoints : gmap string string :=
  <["users" := "/users"]>
    (<["comments" := "/comments"]>
       (<["posts" := "/posts"]>
          (<["base" := jsonplaceholder_base]> ∅))).

Definition VALID_POST_PAYLOAD : json :=
  JObject (<["body" := JString "Este es un post de prueba creado por automatización QA"]>
             (<["title" := JString "Test Post - QA Automation"]>
                (<["userId" := JInt 1]> ∅))).

Definition VALID_USER_PAYLOAD : json :=
  JObject (<["job" := JString "Quality Assurance Engineer"]>
             (<["name" := JString "QA Tester"]> ∅)).

Definition VALID_AUTH_PAYLOAD : json :=
  JObject (<["password" := JString "cityslicka"]>
             (<["email" := JString "eve.holt@reqres.in"]> ∅)).

(** INVALID_PAYLOADS["post_invalid_types"] *)
Definition post_invalid_types : json :=
  JObject (<["body" := JNull]>
             (<["title" := JInt 12345]>
                (<["userId" := JString "string_instead_of_int"]> ∅))).

(** INVALID_PAYLOADS["auth_missing_password"] *)
Definition auth_missing_password : json :=
  JObject (<["email" := JString "peter@klaven"]> ∅).

(** The payloads built inside the scenario functions. *)
Definition update_post_payload : json :=
  JObject (<["userId" := JInt 1]>
             (<["body" := JString "Contenido modificado en tests"]>
                (<["title" := JString "Título actualizado por QA"]>
                   (<["id" := JInt 1]> ∅)))).

Definition update_user_payload : json :=
  JObject (<["job" := JString "Senior QA Engineer"]>
             (<["name" := JString "QA Tester Updated"]> ∅)).

Definition register_payload : json :=
  JObject (<["password" := JString "pistol"]>
             (<["email" := JString "eve.holt@reqres.in"]> ∅)).

(** config.REQRES_USER_SCHEMA.  Its [format] keywords (email, uri) are
    left out: [validate] is called without a format checker, so they
    assert nothing. *)
Definition REQRES_USER_SCHEMA : schema :=
  MkSchema (Some TObject)
    [("id", scalar TInteger None None);
     ("email", scalar TString None None);
     ("first_name", scalar TString None None);
     ("last_name", scalar TString None None);
     ("avatar", scalar TString None None)]
    ["id"; "email"; "first_name"; "last_name"]
    true None None.

End Fixtures.

(** Python operations on parsed JSON values that the scenarios use. *)
Module PyJson.
Import Schema.

Definition TypeError : exn := Exception "TypeError".
Definition KeyError : exn := Exception "KeyError".
Definition AttributeError : exn := Exception "AttributeError".

(** [needle in hay] for two strings. *)
Definition contains (needle hay : string) : bool :=
  match String.index 0 needle hay with
  | Some _ => true
  | None => false
  end.

(** The finite number a value compares as: bools are 0 and 1. *)
Definition as_number (v : json) : option Q :=
  match v with
  | JBool b => Some (inject_Z (Z.b2z b))
  | JInt n => Some (inject_Z n)
  | JFloat q => Some q
  | _ => None
  end.

(** [a == b] when at least one side is None, a bool, a number or a string
    (a list or dict never equals one of those).  An infinity equals the
    infinity of its sign only, and NaN equals nothing, itself included. *)
Definition py_eq (a b : json) : bool :=
  match as_number a, as_number b with
  | Some x, Some y => Qeq_bool x y
  | None, None =>
      match a, b with
      | JNull, JNull => true
      | JString s, JString t => String.eqb s t
      | JInfinity x, JInfinity y => Bool.eqb x y
      | _, _ => false
      end
  | _, _ => false
  end.

Definition is_nan (v : json) : bool :=
  match v with
  | JNaN => true
  | _ => false
  end.

(** Whether two hashable values are one and the same member of a set:
    a set takes two values for the same when they are the same object or
    equal.  Of the values of a parsed document only NaN is not equal to
    itself, and it is one object throughout. *)
Definition same_member (a b : json) : bool :=
  py_eq a b || (is_nan a && is_nan b).

(** [key in item] for a string key: dict membership, substring test on a
    string, element test on a list, TypeError on anything else. *)
Definition py_in (key : string) (item : json) : result bool :=
  match item with
  | JObject m => Returns (bool_decide (is_Some (m !! key)))
  | JString s => Returns (contains key s)
  | JArray l => Returns (existsb (py_eq (JString key)) l)
  | JNull | JBool _ | JInt _ | JFloat _ | JNaN | JInfinity _ => Raises TypeError
  end.

(** [item[key]] for a string key. *)
Definition py_getitem (key : string) (item : json) : result json :=
  match item with
  | JObject m =>
      match m !! key with
      | Some v => Returns v
      | None => Raises KeyError
      end
  | _ => Raises TypeError
  end.

(** Lists and dicts cannot be members of a set. *)
Definition hashable (v : json) : bool :=
  match v with
  | JArray _ | JObject _ => false
  | _ => true
  end.

(** A set of hashable values, as the list of its members in the order
    they were first added. *)
Definition set_member (v : json) (s : list json) : bool :=
  existsb (same_member v) s.

Definition set_add (v : json) (s : list json) : list json :=
  if set_member v s then s else s ++ [v].

(** [a & b] *)
Definition set_inter (a b : list json) : list json :=
  List.filter (fun v => set_member v b) a.

(** The items of [data[:limit]] for a non-negative limit: a list gives
    its first elements, a string its first characters; other values
    cannot be sliced (TypeError; on a dict KeyError from Python 3.12). *)
Definition slice_items (data : json) (limit : nat) : result (list json) :=
  match data with
  | JArray l => Returns (firstn limit l)
  | JString s =>
      Returns (map (fun ch => JString (String ch EmptyString))
                 (firstn limit (list_ascii_of_string s)))
  | _ => Raises TypeError
  end.

(** [all(field in item for field in fields)], left to right. *)
Fixpoint all_fields_in (fields : list string) (item : json) : result bool :=
  match fields with
  | [] => Returns true
  | field :: rest =>
      match py_in field item with
      | Raises e => Raises e
      | Returns false => Returns false
      | Returns true => all_fields_in rest item
      end
  end.

(** [all(field in item for item in items for field in fields)] *)
Fixpoint all_items_have (fields : list string) (items : list json) : result bool :=
  match items with
  | [] => Returns true
  | item :: rest =>
      match all_fields_in fields item with
      | Raises e => Raises e
      | Returns false => Returns false
      | Returns true => all_items_have fields rest
      end
  end.

End PyJson.

Module Api.
Import Schema PyJson Fixtures.

(** The URL of a request: a literal of the source, or an f-string that
    appends a value taken from a response ([f"{prefix}/{value}"]). *)
Inductive url : Type :=
| Literal (s : string)
| Formatted (prefix : string) (value : json).

(** One call [session.request(method, url, **kwargs)]. *)
Record request := {
  method : string;
  target : url;
  session : nat;
  kwargs : gmap string json
}.

(** A requests.Response: status, headers, and what [response.json()]
    does. *)
Record Response := {
  status_code : Z;
  headers : gmap string string;
  body : result json
}.

(** The state the scenarios act on: the session registry and the requests
    sent so far. *)
Record world := {
  registry : Registry.manager;
  sent : list request
}.

(** Computations that return or raise, on that state. *)
Definition M (A : Type) : Type := world -> result A * world.

Definition ret {A : Type} (a : A) : M A := fun w => (Returns a, w).

Definition raise {A : Type} (e : exn) : M A := fun w => (Raises e, w).

Definition bind {A B : Type} (c : M A) (k : A -> M B) : M B :=
  fun w =>
    match c w with
    | (Returns a, w') => k a w'
    | (Raises e, w') => (Raises e, w')
    end.

Definition lift {A : Type} (r : result A) : M A := fun w => (r, w).

Notation "'let*' x ':=' c 'in' k" := (bind c (fun x => k))
  (at level 10, x pattern, c at level 100, k at level 200).

Notation "c ';;' k" := (bind c (fun _ => k))
  (at level 100, k at level 200, right associativity).

(** [assert cond, msg] *)
Definition assert (cond : bool) : M unit :=
  if cond then ret tt else raise AssertionError.

(** The default (connect, read) pair of make_api_request. *)
Definition default_timeout : json :=
  JArray [JInt (Config.connect Config.HTTP_TIMEOUTS);
          JInt (Config.read Config.HTTP_TIMEOUTS)].

Section WithNetwork.

(** What [requests.Session()] builds, and what the network answers to a
    request given the requests sent before it. *)
Variable fresh_session : Registry.Session.
Variable transport : list request -> request -> result Response.

(** [make_api_request(method, url, session=None, **kwargs)].  A Session
    object is truthy, so only a missing session is replaced, by the
    registry's "default" session; a missing timeout is filled in; the
    response or the exception of [session.request] is handed on. *)
Definition make_api_request (method : string) (target : url)
  (session : option nat) (kwargs : gmap string json) : M Response :=
  fun w =>
    let '(s, reg) :=
      match session with
      | Some s => (s, registry w)
      | None => Registry.get_session fresh_session "default" None (registry w)
      end in
    let kwargs' :=
      if bool_decide (is_Some (kwargs !! "timeout")) then kwargs
      else <["timeout" := default_timeout]> kwargs in
    let req := {| method := method; target := target; session := s;
                  kwargs := kwargs' |} in
    (transport (sent w) req, {| registry := reg; sent := sent w ++ [req] |}).

(** [assert_status_code_in_range(response, expected_codes, description)] *)
Definition assert_status_code_in_range (response : Response)
  (expected_codes : list Z) : M unit :=
  assert (existsb (Z.eqb (status_code response)) expected_codes).

Definition json_kw (payload : json) : gmap string json := <["json" := payload]> ∅.

(** [_get_jsonplaceholder_data(session, endpoint, limit=10)]: the items of
    the slice it returns. *)
Definition _get_jsonplaceholder_data (session : nat) (endpoint : string)
  (limit : nat) : M (list json) :=
  match jsonplaceholder_endpoints !! endpoint with
  | None => raise KeyError
  | Some endpoint_url =>
      let* response :=
        make_api_request "GET" (Literal (jsonplaceholder_base ++ endpoint_url))
          (Some session) ∅ in
      assert_status_code_in_range response [200] ;;
      let* data := lift (body response) in
      lift (slice_items data limit)
  end.

Definition posts_url : string := jsonplaceholder_base ++ "/posts".

(** [_test_jsonplaceholder_crud(session, posts_data)] *)
Definition _test_jsonplaceholder_crud (session : nat) (posts_data : list json)
  : M unit :=
  (* READ *)
  let* structure :=
    lift (all_items_have ["userId"; "id"; "title"; "body"] posts_data) in
  assert structure ;;
  (* CREATE *)
  let* response :=
    make_api_request "POST" (Literal posts_url) (Some session)
      (json_kw VALID_POST_PAYLOAD) in
  assert_status_code_in_range response [200; 201] ;;
  let* created_post := lift (body response) in
  let* has_id := lift (py_in "id" created_post) in
  assert has_id ;;
  let* created_id := lift (py_getitem "id" created_post) in
  (* UPDATE *)
  let* response :=
    make_api_request "PUT" (Literal (posts_url ++ "/1")) (Some session)
      (json_kw update_post_payload) in
  assert_status_code_in_range response [200] ;;
  (* DELETE *)
  let* response :=
    make_api_request "DELETE" (Formatted posts_url created_id) (Some session) ∅ in
  assert_status_code_in_range response [200; 204].

(** [_validate_jsonplaceholder_schemas(posts_data)] *)
Fixpoint _validate_jsonplaceholder_schemas (posts_data : list json) : M unit :=
  match posts_data with
  | [] => ret tt
  | post :: rest =>
      lift (validate_json_schema post JSONPLACEHOLDER_POST_SCHEMA) ;;
      _validate_jsonplaceholder_schemas rest
  end.

(** [extract_ids_from_response(response_data, id_field)]: the set
    comprehension, item by item; [acc] is the set built so far. *)
Fixpoint extract_ids_from (acc : list json) (response_data : list json)
  (id_field : string) : result (list json) :=
  match response_data with
  | [] => Returns acc
  | item :: rest =>
      match py_in id_field item with
      | Raises e => Raises e
      | Returns false => extract_ids_from acc rest id_field
      | Returns true =>
          match py_getitem id_field item with
          | Raises e => Raises e
          | Returns v =>
              if hashable v
              then extract_ids_from (set_add v acc) rest id_field
              else Raises TypeError
          end
      end
  end.

Definition extract_ids_from_response (response_data : list json)
  (id_field : string) : result (list json) :=
  extract_ids_from [] response_data id_field.

(** [_test_jsonplaceholder_relationships(posts_data, comments_data,
    users_data)] *)
Definition _test_jsonplaceholder_relationships
  (posts_data comments_data users_data : list json) : M unit :=
  let* post_ids := lift (extract_ids_from_response posts_data "id") in
  let* comment_post_ids := lift (extract_ids_from_response comments_data "postId") in
  let* user_ids := lift (extract_ids_from_response users_data "id") in
  let* post_user_ids := lift (extract_ids_from_response posts_data "userId") in
  assert (0 <? length (set_inter post_ids comment_post_ids))%nat ;;
  assert (0 <? length (set_inter user_ids post_user_ids))%nat.

(** [_test_jsonplaceholder_negative_cases(session)] *)
Definition _test_jsonplaceholder_negative_cases (session : nat) : M unit :=
  let* response :=
    make_api_request "GET" (Literal (posts_url ++ "/9999")) (Some session) ∅ in
  assert_status_code_in_range response [404] ;;
  let* response :=
    make_api_request "POST" (Literal posts_url) (Some session)
      (json_kw post_invalid_types) in
  assert_status_code_in_range response [200; 201; 400] ;;
  let* response :=
    make_api_request "PUT" (Literal posts_url) (Some session)
      (json_kw VALID_POST_PAYLOAD) in
  assert_status_code_in_range response [404; 405].

(** [session_manager.get_session(name, headers)] on the state. *)
Definition get_session (name : string) (hdrs : option (gmap string string))
  : M nat :=
  fun w =>
    let '(id, reg) := Registry.get_session fresh_session name hdrs (registry w) in
    (Returns id, {| registry := reg; sent := sent w |}).

(** [test_jsonplaceholder_api()].  Its handler prints the error and
    raises it again, so the outcome is that of the steps. *)
Definition test_jsonplaceholder_api : M unit :=
  let* session := get_session "jsonplaceholder" None in
  let* posts_data := _get_jsonplaceholder_data session "posts" 10 in
  let* comments_data := _get_jsonplaceholder_data session "comments" 10 in
  let* users_data := _get_jsonplaceholder_data session "users" 10 in
  _test_jsonplaceholder_crud session posts_data ;;
  _validate_jsonplaceholder_schemas posts_data ;;
  _test_jsonplaceholder_relationships posts_data comments_data users_data ;;
  _test_jsonplaceholder_negative_cases session.

Definition users_url : string := reqres_base ++ "/users".
Definition users_url2 : string := reqres_base ++ "/users" ++ "?page=2".
Definition login_url : string := reqres_base ++ "/login".
Definition register_url : string := reqres_base ++ "/register".

(** [for user in data: validate_json_schema(user, REQRES_USER_SCHEMA,
    f"Usuario {user.get('id')}")] over a list: the description is built
    before the call, and only a dict has [get]. *)
Fixpoint validate_user_list (users : list json) : M unit :=
  match users with
  | [] => ret tt
  | user :: rest =>
      match user with
      | JObject _ => lift (validate_json_schema user REQRES_USER_SCHEMA)
      | _ => raise AttributeError
      end ;;
      validate_user_list rest
  end.

(** The same loop over whatever [page2_data["data"]] is: iterating a
    string gives characters and iterating a dict gives its keys, strings
    both, so the first item already fails; other values are not
    iterable. *)
Definition validate_users (data : json) : M unit :=
  match data with
  | JArray users => validate_user_list users
  | JString s => if String.eqb s "" then ret tt else raise AttributeError
  | JObject m => if bool_decide (m = ∅) then ret tt else raise AttributeError
  | JNull | JBool _ | JInt _ | JFloat _ | JNaN | JInfinity _ => raise TypeError
  end.

(** [_test_reqres_users(session)] *)
Definition _test_reqres_users (session : nat) : M unit :=
  (* CREATE *)
  let* response :=
    make_api_request "POST" (Literal users_url) (Some session)
      (json_kw VALID_USER_PAYLOAD) in
  assert_status_code_in_range response [201] ;;
  let* user_data := lift (body response) in
  let* has_id := lift (py_in "id" user_data) in
  assert has_id ;;
  (* READ *)
  let* response := make_api_request "GET" (Literal users_url) (Some session) ∅ in
  assert_status_code_in_range response [200] ;;
  let* users_response := lift (body response) in
  let* complete :=
    lift (all_fields_in ["page"; "per_page"; "total"; "total_pages"; "data"]
            users_response) in
  assert complete ;;
  (* pagination *)
  let* response := make_api_request "GET" (Literal users_url2) (Some session) ∅ in
  assert_status_code_in_range response [200] ;;
  assert (status_code response =? 200)%Z ;;
  let* page2_data := lift (body response) in
  let* has_page := lift (py_in "page" page2_data) in
  assert has_page ;;
  let* page := lift (py_getitem "page" page2_data) in
  assert (py_eq page (JInt 2)) ;;
  let* data := lift (py_getitem "data" page2_data) in
  validate_users data ;;
  (* UPDATE *)
  let* response :=
    make_api_request "PUT" (Literal (users_url ++ "/2")) (Some session)
      (json_kw update_user_payload) in
  assert_status_code_in_range response [200] ;;
  (* DELETE *)
  let* response :=
    make_api_request "DELETE" (Literal (users_url ++ "/2")) (Some session) ∅ in
  assert_status_code_in_range response [204].

(** [_test_reqres_authentication(session)] *)
Definition _test_reqres_authentication (session : nat) : M unit :=
  let* response :=
    make_api_request "POST" (Literal login_url) (Some session)
      (json_kw VALID_AUTH_PAYLOAD) in
  assert_status_code_in_range response [200] ;;
  let* login_data := lift (body response) in
  let* has_token := lift (py_in "token" login_data) in
  assert has_token ;;
  let* response :=
    make_api_request "POST" (Literal login_url) (Some session)
      (json_kw auth_missing_password) in
  assert_status_code_in_range response [400] ;;
  let* error_data := lift (body response) in
  let* has_error := lift (py_in "error" error_data) in
  assert has_error ;;
  let* response :=
    make_api_request "POST" (Literal register_url) (Some session)
      (json_kw register_payload) in
  assert_status_code_in_range response [200] ;;
  let* register_data := lift (body response) in
  let* complete := lift (all_fields_in ["id"; "token"] register_data) in
  assert complete ;;
  let* response :=
    make_api_request "POST" (Literal register_url) (Some session)
      (json_kw auth_missing_password) in
  assert_status_code_in_range response [400] ;;
  let* error_data := lift (body response) in
  let* has_error := lift (py_in "error" error_data) in
  assert has_error.

(** The request that every pass of the probe makes through
    make_api_request. *)
Definition probe_request (session : nat) : request :=
  {| method := "GET"; target := Literal (users_url ++ "/2"); session := session;
     kwargs := <["timeout" := default_timeout]> ∅ |}.

(** What the probe sees of a response. *)
Definition to_probe (out : result Response) : result Probe.Response :=
  match out with
  | Returns r =>
      Returns {| Probe.status_code := status_code r; Probe.headers := headers r |}
  | Raises e => Raises e
  end.

(** [_test_reqres_rate_limiting(session)] on the state: pass [i] is
    answered by the transport after the [i] requests of the passes before
    it; the requests that were made are added to the log. *)
Definition _test_reqres_rate_limiting (session : nat) : M unit :=
  fun w =>
    let req := probe_request session in
    let outcomes i := to_probe (transport (sent w ++ repeat req i) req) in
    let '(r, tr) := Probe._test_reqres_rate_limiting outcomes in
    (r, {| registry := registry w;
           sent := sent w ++ repeat req (length (Probe.requests tr)) |}).

(** [test_reqres_api()] *)
Definition test_reqres_api : M unit :=
  let* session := get_session "reqres" (Some Config.REQRES_HEADERS) in
  _test_reqres_users session ;;
  _test_reqres_authentication session ;;
  _test_reqres_rate_limiting session.

End WithNetwork.

(** The request that make_api_request builds for a given session. *)
Definition built (method : string) (target : url) (s : nat)
  (kwargs : gmap string json) : request :=
  {| method := method; target := target; session := s;
     kwargs := if bool_decide (is_Some (kwargs !! "timeout")) then kwargs
               else <["timeout" := default_timeout]> kwargs |}.

(** Some dict of the first list and some dict of the second have, in
    the given fields, values that a set takes for the same. *)
Definition related (field1 : string) (items1 : list json)
  (field2 : string) (items2 : list json) : Prop :=
  exists m1 v1 m2 v2,
    In (JObject m1) items1 /\ m1 !! field1 = Some v1
    /\ In (JObject m2) items2 /\ m2 !! field2 = Some v2
    /\ same_member v1 v2 = true.

(** A scenario function as the orchestrator sees it: it starts with no
    request sent and leaves the registry behind. *)
Definition as_scenario (c : M unit) : Orchestrator.scenario :=
  fun m =>
    let '(r, w) := c {| registry := m; sent := [] |} in (r, registry w).

Definition has_timeout (req : request) : Prop := is_Some (kwargs req !! "timeout").

(** [c] leaves the registry alone and sends, through session [s] and
    always with a timeout, requests whose methods are the first ones of
    [script], all of them when it returns. *)
Definition follows_script {A : Type} (s : nat) (script : list string) (c : M A)
  : Prop :=
  forall w, exists extra,
    sent (snd (c w)) = sent w ++ extra
    /\ registry (snd (c w)) = registry w
    /\ map method extra `prefix_of` script
    /\ (forall a, fst (c w) = Returns a -> map method extra = script)
    /\ Forall (fun req => session req = s /\ has_timeout req) extra.

(** The network fails only with Exceptions, also when a body is parsed. *)
Definition benign_transport (transport : list request -> request -> result Response)
  : Prop :=
  forall history req,
    match transport history req with
    | Returns r => raises_only_Exception (body r)
    | Raises e => is_Exception e = true
    end.

(** The computation raises nothing but Exceptions, and what it returns
    satisfies [P]. *)
Definition yields {A : Type} (P : A -> Prop) (c : M A) : Prop :=
  forall w,
    match fst (c w) with
    | Returns a => P a
    | Raises e => is_Exception e = true
    end.

(** The computation raises nothing but Exceptions. *)
Definition benign {A : Type} (c : M A) : Prop :=
  forall w, raises_only_Exception (fst (c w)).

(** [test_functions] of run_all_api_tests, each scenario with the network
    it meets. *)
Definition test_functions (fresh_session : Registry.Session)
  (network1 network2 : list request -> request -> result Response)
  : list Orchestrator.scenario :=
  [as_scenario (test_jsonplaceholder_api fresh_session network1);
   as_scenario (test_reqres_api fresh_session network2)].

(** *** A sample network for the examples *)

Definition respond (code : Z) (payload : json) : result Response :=
  Returns {| status_code := code; headers := ∅; body := Returns payload |}.

Definition no_content (code : Z) : result Response :=
  Returns {| status_code := code; headers := ∅;
             body := Raises (Exception "JSONDecodeError") |}.

(** How many earlier requests had this method and literal URL. *)
Definition earlier (history : list request) (m u : string) : nat :=
  length (List.filter
            (fun r => String.eqb (method r) m
                      && match target r with
                         | Literal s => String.eqb s u
                         | Formatted _ _ => false
                         end)
            history).

Definition sample_post (id : Z) : json := JObject (post 1 id "sunt aut facere" "quia et suscipit").

Definition sample_comment : json :=
  JObject (<["postId" := JInt 1]> (<["id" := JInt 1]> (<["name" := JString "id labore"]> ∅))).

Definition sample_user : json :=
  JObject (<["id" := JInt 1]> (<["name" := JString "Leanne Graham"]> ∅)).

Definition reqres_user : json :=
  JObject (<["id" := JInt 7]>
             (<["email" := JString "michael.lawson@reqres.in"]>
                (<["first_name" := JString "Michael"]>
                   (<["last_name" := JString "Lawson"]>
                      (<["avatar" := JString "https://reqres.in/img/faces/7-image.jpg"]> ∅))))).

Definition token_body : json :=
  JObject (<["id" := JInt 4]> (<["token" := JString "QpwL5tke4Pnpja7X4"]> ∅)).

Definition error_body : json :=
  JObject (<["error" := JString "Missing password"]> ∅).

(** A server that behaves like the two mock services: the first login
    and the first registration succeed, the second ones are refused. *)
Definition mock_server (history : list request) (req : request) : result Response :=
  let m := method req in
  match target req with
  | Formatted _ _ =>
      if String.eqb m "DELETE" then respond 200 (JObject ∅) else respond 404 (JObject ∅)
  | Literal u =>
      if String.eqb m "GET" then
        if String.eqb u posts_url then respond 200 (JArray [sample_post 1; sample_post 2])
        else if String.eqb u (jsonplaceholder_base ++ "/comments")
        then respond 200 (JArray [sample_comment])
        else if String.eqb u (jsonplaceholder_base ++ "/users")
        then respond 200 (JArray [sample_user])
        else if String.eqb u users_url
        then respond 200
               (JObject (<["page" := JInt 1]>
                           (<["per_page" := JInt 6]>
                              (<["total" := JInt 12]>
                                 (<["total_pages" := JInt 2]>
                                    (<["data" := JArray []]> ∅))))))
        else if String.eqb u users_url2
        then respond 200
               (JObject (<["page" := JInt 2]> (<["data" := JArray [reqres_user]]> ∅)))
        else if String.eqb u (users_url ++ "/2") then respond 200 (JObject ∅)
        else respond 404 (JObject ∅)
      else if String.eqb m "POST" then
        if String.eqb u posts_url then respond 201 (JObject (<["id" := JInt 101]> ∅))
        else if String.eqb u users_url
        then respond 201 (JObject (<["id" := JString "7"]> ∅))
        else if (String.eqb u login_url || String.eqb u register_url)%bool
        then match earlier history m u with
             | O => respond 200 token_body
             | S _ => respond 400 error_body
             end
        else respond 404 (JObject ∅)
      else if String.eqb m "PUT" then
        if (String.eqb u (posts_url ++ "/1") || String.eqb u (users_url ++ "/2"))%bool
        then respond 200 (JObject ∅)
        else respond 404 (JObject ∅)
      else if String.eqb m "DELETE" then
        if String.eqb u (users_url ++ "/2") then no_content 204
        else respond 404 (JObject ∅)
      else respond 405 (JObject ∅)
  end.

(** A network that is down. *)
Definition no_network (history : list request) (req : request) : result Response :=
  Raises (Exception "ConnectionError").

Definition start (m : Registry.manager) : world := {| registry := m; sent := [] |}.

(** The items are dicts, and where they have the field its value can be
    a set member. *)
Definition dicts_with_hashable (id_field : string) (items : list json) : Prop :=
  Forall (fun item =>
            exists m, item = JObject m
                      /\ forall v, m !! id_field = Some v -> hashable v = true)
         items.

(** Some item of the list is a dict whose field is, for a set, the
    same as [v]. *)
Definition occurs (id_field : string) (items : list json) (v : json) : Prop :=
  exists m v',
    In (JObject m) items /\ m !! id_field = Some v' /\ same_member v v' = true.

(** Documents whose identifiers are NaN. *)
Definition nan_post : json := JObject (<["id" := JNaN]> (<["userId" := JInt 1]> ∅)).
Definition nan_comment : json := JObject (<["postId" := JNaN]> ∅).

End Api.

(** ** What the schemas accept, value by value *)

Module SchemaShapes.
Import Schema.

(** An integer of at least 1: a Python int, or a float with a whole
    value. *)
Definition integer_from_1 (v : json) : Prop :=
  match v with
  | JInt n => 1 <= n
  | JFloat q => whole q = true /\ Qle_bool (inject_Z 1) q = true
  | _ => False
  end.

Definition nonempty_string (v : json) : Prop :=
  match v with
  | JString s => s <> ""
  | _ => False
  end.

Definition is_integer (v : json) : Prop := has_type TInteger v = true.

Definition is_string (v : json) : Prop := has_type TString v = true.

(** [properties] applied member by member. *)
Definition members_ok (properties : list (string * schema)) (m : gmap string json)
  : bool :=
  forallb (fun p => match m !! fst p with
                    | Some v => valid (snd p) v
                    | None => true
                    end) properties.

End SchemaShapes.

(** ** Browser automation (src/web_automation.py)

    [WebDriverManager] is a singleton: [__new__] hands every caller the
    one instance, so the eight tests and [run_all_web_tests] share its
    [_driver] attribute.  The model threads that one object through the
    calls.  A browser is identified by the number of the
    [_create_driver] call that made it. *)

Module Web.

Definition ImportError : exn := Exception "ImportError".

Inductive event : Type :=
| Started (driver : nat)      (* webdriver.Chrome returned this browser *)
| Launched (driver : nat)     (* _create_driver returned this browser *)
| QuitCalled (driver : nat)   (* driver.quit() was called on it *)
| BodyRun (driver : nat)      (* the steps of a test ran in it *)
| Counted (successful_tests failed_tests : Z).  (* the final report *)

Record manager := {
  _driver : option nat;
  attempts : nat;             (* calls of _create_driver so far *)
  trace : list event
}.

Definition initial : manager :=
  {| _driver := None; attempts := 0; trace := [] |}.

Definition log (ev : event) (m : manager) : manager :=
  {| _driver := _driver m; attempts := attempts m; trace := trace m ++ [ev] |}.

Definition set_driver (d : option nat) (m : manager) : manager :=
  {| _driver := d; attempts := attempts m; trace := trace m |}.

(** A test function: the steps between [get_driver] and [quit_driver],
    run in the browser they are given. *)
Definition body : Type := nat -> result unit.

Section WithBrowser.

(** What the environment does at the [n]-th creation: building the
    options and the downloads directory, [webdriver.Chrome(options=...)],
    the webdriver-manager route (its two imports, the driver download and
    the second [webdriver.Chrome]), and the three timeout setters. *)
Variable options : nat -> result unit.
Variable chrome : nat -> result unit.
Variable fallback : nat -> result unit.
Variable configure : nat -> result unit.
(** [driver.quit()] on a browser. *)
Variable quit : nat -> result unit.

(** [WebDriverManager._create_driver] up to the point where [driver]
    is bound: the options, then [webdriver.Chrome], at the first attempt
    or through webdriver-manager.  Both handlers of the inner try end in
    [raise e], the exception of the first attempt. *)
Definition start_browser (n : nat) : result nat :=
  match options n with
  | Raises e => Raises e
  | Returns _ =>
      match chrome n with
      | Returns _ => Returns n
      | Raises e =>
          if is_Exception e then
            match fallback n with
            | Returns _ => Returns n
            | Raises e2 => if is_Exception e2 then Raises e else Raises e2
            end
          else Raises e
      end
  end.

(** [WebDriverManager._create_driver]: the browser, then its three
    timeouts.  When a setter raises, the exception leaves the method and
    the browser, already running, is not handed to anyone. *)
Definition _create_driver (n : nat) : result nat :=
  match start_browser n with
  | Raises e => Raises e
  | Returns d =>
      match configure d with
      | Raises e => Raises e
      | Returns _ => Returns d
      end
  end.

(** [WebDriverManager.get_driver] *)
Definition get_driver (m : manager) : result nat * manager :=
  match _driver m with
  | Some d => (Returns d, m)
  | None =>
      let m1 := {| _driver := None; attempts := S (attempts m);
                   trace := trace m
                            ++ match start_browser (attempts m) with
                               | Returns d => [Started d]
                               | Raises _ => []
                               end |} in
      match _create_driver (attempts m) with
      | Raises e => (Raises e, m1)
      | Returns d => (Returns d, log (Launched d) (set_driver (Some d) m1))
      end
  end.

(** [WebDriverManager.quit_driver]: the [finally] clears [_driver]
    whatever [quit] does. *)
Definition quit_driver (m : manager) : result unit * manager :=
  match _driver m with
  | None => (Returns tt, m)
  | Some d =>
      let m1 := set_driver None (log (QuitCalled d) m) in
      match quit d with
      | Returns _ => (Returns tt, m1)
      | Raises e => if is_Exception e then (Returns tt, m1) else (Raises e, m1)
      end
  end.

(** The frame the eight test functions share:
    [driver = WebDriverManager().get_driver()] before the try; the steps
    and then [quit_driver()] inside it; the handler prints and re-raises.
    (The handler of test_multiple_windows first tries to switch back to
    the main window, inside a bare [except: pass] that swallows whatever
    is raised there, a KeyboardInterrupt included; what it re-raises is
    still the exception of the steps.) *)
Definition web_test (steps : body) (m : manager) : result unit * manager :=
  match get_driver m with
  | (Raises e, m1) => (Raises e, m1)
  | (Returns d, m1) =>
      let m2 := log (BodyRun d) m1 in
      match steps d with
      | Raises e => (Raises e, m2)
      | Returns _ => quit_driver m2
      end
  end.

(** The loop of [run_all_web_tests]. *)
Fixpoint run_tests (test_functions : list body) (successful_tests failed_tests : Z)
    (m : manager) : result (Z * Z) * manager :=
  match test_functions with
  | [] => (Returns (successful_tests, failed_tests), m)
  | steps :: rest =>
      match web_test steps m with
      | (Returns _, m1) => run_tests rest (successful_tests + 1) failed_tests m1
      | (Raises e, m1) =>
          if is_Exception e
          then run_tests rest successful_tests (failed_tests + 1) m1
          else (Raises e, m1)
      end
  end.

(** What each test function does when the list is run in order. *)
Fixpoint observe (test_functions : list body) (m : manager)
  : list (result unit) :=
  match test_functions with
  | [] => []
  | steps :: rest =>
      let '(r, m1) := web_test steps m in r :: observe rest m1
  end.

(** [run_all_web_tests]: the counts are printed before the rate is
    computed, and a ZeroDivisionError there is an Exception, which the
    outer handler swallows. *)
Definition run_all_web_tests (test_functions : list body) (m : manager)
  : result unit * manager :=
  let '(r, m1) := run_tests test_functions 0 0 m in
  (* try ... except Exception *)
  let '(pending, m2) :=
    match r with
    | Returns (successful_tests, failed_tests) =>
        (Returns tt, log (Counted successful_tests failed_tests) m1)
    | Raises e => (if is_Exception e then Returns tt else Raises e, m1)
    end in
  (* finally *)
  match quit_driver m2 with
  | (Raises e, m3) => (Raises e, m3)
  | (Returns _, m3) => (pending, m3)
  end.

End WithBrowser.

(** Reading a trace. *)
Definition started (tr : list event) : list nat :=
  flat_map (fun ev => match ev with Started d => [d] | _ => [] end) tr.

Definition launched (tr : list event) : list nat :=
  flat_map (fun ev => match ev with Launched d => [d] | _ => [] end) tr.

Definition quits (tr : list event) : list nat :=
  flat_map (fun ev => match ev with QuitCalled d => [d] | _ => [] end) tr.

Definition runs (tr : list event) : list nat :=
  flat_map (fun ev => match ev with BodyRun d => [d] | _ => [] end) tr.

Definition counts (tr : list event) : list (Z * Z) :=
  flat_map (fun ev => match ev with Counted s f => [(s, f)] | _ => [] end) tr.

(** The browser the manager holds, if any. *)
Definition live (m : manager) : list nat :=
  match _driver m with
  | Some d => [d]
  | None => []
  end.

(** Did the timeout setters return for this browser? *)
Definition configured (configure : nat -> result unit) (d : nat) : bool :=
  match configure d with
  | Returns _ => true
  | Raises _ => false
  end.

(** The browsers handed out so far are the browsers started whose
    timeouts could be set, and each of them has had [quit] called on it,
    except the one the manager still holds. *)
Definition accounted (configure : nat -> result unit) (m : manager) : Prop :=
  launched (trace m) = quits (trace m) ++ live m
  /\ launched (trace m) = List.filter (configured configure) (started (trace m)).

(** An environment step that fails only with exceptions derived from
    Exception. *)
Definition tame (step : nat -> result unit) : Prop :=
  forall n, raises_only_Exception (step n).

(** Sample environments: everything works; Chrome does not start and
    webdriver-manager is not installed; the steps of a test fail. *)
Definition works (n : nat) : result unit := Returns tt.
Definition no_chrome (n : nat) : result unit :=
  Raises (Exception "WebDriverException").
Definition not_installed (n : nat) : result unit := Raises ImportError.
Definition interrupted (n : nat) : result unit := Raises KeyboardInterrupt.
(** The timeouts of the first browser cannot be set. *)
Definition setter_fails_once (n : nat) : result unit :=
  if (n =? 0)%nat then Raises (Exception "WebDriverException") else Returns tt.
Definition failing_steps : body := fun _ => Raises AssertionError.
Definition passing_steps : body := fun _ => Returns tt.


(** A manager that holds a browser. *)
Definition holding : manager :=
  {| _driver := Some 0%nat; attempts := 1; trace := [Started 0; Launched 0] |}.

End Web.

(** ** The suites of one execution (src/test_runner.py) *)

Module Program.
Import Runner.

(** The test passed: the call returned. *)
Definition passed (r : result unit) : Prop := r = Returns tt.

(** Every suite succeeds: the outcome of each suite step is that of its
    suite function, run at process start on tests that all pass. *)
Definition every_suite_succeeds (r : run) : Prop :=
  (exists options chrome fallback configure quit web_tests,
     web_suite r
     = fst (Web.run_all_web_tests options chrome fallback configure quit
              web_tests Web.initial)
     /\ Forall passed
          (Web.observe options chrome fallback configure quit
             web_tests Web.initial))
  /\ (exists api_tests close,
        api_suite r
        = fst (fst (Orchestrator.run_all_api_tests api_tests close
                      Registry.initial))
        /\ Forall passed (Orchestrator.observe api_tests Registry.initial)).

(** A run whose suites are one passing web test in a browser that works
    and one passing API scenario. *)
Definition passing_run : run :=
  plain_run
    (fst (Web.run_all_web_tests Web.works Web.works Web.works Web.works
            Web.works [Web.passing_steps] Web.initial))
    (fst (fst (Orchestrator.run_all_api_tests
                 [Orchestrator.passing_scenario "jsonplaceholder"]
                 Orchestrator.close_ok Registry.initial))).

(** A run in which Ctrl+C reaches the first API scenario. *)
Definition api_interrupted_run : run :=
  plain_run (Returns tt)
    (fst (fst (Orchestrator.run_all_api_tests
                 [fun m => (Raises KeyboardInterrupt, m)]
                 Orchestrator.close_ok Registry.initial))).

End Program.

(** ** The final report (src/test_runner.py) *)

Module Report.
Import Runner.

(** [web_test_success] and [api_test_success] when the [finally] of
    [run_all_tests] runs: both start False, and an assignment happens
    only if [_execute_test_suite] returned. *)
Definition flags_at_report (r : run) : bool * bool :=
  match _execute_test_suite (web_suite r) with
  | Raises _ => (false, false)
  | Returns web_test_success =>
      match pause r with
      | Raises _ => (web_test_success, false)
      | Returns _ =>
          match _execute_test_suite (api_suite r) with
          | Raises _ => (web_test_success, false)
          | Returns api_test_success => (web_test_success, api_test_success)
          end
      end
  end.

Inductive verdict : Type :=
| Excelente      (* "EXCELENTE: ¡TODAS LAS PRUEBAS PASARON EXITOSAMENTE!" *)
| Advertencia    (* "ADVERTENCIA: Algunas pruebas fallaron, ..." *)
| Alerta.        (* "ALERTA: La mayoría de pruebas fallaron" *)

(** [sum([self.web_test_success, self.api_test_success])] *)
Definition successful_suites (flags : bool * bool) : Z :=
  Z.b2z (fst flags) + Z.b2z (snd flags).

(** [(successful_suites / total_suites) * 100] with [total_suites = 2] *)
Definition success_rate (flags : bool * bool) : Q :=
  (inject_Z (successful_suites flags) / inject_Z 2) * inject_Z 100.

(** The closing message of [_generate_final_report]. *)
Definition closing_message (rate : Q) : verdict :=
  if Qeq_bool rate (inject_Z 100) then Excelente
  else if Qle_bool (inject_Z 50) rate then Advertencia
  else Alerta.

Definition final_message (r : run) : verdict :=
  closing_message (success_rate (flags_at_report r)).

End Report.

(** * Properties *)

(** ** Session registry *)

Module RegistryFacts.
Import Registry.

Lemma dict_get_app {V : Type} (k k' : string) (v : V) (d : list (string * V)) :
  dict_get k (d ++ [(k', v)]) =
  match dict_get k d with
  | Some x => Some x
  | None => if String.eqb k k' then Some v else None
  end.
Proof.
  induction d as [|[k0 v0] d IH]; simpl.
  - reflexivity.
  - destruct (String.eqb k k0); [reflexivity | exact IH].
Qed.

Section WithLibrary.
Variable fresh_session : Session.

Lemma get_session_hit name hdrs m id :
  dict_get name (_sessions m) = Some id ->
  get_session fresh_session name hdrs m = (id, m).
Proof. intros H. unfold get_session. rewrite H. reflexivity. Qed.

(** One call: the name is registered afterwards under the identity
    returned, earlier registrations stay, and the heap grows by at most
    the object returned. *)
Lemma get_session_step name hdrs m id m' :
  registered_alive m ->
  get_session fresh_session name hdrs m = (id, m') ->
  registered_alive m'
  /\ dict_get name (_sessions m') = Some id
  /\ (forall n i, dict_get n (_sessions m) = Some i ->
                  dict_get n (_sessions m') = Some i)
  /\ dom (heap m') = dom (heap m) ∪ {[id]}.
Proof.
  intros Hinv. unfold get_session, _create_session.
  destruct (dict_get name (_sessions m)) as [i|] eqn:Hget.
  - intros [= <- <-]. repeat split; auto.
    apply Hinv in Hget. set_solver.
  - cbn [_sessions heap]. intros [= <- <-]. cbn [_sessions heap].
    repeat split.
    + intros n i. cbn [_sessions heap]. rewrite dict_get_app.
      destruct (dict_get n (_sessions m)) eqn:Hn.
      * intros [= <-]. apply Hinv in Hn. set_solver.
      * destruct (String.eqb n name); [|discriminate].
        intros [= <-]. set_solver.
    + rewrite dict_get_app, Hget, String.eqb_refl. reflexivity.
    + intros n i Hn. rewrite dict_get_app, Hn. reflexivity.
    + set_solver.
Qed.

Lemma get_sessions_spec calls : forall m ids m',
  registered_alive m ->
  get_sessions fresh_session calls m = (ids, m') ->
  registered_alive m'
  /\ (forall n i, dict_get n (_sessions m) = Some i ->
                  dict_get n (_sessions m') = Some i)
  /\ (forall k name hdrs, calls !! k = Some (name, hdrs) ->
        exists id, ids !! k = Some id
                   /\ dict_get name (_sessions m') = Some id)
  /\ dom (heap m') = dom (heap m) ∪ list_to_set ids.
Proof.
  induction calls as [|[name hdrs] rest IH]; intros m ids m' Hinv; simpl.
  - intros [= <- <-]. repeat split; auto.
    + intros k n h Hk. rewrite lookup_nil in Hk. discriminate.
    + set_solver.
  - destruct (get_session fresh_session name hdrs m) as [id m1] eqn:H1.
    destruct (get_sessions fresh_session rest m1) as [ids' m2] eqn:H2.
    intros [= <- <-].
    destruct (get_session_step _ _ _ _ _ Hinv H1) as (Hinv1 & Hreg & Hkeep & Hdom).
    destruct (IH _ _ _ Hinv1 H2) as (Hinv2 & Hkeep2 & Hcalls & Hdom2).
    repeat split; auto.
    + intros [|k] n h Hk; simpl in *.
      * injection Hk as <- <-. exists id. split; auto.
      * apply Hcalls in Hk. exact Hk.
    + rewrite Hdom2, Hdom. set_solver.
Qed.

Lemma initial_alive : registered_alive initial.
Proof. intros n i H. discriminate. Qed.

End WithLibrary.

Lemma close_loop_spec close items : forall h,
  (forall id e, close id = Raises e -> is_Exception e = true) ->
  exists h' tr,
    close_loop close items h = (Returns tt, h', tr)
    /\ close_attempts tr = map fst items
    /\ (forall n id e, In (n, id) items -> close id = Raises e ->
                       In (PrintCloseError n e) tr).
Proof.
  intros h Hexc. revert h.
  induction items as [|[n id] rest IH]; intros h; simpl.
  - exists h, []. repeat split; auto.
  - destruct (close id) as [[]|e] eqn:Hc.
    + destruct (IH h) as (h' & tr & -> & Hatt & Hlog).
      eexists _, _. split; [reflexivity|]. split.
      * simpl. f_equal. exact Hatt.
      * intros n' id' e' [[= <- <-]|Hin] Hc'; [congruence|].
        right; right. eauto.
    + rewrite (Hexc _ _ Hc).
      destruct (IH h) as (h' & tr & -> & Hatt & Hlog).
      eexists _, _. split; [reflexivity|]. split.
      * simpl. f_equal. exact Hatt.
      * intros n' id' e' [[= <- <-]|Hin] Hc'.
        -- right; left. congruence.
        -- right; right. eauto.
Qed.

Lemma get_sessions_length fresh_session calls : forall m,
  length (fst (get_sessions fresh_session calls m)) = length calls.
Proof.
  induction calls as [|[name hdrs] rest IH]; intros m; simpl; [reflexivity|].
  destruct (get_session fresh_session name hdrs m) as [id m1].
  specialize (IH m1).
  destruct (get_sessions fresh_session rest m1) as [ids m2].
  simpl in *. congruence.
Qed.

(** C4. Starting from the registry of a fresh process, in every sequence
    of get_session calls: each call returns a Session, two calls with the
    same name return the identical object, and the Session objects in
    existence afterwards are exactly the ones returned, so no name ever
    has more than one instance. *)
Theorem get_session_identical (fresh_session : Session)
  (calls : list (string * option (gmap string string))) :
  let ids := fst (get_sessions fresh_session calls initial) in
  let m' := snd (get_sessions fresh_session calls initial) in
  length ids = length calls
  /\ (forall i j name hi hj,
        calls !! i = Some (name, hi) -> calls !! j = Some (name, hj) ->
        is_Some (ids !! i) /\ ids !! i = ids !! j)
  /\ dom (heap m') = list_to_set ids.
Proof.
  intros ids m'. split; [apply get_sessions_length|].
  destruct (get_sessions fresh_session calls initial) as [ids0 m0] eqn:Hrun.
  subst ids m'. simpl.
  destruct (get_sessions_spec fresh_session calls _ _ _ initial_alive Hrun)
    as (_ & _ & Hcalls & Hdom).
  split.
  - intros i j name hi hj Hi Hj.
    destruct (Hcalls _ _ _ Hi) as (a & Ha & Hra).
    destruct (Hcalls _ _ _ Hj) as (b & Hb & Hrb).
    rewrite Ha, Hb. split; [eauto | congruence].
  - rewrite Hdom. simpl. set_solver.
Qed.

Lemma get_session_identical_witness :
  let ids := fst (get_sessions library_session sample_calls initial) in
  is_Some (ids !! 0%nat) /\ ids !! 0%nat = ids !! 2%nat.
Proof.
  intros ids.
  exact (proj1 (proj2 (get_session_identical library_session sample_calls))
           0%nat 2%nat "jsonplaceholder" None (Some Config.REQRES_HEADERS)
           eq_refl eq_refl).
Defined.



Lemma close_all_sessions_returns close m :
  (forall id e, close id = Raises e -> is_Exception e = true) ->
  exists m' tr, close_all_sessions close m = (Returns tt, m', tr).
Proof.
  intros Hexc. unfold close_all_sessions.
  destruct (close_loop_spec close (_sessions m) (heap m) Hexc)
    as (h' & tr & -> & _).
  eexists _, _. reflexivity.
Qed.

(** What the source attaches to every Session it creates: the adapter
    with Retry(total=3, backoff_factor=2, ...) on both URL prefixes.  The
    delays between retries are computed inside urllib3, not here. *)
Lemma created_session_retry_policy (fresh_session : Session)
  (hdrs : option (gmap string string)) (m : manager) :
  exists s,
    heap (snd (_create_session fresh_session hdrs m))
      !! fst (_create_session fresh_session hdrs m) = Some s
    /\ adapters s !! "https://" = Some adapter
    /\ adapters s !! "http://" = Some adapter
    /\ total (max_retries adapter) = 3
    /\ retry_backoff_factor (max_retries adapter) = 2.
Proof.
  unfold _create_session. cbn [fst snd heap].
  eexists. split; [apply lookup_insert_eq|]. cbn [adapters].
  split; [apply lookup_insert_eq|]. split; [|split; reflexivity].
  rewrite lookup_insert_ne; [apply lookup_insert_eq | discriminate].
Qed.

(** Once close_all_sessions has cleared the registry, a name asked for
    again gets a newly constructed Session. *)
Example get_session_after_close_all :
  let '(_, m1, _) := close_all_sessions first_close_fails sample_manager in
  dict_get "jsonplaceholder" (_sessions sample_manager) = Some 0%nat
  /\ fst (get_session library_session "jsonplaceholder" None m1) = 2%nat.
Proof. vm_compute. split; reflexivity. Qed.

(** C8. When the close of a Session can only fail with an exception
    derived from Exception, close_all_sessions returns normally, has
    invoked close on every registered Session in registration order,
    has printed a warning for each close that raised, and leaves the
    registry empty. *)
Theorem close_all_sessions_best_effort (close : nat -> result unit) (m : manager) :
  (forall id e, close id = Raises e -> is_Exception e = true) ->
  exists m' tr,
    close_all_sessions close m = (Returns tt, m', tr)
    /\ close_attempts tr = map fst (_sessions m)
    /\ (forall n id e, In (n, id) (_sessions m) -> close id = Raises e ->
                       In (PrintCloseError n e) tr)
    /\ _sessions m' = [].
Proof.
  intros Hexc. unfold close_all_sessions.
  destruct (close_loop_spec close (_sessions m) (heap m) Hexc)
    as (h' & tr & -> & Hatt & Hlog).
  eexists _, _. split; [reflexivity|]. repeat split; auto.
Qed.

Lemma close_all_sessions_best_effort_witness :
  exists m' tr,
    close_all_sessions first_close_fails sample_manager = (Returns tt, m', tr)
    /\ close_attempts tr = map fst (_sessions sample_manager)
    /\ (forall n id e, In (n, id) (_sessions sample_manager) ->
                       first_close_fails id = Raises e ->
                       In (PrintCloseError n e) tr)
    /\ _sessions m' = [].
Proof.
  apply close_all_sessions_best_effort.
  intros id e. unfold first_close_fails.
  destruct (id =? 0)%nat; [intros [= <-]; reflexivity | discriminate].
Defined.

Example close_all_sessions_sample :
  let '(r, m', tr) := close_all_sessions first_close_fails sample_manager in
  r = Returns tt
  /\ tr = [CallClose "jsonplaceholder";
           PrintCloseError "jsonplaceholder" (Exception "OSError");
           CallClose "reqres"; PrintClosed "reqres"]
  /\ _sessions m' = [].
Proof. vm_compute. repeat split. Qed.

End RegistryFacts.

(** ** Rate-limit probe *)

Module ProbeFacts.
Import Probe.

Lemma sleeps_app tr1 tr2 : sleeps (tr1 ++ tr2) = sleeps tr1 ++ sleeps tr2.
Proof. apply flat_map_app. Qed.

Lemma requests_app tr1 tr2 : requests (tr1 ++ tr2) = requests tr1 ++ requests tr2.
Proof. apply flat_map_app. Qed.

(** The handler adds a warning and nothing else. *)
Lemma handler_trace i e c tr :
  snd (handler i e c tr) = tr ++ (if is_Exception e then [PrintWarning (S i) e] else []).
Proof.
  unfold handler. destruct (is_Exception e); simpl; [reflexivity|].
  symmetry. apply app_nil_r.
Qed.

Lemma handler_returns i e c tr :
  is_Exception e = true -> fst (handler i e c tr) = Returns c.
Proof. intros H. unfold handler. rewrite H. reflexivity. Qed.

(** What time.sleep raises is an Exception. *)
Lemma sleep_raises secs e : Py.sleep secs = Raises e -> is_Exception e = true.
Proof.
  unfold Py.sleep. destruct (Py.fits_timer secs); [destruct (Qle_bool 0 secs)|];
    intros [= <-]; reflexivity.
Qed.

(** time.sleep on a whole number of seconds. *)
Lemma sleep_int (N : Z) :
  Py.sleep (inject_Z N)
  = if ((N <? -9223372036) || (9223372036 <? N))%Z then Raises OverflowError
    else if (N <? 0)%Z then Raises ValueError
    else Returns tt.
Proof.
  unfold Py.sleep, Py.fits_timer, Qle_bool, Qmult, inject_Z.
  cbn [Qnum Qden Pos.mul]. rewrite !Z.mul_1_r.
  destruct (Z.leb_spec (-9223372036854775808) (N * 1000000000));
    destruct (Z.leb_spec (N * 1000000000) 9223372036854775807);
    destruct (Z.ltb_spec N (-9223372036));
    destruct (Z.ltb_spec 9223372036 N);
    destruct (Z.ltb_spec N 0);
    destruct (Z.leb_spec 0 N);
    cbn [andb orb]; try reflexivity; lia.
Qed.

(** A sleep in the try block: the call is made; when time.sleep raises,
    the handler prints its warning. *)
Lemma sleep_then_trace i secs c tr :
  snd (sleep_then i secs c tr) =
  tr ++ CallSleep secs
     :: match Py.sleep secs with
        | Returns _ => []
        | Raises e => [PrintWarning (S i) e]
        end.
Proof.
  unfold sleep_then. destruct (Py.sleep secs) as [[]|e] eqn:Hs; simpl.
  - reflexivity.
  - rewrite handler_trace, (sleep_raises secs e Hs), <- app_assoc. reflexivity.
Qed.

Lemma sleep_then_returns i secs c tr : fst (sleep_then i secs c tr) = Returns c.
Proof.
  unfold sleep_then. destruct (Py.sleep secs) as [[]|e] eqn:Hs; [reflexivity|].
  apply handler_returns. exact (sleep_raises secs e Hs).
Qed.

Lemma sleeps_sleep_then i secs c tr :
  sleeps (snd (sleep_then i secs c tr)) = sleeps tr ++ [secs].
Proof.
  rewrite sleep_then_trace, sleeps_app. f_equal.
  destruct (Py.sleep secs); reflexivity.
Qed.

Lemma requests_sleep_then i secs c tr :
  requests (snd (sleep_then i secs c tr)) = requests tr.
Proof.
  rewrite sleep_then_trace, requests_app.
  destruct (Py.sleep secs); simpl; apply app_nil_r.
Qed.

Lemma int_of_empty_header s n : Py.int s = Some n -> Py.truthy (Some s) = true.
Proof. destruct s; [vm_compute; discriminate | reflexivity]. Qed.

(** A pass over a 429 response whose wait is [w]: the request, the
    rate-limit message and the call of time.sleep, in that order. *)
Lemma rate_limited_pass i w c tr :
  sleep_then i (inject_Z w) c tr
  = (Returns c,
     tr ++ CallSleep (inject_Z w)
        :: (if ((w <? -9223372036) || (9223372036 <? w))%Z
            then [PrintWarning (S i) OverflowError]
            else if (w <? 0)%Z then [PrintWarning (S i) ValueError]
            else [])).
Proof.
  rewrite (surjective_pairing (sleep_then i (inject_Z w) c tr)).
  rewrite sleep_then_returns, sleep_then_trace, sleep_int.
  destruct ((w <? -9223372036) || (9223372036 <? w))%Z; [reflexivity|].
  destruct (w <? 0)%Z; reflexivity.
Qed.

(** Every pass through the body issues exactly one request. *)
Lemma iteration_requests i out c : requests (snd (iteration i out c)) = [i].
Proof.
  unfold iteration. destruct out as [response|e].
  - destruct (status_code response =? 429)%Z.
    + destruct (if Py.truthy _ then _ else _).
      * rewrite requests_sleep_then. reflexivity.
      * rewrite handler_trace. reflexivity.
    + rewrite requests_sleep_then. reflexivity.
  - rewrite handler_trace, requests_app.
    destruct (is_Exception e); reflexivity.
Qed.

(** The loop goes on after every pass whose request returned or raised
    an Exception. *)
Lemma iteration_continues i out c :
  (forall e, out = Raises e -> is_Exception e = true) ->
  exists c', fst (iteration i out c) = Returns c'.
Proof.
  intros H. unfold iteration. destruct out as [response|e].
  - destruct (status_code response =? 429)%Z.
    + destruct (if Py.truthy _ then _ else _).
      * eexists. apply sleep_then_returns.
      * eexists. apply handler_returns. reflexivity.
    + eexists. apply sleep_then_returns.
  - eexists. apply handler_returns. apply H. reflexivity.
Qed.

Lemma iteration_logs_exception i e c :
  is_Exception e = true ->
  In (PrintWarning (S i) e) (snd (iteration i (Raises e) c)).
Proof.
  intros H. unfold iteration. rewrite handler_trace, H.
  simpl. right. left. reflexivity.
Qed.

(** The trace of a pass does not depend on the counters. *)
Lemma iteration_trace_counters i out c c' :
  snd (iteration i out c) = snd (iteration i out c').
Proof.
  unfold iteration. destruct out as [response|e].
  - destruct (status_code response =? 429)%Z.
    + destruct (if Py.truthy _ then _ else _).
      * rewrite !sleep_then_trace. reflexivity.
      * rewrite !handler_trace. reflexivity.
    + rewrite !sleep_then_trace. reflexivity.
  - rewrite !handler_trace. reflexivity.
Qed.

Section Run.
Variable outcomes : nat -> result Response.
Hypothesis only_Exceptions :
  forall i e, outcomes i = Raises e -> is_Exception e = true.

(** The loop runs through all its indices, and its trace is the
    traces of the passes, one after the other. *)
Lemma loop_completes indices : forall c,
  exists c',
    loop outcomes indices c =
    (Returns c', flat_map (fun i => snd (iteration i (outcomes i) c0)) indices).
Proof.
  induction indices as [|i rest IH]; intros c; simpl.
  - eexists. reflexivity.
  - destruct (iteration_continues i (outcomes i) c (only_Exceptions i)) as [c1 H1].
    rewrite (iteration_trace_counters i (outcomes i) c0 c).
    destruct (iteration i (outcomes i) c) as [r tr]. simpl in H1. subst r.
    destruct (IH c1) as [c' ->]. eexists. reflexivity.
Qed.

Lemma requests_of_passes indices :
  requests (flat_map (fun i => snd (iteration i (outcomes i) c0)) indices)
  = indices.
Proof.
  induction indices as [|i rest IH]; simpl; [reflexivity|].
  rewrite requests_app, iteration_requests, IH. reflexivity.
Qed.

Lemma run_trace_by_iteration :
  exists c,
    _test_reqres_rate_limiting outcomes =
    (Returns tt,
     flat_map (fun i => snd (iteration i (outcomes i) c0))
       (seq 0 (Config.max_requests Config.RATE_LIMIT_CONFIG))
     ++ [PrintSummary c]).
Proof.
  unfold _test_reqres_rate_limiting.
  destruct (loop_completes
              (seq 0 (Config.max_requests Config.RATE_LIMIT_CONFIG)) c0)
    as [c Hc].
  fold c0. rewrite Hc. exists c. reflexivity.
Qed.

End Run.




(** A Retry-After that int() cannot read (an HTTP date) leaves the pass
    without any sleep. *)
Example unreadable_retry_after :
  iteration 0 (Returns (rate_limited (Some "Wed, 21 Oct 2015 07:28:00 GMT"))) c0 =
  (Returns {| successful_requests := 0; rate_limited_requests := 1 |},
   [CallRequest 0; PrintWarning 1 ValueError]).
Proof. reflexivity. Qed.

(** int() skips the no-break space that a latin-1 header value can
    carry, and refuses a sign that is separated from its digits. *)
Example int_skips_latin1_space :
  Py.int (String (ascii_of_nat 160) "5") = Some 5
  /\ Py.int (String (ascii_of_nat 28) "5") = None
  /\ Py.int " +1_0 " = Some 10
  /\ Py.int "- 5" = None.
Proof. repeat split; reflexivity. Qed.

(** C3, as stated, fails: after a 429 response without Retry-After the
    pass sleeps the 5 second fallback and goes straight to the next
    request; the minimum inter-request delay is not slept. *)
Lemma delay_skipped_after_429 :
  iteration 0 (Returns (rate_limited None)) c0 =
  (Returns {| successful_requests := 0; rate_limited_requests := 1 |},
   [CallRequest 0; PrintRateLimit 5; CallSleep (inject_Z 5)])
  /\ ~ In (Config.delay_between_requests Config.RATE_LIMIT_CONFIG)
         (sleeps (snd (iteration 0 (Returns (rate_limited None)) c0))).
Proof.
  split; [reflexivity|].
  intros [H|[]]. discriminate H.
Qed.

(** C3, amended. After a pass whose response has a status other than 429
    (a success or any other status) the sleep requested is exactly the
    configured minimum inter-request delay; after a 429 the only sleep,
    if any, is a whole number of seconds (the Retry-After or fallback
    wait) and never the delay; after a request that raised there is no
    sleep. *)
Theorem delay_after_non_429 (i : nat) (out : result Response) (c : counters) :
  (forall response, out = Returns response -> status_code response <> 429 ->
     sleeps (snd (iteration i out c))
     = [Config.delay_between_requests Config.RATE_LIMIT_CONFIG])
  /\ (forall response, out = Returns response -> status_code response = 429 ->
        sleeps (snd (iteration i out c)) = []
        \/ exists w : Z, sleeps (snd (iteration i out c)) = [inject_Z w])
  /\ (forall e, out = Raises e -> sleeps (snd (iteration i out c)) = []).
Proof.
  repeat split.
  - intros response -> Hne. unfold iteration.
    destruct (Z.eqb_spec (status_code response) 429) as [Heq|_]; [contradiction|].
    rewrite sleeps_sleep_then. reflexivity.
  - intros response -> Heq. unfold iteration. rewrite Heq.
    simpl (429 =? 429)%Z. cbv iota.
    destruct (if Py.truthy _ then _ else _) as [w|].
    + right. exists w. rewrite sleeps_sleep_then. reflexivity.
    + left. rewrite handler_trace. reflexivity.
  - intros e ->. unfold iteration. rewrite handler_trace, sleeps_app.
    destruct (is_Exception e); reflexivity.
Qed.

Lemma delay_after_non_429_witness :
  sleeps (snd (iteration 0 (Returns ok) c0))
  = [Config.delay_between_requests Config.RATE_LIMIT_CONFIG].
Proof.
  refine (proj1 (delay_after_non_429 0 (Returns ok) c0) ok eq_refl _).
  discriminate.
Defined.

(** C9. Whatever the responses are, and whichever requests raise an
    Exception instead, the probe returns normally after issuing exactly
    max_requests requests, numbered 0 to max_requests - 1 in order; each
    request that raised has its warning printed. *)
Theorem probe_runs_full_budget (outcomes : nat -> result Response) :
  (forall i e, outcomes i = Raises e -> is_Exception e = true) ->
  exists tr,
    _test_reqres_rate_limiting outcomes = (Returns tt, tr)
    /\ requests tr = seq 0 (Config.max_requests Config.RATE_LIMIT_CONFIG)
    /\ length (requests tr) = Config.max_requests Config.RATE_LIMIT_CONFIG
    /\ (forall i e, (i < Config.max_requests Config.RATE_LIMIT_CONFIG)%nat ->
                    outcomes i = Raises e -> In (PrintWarning (S i) e) tr).
Proof.
  intros Hexc.
  destruct (run_trace_by_iteration outcomes Hexc) as [c Hrun].
  eexists. split; [exact Hrun|].
  assert (Hreq : requests
                   (flat_map (fun i => snd (iteration i (outcomes i) c0))
                      (seq 0 (Config.max_requests Config.RATE_LIMIT_CONFIG))
                    ++ [PrintSummary c])
                 = seq 0 (Config.max_requests Config.RATE_LIMIT_CONFIG)).
  { rewrite requests_app, requests_of_passes. apply app_nil_r. }
  split; [exact Hreq|]. split.
  - rewrite Hreq. apply length_seq.
  - intros i e Hi Hout. apply in_or_app. left.
    apply in_flat_map. exists i. split.
    + apply in_seq. lia.
    + rewrite Hout. apply iteration_logs_exception. eauto.
Qed.

Lemma probe_runs_full_budget_witness :
  exists tr,
    _test_reqres_rate_limiting sample_outcomes = (Returns tt, tr)
    /\ requests tr = seq 0 (Config.max_requests Config.RATE_LIMIT_CONFIG)
    /\ length (requests tr) = Config.max_requests Config.RATE_LIMIT_CONFIG
    /\ (forall i e, (i < Config.max_requests Config.RATE_LIMIT_CONFIG)%nat ->
                    sample_outcomes i = Raises e -> In (PrintWarning (S i) e) tr).
Proof.
  apply probe_runs_full_budget.
  intros i e. unfold sample_outcomes.
  destruct (i mod 7 =? 6)%nat; [intros [= <-]; reflexivity|].
  destruct (i mod 3 =? 2)%nat; discriminate.
Defined.

(** A Ctrl+C during a request is not an Exception: it leaves the loop. *)
Example interrupt_leaves_probe :
  _test_reqres_rate_limiting
    (fun i => if (i =? 2)%nat then Raises KeyboardInterrupt else Returns ok)
  = (Raises KeyboardInterrupt,
     [CallRequest 0; CallSleep (1 # 10); CallRequest 1; CallSleep (1 # 10);
      CallRequest 2]).
Proof. reflexivity. Qed.

End ProbeFacts.

(** ** Orchestrator *)

Module OrchestratorFacts.
Import Orchestrator.

Lemma teardowns_app tr1 tr2 : teardowns (tr1 ++ tr2) = (teardowns tr1 + teardowns tr2)%nat.
Proof. unfold teardowns. rewrite flat_map_app. apply length_app. Qed.

Lemma reports_app tr1 tr2 : reports (tr1 ++ tr2) = reports tr1 ++ reports tr2.
Proof. apply flat_map_app. Qed.

Lemma scenarios_called_app tr1 tr2 :
  scenarios_called (tr1 ++ tr2) = scenarios_called tr1 ++ scenarios_called tr2.
Proof. apply flat_map_app. Qed.

(** The loop itself neither reports nor tears down. *)
Lemma run_scenarios_quiet test_functions : forall k s f m,
  teardowns (snd (run_scenarios k test_functions s f m)) = 0%nat
  /\ reports (snd (run_scenarios k test_functions s f m)) = [].
Proof.
  induction test_functions as [|t rest IH]; intros k s f m; simpl.
  - split; reflexivity.
  - destruct (t m) as [[[]|e] m1].
    + specialize (IH (S k) (s + 1) f m1).
      destruct (run_scenarios (S k) rest (s + 1) f m1) as [[r m2] tr].
      exact IH.
    + destruct (is_Exception e).
      * specialize (IH (S k) s (f + 1) m1).
        destruct (run_scenarios (S k) rest s (f + 1) m1) as [[r m2] tr].
        exact IH.
      * split; reflexivity.
Qed.

(** When the scenarios raise nothing but Exceptions, the loop calls
    every one of them in order and counts what it saw. *)
Lemma run_scenarios_counts test_functions : forall k s f m,
  Forall raises_only_Exception (observe test_functions m) ->
  fst (fst (run_scenarios k test_functions s f m))
  = Returns (s + successes (observe test_functions m),
             f + failures (observe test_functions m))
  /\ scenarios_called (snd (run_scenarios k test_functions s f m))
     = seq k (length test_functions)
  /\ (forall j e, observe test_functions m !! j = Some (Raises e) ->
        In (PrintFailed (k + j) e) (snd (run_scenarios k test_functions s f m))).
Proof.
  unfold successes, failures.
  induction test_functions as [|t rest IH]; intros k s f m; simpl.
  - intros _. rewrite !Z.add_0_r. repeat split. intros j e Hj.
    rewrite lookup_nil in Hj. discriminate.
  - destruct (t m) as [[[]|e] m1]; intros Hobs;
      apply Forall_cons in Hobs as [Hhead Htail].
    + destruct (IH (S k) (s + 1) f m1 Htail) as (Hr & Hc & Hl).
      destruct (run_scenarios (S k) rest (s + 1) f m1) as [[r m2] tr].
      simpl in *. subst r. repeat split.
      * f_equal. f_equal. lia.
      * f_equal. exact Hc.
      * intros [|j] e Hj; simpl in Hj; [discriminate|].
        right. replace (k + S j)%nat with (S k + j)%nat by lia. eauto.
    + simpl in Hhead. rewrite Hhead.
      destruct (IH (S k) s (f + 1) m1 Htail) as (Hr & Hc & Hl).
      destruct (run_scenarios (S k) rest s (f + 1) m1) as [[r m2] tr].
      simpl in *. subst r. repeat split.
      * f_equal. f_equal. lia.
      * f_equal. exact Hc.
      * intros [|j] e' Hj; simpl in Hj.
        -- injection Hj as <-. right. left. f_equal. lia.
        -- right. right. replace (k + S j)%nat with (S k + j)%nat by lia. eauto.
Qed.

Lemma report_trace s f :
  teardowns (snd (report s f)) = 0%nat /\ reports (snd (report s f)) = [(s, f)].
Proof. unfold report. destruct (s + f =? 0)%Z; split; reflexivity. Qed.

Lemma report_calls_nothing s f : scenarios_called (snd (report s f)) = [].
Proof. unfold report. destruct (s + f =? 0)%Z; reflexivity. Qed.

Lemma closes_app tr1 tr2 : closes (tr1 ++ tr2) = closes tr1 ++ closes tr2.
Proof. apply flat_map_app. Qed.

Lemma run_scenarios_closes test_functions : forall k s f m,
  closes (snd (run_scenarios k test_functions s f m)) = [].
Proof.
  induction test_functions as [|t rest IH]; intros k s f m; simpl; [reflexivity|].
  destruct (t m) as [[[]|e] m1].
  - specialize (IH (S k) (s + 1) f m1).
    destruct (run_scenarios (S k) rest (s + 1) f m1) as [[r m2] tr]. exact IH.
  - destruct (is_Exception e); [|reflexivity].
    specialize (IH (S k) s (f + 1) m1).
    destruct (run_scenarios (S k) rest s (f + 1) m1) as [[r m2] tr]. exact IH.
Qed.

Lemma report_closes s f : closes (snd (report s f)) = [].
Proof. unfold report. destruct (s + f =? 0)%Z; reflexivity. Qed.

(** The steps of close_all_sessions, as events of the run. *)
Lemma close_steps steps :
  teardowns (map Close steps) = 0%nat
  /\ reports (map Close steps) = []
  /\ scenarios_called (map Close steps) = []
  /\ closes (map Close steps) = steps.
Proof.
  induction steps as [|step rest (H1 & H2 & H3 & H4)]; [repeat split|].
  repeat split; [exact H1 | exact H2 | exact H3|].
  cbn [map closes flat_map app]. f_equal. exact H4.
Qed.

(** The finally clause in terms of close_all_sessions. *)
Lemma teardown_spec close m :
  teardown close m
  = (fst (fst (Registry.close_all_sessions close m)),
     snd (fst (Registry.close_all_sessions close m)),
     CallCloseAll :: map Close (snd (Registry.close_all_sessions close m))
     ++ match fst (fst (Registry.close_all_sessions close m)) with
        | Returns _ => [PrintSessionsClosed]
        | Raises _ => []
        end).
Proof.
  unfold teardown.
  destruct (Registry.close_all_sessions close m) as [[rc m'] steps]. reflexivity.
Qed.

Lemma teardown_trace close m :
  teardowns (snd (teardown close m)) = 1%nat
  /\ reports (snd (teardown close m)) = []
  /\ scenarios_called (snd (teardown close m)) = []
  /\ closes (snd (teardown close m))
     = snd (Registry.close_all_sessions close m).
Proof.
  rewrite teardown_spec. cbn [snd].
  destruct (close_steps (snd (Registry.close_all_sessions close m)))
    as (H1 & H2 & H3 & H4).
  change (CallCloseAll :: ?l) with ([CallCloseAll] ++ l).
  rewrite !teardowns_app, !reports_app, !scenarios_called_app, !closes_app,
    H1, H2, H3, H4.
  destruct (fst (fst (Registry.close_all_sessions close m)));
    repeat split; cbn; rewrite ?app_nil_r; reflexivity.
Qed.

Lemma teardown_returns close m :
  (forall id e, close id = Raises e -> is_Exception e = true) ->
  fst (fst (teardown close m)) = Returns tt
  /\ Registry._sessions (snd (fst (teardown close m))) = [].
Proof.
  intros Hclose. rewrite teardown_spec. unfold Registry.close_all_sessions.
  destruct (RegistryFacts.close_loop_spec close (Registry._sessions m)
              (Registry.heap m) Hclose) as (h' & steps & -> & _).
  split; reflexivity.
Qed.

Lemma teardown_prints_no_critical close m e :
  ~ In (PrintCritical e) (snd (teardown close m)).
Proof.
  rewrite teardown_spec. cbn [snd]. intros [H|H]; [discriminate H|].
  apply in_app_or in H as [H|H].
  - apply in_map_iff in H as (step & Heq & _). discriminate Heq.
  - destruct (fst (fst (Registry.close_all_sessions close m)));
      [destruct H as [H|[]]; discriminate H | destruct H].
Qed.

(** The run is the try block followed by the finally clause. *)
Lemma run_all_api_tests_ends_in_teardown test_functions close m :
  exists before,
    snd (run_all_api_tests test_functions close m)
    = before ++ snd (teardown close (registry_at_teardown test_functions m))
    /\ snd (fst (run_all_api_tests test_functions close m))
       = snd (fst (teardown close (registry_at_teardown test_functions m)))
    /\ teardowns before = 0%nat /\ closes before = []
    /\ scenarios_called before
       = scenarios_called (snd (run_scenarios 0 test_functions 0 0 m))
    /\ (forall s f,
          fst (fst (run_scenarios 0 test_functions 0 0 m)) = Returns (s, f) ->
          reports before = [(s, f)])
    /\ (forall e,
          fst (fst (run_scenarios 0 test_functions 0 0 m)) = Raises e ->
          reports before = [])
    /\ (forall ev, In ev (snd (run_scenarios 0 test_functions 0 0 m)) ->
                   In ev before).
Proof.
  unfold run_all_api_tests, registry_at_teardown.
  pose proof (run_scenarios_quiet test_functions 0 0 0 m) as [Hq1 Hq2].
  pose proof (run_scenarios_closes test_functions 0 0 0 m) as Hq3.
  destruct (run_scenarios 0 test_functions 0 0 m) as [[r m1] tr0].
  cbn [fst snd] in *.
  destruct (teardown close m1) as [[rc m2] tr3].
  assert (Hout : forall (pending : result unit) (tr2 : list event),
            snd (match rc with
                 | Returns _ => (pending, m2, tr2 ++ tr3)
                 | Raises e => (Raises e, m2, tr2 ++ tr3)
                 end) = tr2 ++ tr3
            /\ snd (fst (match rc with
                         | Returns _ => (pending, m2, tr2 ++ tr3)
                         | Raises e => (Raises e, m2, tr2 ++ tr3)
                         end)) = m2).
  { intros pending tr2. destruct rc; split; reflexivity. }
  destruct r as [[s f]|e].
  - pose proof (report_trace s f) as [Hr1 Hr2].
    pose proof (report_calls_nothing s f) as Hr3.
    pose proof (report_closes s f) as Hr4.
    destruct (report s f) as [[[]|e] trr]; cbn [snd] in Hr1, Hr2, Hr3, Hr4.
    + exists (tr0 ++ trr). destruct (Hout (Returns tt) (tr0 ++ trr)) as [-> ->].
      rewrite teardowns_app, closes_app, scenarios_called_app, reports_app,
        Hq1, Hq2, Hq3, Hr1, Hr2, Hr3, Hr4. cbn [app]. rewrite ?app_nil_r.
      split; [reflexivity|]. split; [reflexivity|]. split; [reflexivity|].
      split; [reflexivity|]. split; [reflexivity|]. split; [|split].
      * intros s' f' Heq. injection Heq as <- <-. reflexivity.
      * intros e Heq. discriminate Heq.
      * intros ev Hev. apply in_or_app. left. exact Hev.
    + destruct (is_Exception e).
      * exists ((tr0 ++ trr) ++ [PrintCritical e]).
        destruct (Hout (Returns tt) ((tr0 ++ trr) ++ [PrintCritical e])) as [-> ->].
        rewrite !teardowns_app, !closes_app, !scenarios_called_app, !reports_app,
          Hq1, Hq2, Hq3, Hr1, Hr2, Hr3, Hr4. cbn. rewrite !app_nil_r.
        split; [reflexivity|]. split; [reflexivity|]. split; [reflexivity|].
        split; [reflexivity|]. split; [reflexivity|]. split; [|split].
        -- intros s' f' Heq. injection Heq as <- <-. reflexivity.
        -- intros e' Heq. discriminate Heq.
        -- intros ev Hev. apply in_or_app. left. apply in_or_app. left. exact Hev.
      * exists (tr0 ++ trr). destruct (Hout (Raises e) (tr0 ++ trr)) as [-> ->].
        rewrite teardowns_app, closes_app, scenarios_called_app, reports_app,
          Hq1, Hq2, Hq3, Hr1, Hr2, Hr3, Hr4. cbn [app]. rewrite ?app_nil_r.
        split; [reflexivity|]. split; [reflexivity|]. split; [reflexivity|].
        split; [reflexivity|]. split; [reflexivity|]. split; [|split].
        -- intros s' f' Heq. injection Heq as <- <-. reflexivity.
        -- intros e' Heq. discriminate Heq.
        -- intros ev Hev. apply in_or_app. left. exact Hev.
  - destruct (is_Exception e).
    + exists (tr0 ++ [PrintCritical e]).
      destruct (Hout (Returns tt) (tr0 ++ [PrintCritical e])) as [-> ->].
      rewrite !teardowns_app, !closes_app, !scenarios_called_app, !reports_app,
        Hq1, Hq2, Hq3. cbn. rewrite !app_nil_r.
      split; [reflexivity|]. split; [reflexivity|]. split; [reflexivity|].
      split; [reflexivity|]. split; [reflexivity|]. split; [|split].
      * intros s' f' Heq. discriminate Heq.
      * intros e' _. reflexivity.
      * intros ev Hev. apply in_or_app. left. exact Hev.
    + exists tr0. destruct (Hout (Raises e) tr0) as [-> ->].
      split; [reflexivity|]. split; [reflexivity|]. split; [exact Hq1|].
      split; [exact Hq3|]. split; [reflexivity|]. split; [|split].
      * intros s' f' Heq. discriminate Heq.
      * intros e' _. exact Hq2.
      * intros ev Hev. exact Hev.
Qed.

(** C5. For every list of scenario functions, registry and behaviour of
    close.  Teardown: close_all_sessions is called exactly once, after
    everything else, whatever the scenarios or the report raise; what the
    call does is what close_all_sessions does on the registry that the
    scenarios left, and the registry afterwards is the one it leaves; so,
    when closes fail only with Exceptions, close is attempted once on
    each Session registered by then, in registration order, and the
    registry ends empty.  Scenarios: when they raise nothing but
    exceptions derived from Exception, every scenario of the list is
    called, in order, each one that raised is printed as failed, and the
    one report printed carries the number of scenarios that returned and
    the number that raised. *)
Theorem scenarios_isolated_teardown_once (test_functions : list scenario)
  (close : nat -> result unit) (m : Registry.manager) :
  let out := run_all_api_tests test_functions close m in
  let tr := snd out in
  let obs := observe test_functions m in
  let at_teardown := registry_at_teardown test_functions m in
  let down := Registry.close_all_sessions close at_teardown in
  teardowns tr = 1%nat
  /\ (exists before,
        tr = before
             ++ CallCloseAll :: map Close (snd down)
             ++ match fst (fst down) with
                | Returns _ => [PrintSessionsClosed]
                | Raises _ => []
                end
        /\ teardowns before = 0%nat /\ closes before = [])
  /\ snd (fst out) = snd (fst down)
  /\ ((forall id e, close id = Raises e -> is_Exception e = true) ->
      Registry.close_attempts (closes tr)
      = map fst (Registry._sessions at_teardown)
      /\ Registry._sessions (snd (fst out)) = [])
  /\ (Forall raises_only_Exception obs ->
      scenarios_called tr = seq 0 (length test_functions)
      /\ (forall j e, obs !! j = Some (Raises e) -> In (PrintFailed j e) tr)
      /\ reports tr = [(successes obs, failures obs)]).
Proof.
  intros out tr obs at_teardown down. subst out tr obs at_teardown down.
  destruct (run_all_api_tests_ends_in_teardown test_functions close m)
    as (before & Htr & Hm & Hb1 & Hb2 & Hb3 & Hb4 & _ & Hb6).
  destruct (teardown_trace close (registry_at_teardown test_functions m))
    as (Ht1 & Ht2 & Ht3 & Ht4).
  rewrite Htr, Hm. split; [|split; [|split; [|split]]].
  - rewrite teardowns_app, Hb1, Ht1. reflexivity.
  - exists before. rewrite teardown_spec. cbn [snd]. auto.
  - rewrite teardown_spec. reflexivity.
  - intros Hclose. rewrite closes_app, Hb2, Ht4, teardown_spec. cbn [app fst snd].
    unfold Registry.close_all_sessions.
    destruct (RegistryFacts.close_loop_spec close
                (Registry._sessions (registry_at_teardown test_functions m))
                (Registry.heap (registry_at_teardown test_functions m)) Hclose)
      as (h' & steps & -> & Hatt & _).
    split; [exact Hatt | reflexivity].
  - intros Hobs.
    destruct (run_scenarios_counts test_functions 0 0 0 m Hobs) as (Hr & Hc & Hl).
    rewrite scenarios_called_app, reports_app, Hb3, Ht2, Ht3, Hc,
      (Hb4 _ _ Hr), !app_nil_r.
    split; [reflexivity|]. split; [|reflexivity].
    intros j e Hj. apply in_or_app. left. apply Hb6. exact (Hl j e Hj).
Qed.

Lemma scenarios_isolated_teardown_once_witness :
  let out := run_all_api_tests three_scenarios close_ok Registry.initial in
  teardowns (snd out) = 1%nat
  /\ Registry.close_attempts (closes (snd out)) = ["jsonplaceholder"; "reqres"]
  /\ Registry._sessions (snd (fst out)) = []
  /\ scenarios_called (snd out) = [0; 1; 2]%nat
  /\ In (PrintFailed 1 AssertionError) (snd out)
  /\ reports (snd out) = [(2, 1)].
Proof.
  intros out.
  pose proof (scenarios_isolated_teardown_once three_scenarios close_ok
                Registry.initial) as (Hdown & _ & _ & Hclose & Hrest).
  destruct Hclose as (Hattempts & Hempty); [discriminate|].
  destruct Hrest as (Hcalled & Hfailed & Hreport).
  { repeat constructor. }
  split; [exact Hdown|]. split; [exact Hattempts|]. split; [exact Hempty|].
  split; [exact Hcalled|]. split.
  - exact (Hfailed 1%nat AssertionError eq_refl).
  - exact Hreport.
Defined.

(** With no scenario at all the success rate divides by zero: the report
    raises, the critical-error handler prints it, teardown still runs. *)
Example empty_list_report_raises :
  run_all_api_tests [] close_ok Registry.initial =
  (Returns tt, Registry.initial,
   [PrintReport 0 0; PrintCritical ZeroDivisionError;
    CallCloseAll; PrintSessionsClosed]).
Proof. reflexivity. Qed.

(** A Ctrl+C inside a scenario is not an Exception: the remaining
    scenarios are not run and no report is printed, teardown runs and
    the interrupt goes on to the caller. *)
Example interrupt_in_scenario :
  let '(r, _, tr) :=
    run_all_api_tests
      [passing_scenario "jsonplaceholder";
       (fun m => (Raises KeyboardInterrupt, m));
       passing_scenario "reqres"] close_ok Registry.initial in
  r = Raises KeyboardInterrupt
  /\ tr = [CallScenario 0; CallScenario 1; CallCloseAll;
           Close (Registry.CallClose "jsonplaceholder");
           Close (Registry.PrintClosed "jsonplaceholder");
           PrintSessionsClosed].
Proof. vm_compute. split; reflexivity. Qed.

(** run_all_api_tests returns normally however many scenarios failed. *)
Lemma run_all_api_tests_returns test_functions close m :
  Forall raises_only_Exception (observe test_functions m) ->
  (forall id e, close id = Raises e -> is_Exception e = true) ->
  fst (fst (run_all_api_tests test_functions close m)) = Returns tt.
Proof.
  intros Hobs Hclose. unfold run_all_api_tests.
  pose proof (run_scenarios_counts test_functions 0 0 0 m Hobs) as (Hr & _ & _).
  destruct (run_scenarios 0 test_functions 0 0 m) as [[r m1] tr0].
  simpl in Hr. subst r. rewrite teardown_spec.
  destruct (RegistryFacts.close_all_sessions_returns close m1 Hclose)
    as (m2 & ctr & ->).
  destruct (report _ _) as [[[]|e] trr] eqn:Hrep.
  - reflexivity.
  - unfold report in Hrep. destruct (_ =? 0)%Z; [|discriminate].
    injection Hrep as <- _. reflexivity.
Qed.

End OrchestratorFacts.

(** ** Schema validation *)

Module SchemaFacts.
Import Schema.

(** A valid document passes the type, required and additionalProperties
    keywords of the schema. *)
Lemma valid_components type properties required additionalProperties minimum minLength d :
  valid (MkSchema type properties required additionalProperties minimum minLength) d
  = true ->
  check_type type d = true
  /\ check_required required d = true
  /\ check_additional additionalProperties properties d = true.
Proof.
  cbn [valid]. intros H.
  repeat (apply andb_prop in H as [H ?]). auto.
Qed.

Lemma check_required_missing required m k :
  In k required -> m !! k = None -> check_required required (JObject m) = false.
Proof.
  intros Hin Hnone. unfold check_required.
  induction required as [|k' rest IH]; [destruct Hin|].
  cbn [forallb]. destruct Hin as [->|Hin].
  - rewrite Hnone. rewrite bool_decide_eq_false_2; [reflexivity|].
    intros [v Hv]. discriminate.
  - rewrite (IH Hin). apply andb_false_r.
Qed.

Lemma declared_In properties k :
  declared properties k = true <-> In k (map fst properties).
Proof.
  unfold declared. rewrite existsb_exists. split.
  - intros (x & Hin & Heq). apply String.eqb_eq in Heq. subst. exact Hin.
  - intros Hin. exists k. split; [exact Hin | apply String.eqb_refl].
Qed.

Lemma check_additional_extra properties m k :
  ~ In k (map fst properties) -> is_Some (m !! k) ->
  check_additional false properties (JObject m) = false.
Proof.
  intros Hundeclared [v Hv]. unfold check_additional. cbn [orb].
  apply not_true_iff_false. intros Hall.
  rewrite forallb_forall in Hall.
  apply Hundeclared, declared_In, Hall.
  apply (in_map fst _ (k, v)).
  apply list_elem_of_In, elem_of_map_to_list. exact Hv.
Qed.

Lemma post_members u i t b :
  post u i t b !! "userId" = Some (JInt u)
  /\ post u i t b !! "id" = Some (JInt i)
  /\ post u i t b !! "title" = Some (JString t)
  /\ post u i t b !! "body" = Some (JString b).
Proof. repeat split; reflexivity. Qed.

Lemma post_keys_declared u i t b :
  forallb
    (declared [("userId", scalar TInteger (Some 1) None);
               ("id", scalar TInteger (Some 1) None);
               ("title", scalar TString None (Some 1%nat));
               ("body", scalar TString None (Some 1%nat))])
    (map fst (map_to_list (post u i t b))) = true.
Proof. vm_compute. reflexivity. Qed.

Lemma nonempty_length (s : string) : s <> "" -> (1 <=? String.length s)%nat = true.
Proof. destruct s; [contradiction | reflexivity]. Qed.

Lemma valid_post u i t b :
  1 <= u -> 1 <= i -> t <> "" -> b <> "" ->
  valid JSONPLACEHOLDER_POST_SCHEMA (JObject (post u i t b)) = true.
Proof.
  intros Hu Hi Ht Hb.
  destruct (post_members u i t b) as (Mu & Mi & Mt & Mb).
  unfold JSONPLACEHOLDER_POST_SCHEMA.
  cbn -[Z.leb Nat.leb map_to_list post declared scalar].
  rewrite post_keys_declared, Mu, Mi, Mt, Mb.
  cbn -[Z.leb Nat.leb].
  rewrite (nonempty_length t Ht), (nonempty_length b Hb).
  apply Z.leb_le in Hu, Hi. rewrite Hu, Hi. reflexivity.
Qed.

(** C7. Against the JSONPlaceholder post schema: an object that lacks
    one of userId, id, title, body is rejected (and so is any document
    that is not an object); the object with exactly these four members,
    userId and id integers of at least 1, title and body non-empty
    strings, is accepted; an object that carries a member outside these
    four is rejected. *)
Theorem post_schema_verdicts :
  (forall m k, In k ["userId"; "id"; "title"; "body"] -> m !! k = None ->
     validate_json_schema (JObject m) JSONPLACEHOLDER_POST_SCHEMA
     = Raises ValidationError)
  /\ (forall d, (forall m, d <> JObject m) ->
        validate_json_schema d JSONPLACEHOLDER_POST_SCHEMA = Raises ValidationError)
  /\ (forall userId id title body,
        1 <= userId -> 1 <= id -> title <> "" -> body <> "" ->
        validate_json_schema (JObject (post userId id title body))
          JSONPLACEHOLDER_POST_SCHEMA = Returns tt)
  /\ (forall m k, ~ In k ["userId"; "id"; "title"; "body"] -> is_Some (m !! k) ->
        validate_json_schema (JObject m) JSONPLACEHOLDER_POST_SCHEMA
        = Raises ValidationError).
Proof.
  unfold validate_json_schema. repeat split.
  - intros m k Hin Hnone.
    destruct (valid _ _) eqn:Hv; [|reflexivity].
    apply valid_components in Hv as (_ & Hreq & _).
    rewrite (check_required_missing _ m k Hin Hnone) in Hreq. discriminate.
  - intros d Hd.
    destruct (valid _ _) eqn:Hv; [|reflexivity].
    apply valid_components in Hv as (Hty & _ & _).
    destruct d; try discriminate. destruct (Hd m). reflexivity.
  - intros u i t b Hu Hi Ht Hb. rewrite valid_post; auto.
  - intros m k Hk Hsome.
    destruct (valid _ _) eqn:Hv; [|reflexivity].
    apply valid_components in Hv as (_ & _ & Hadd).
    rewrite (check_additional_extra _ m k) in Hadd; [discriminate | exact Hk | exact Hsome].
Qed.

Lemma post_schema_verdicts_witness :
  validate_json_schema (JObject (delete "body" (post 1 1 "t" "b")))
    JSONPLACEHOLDER_POST_SCHEMA = Raises ValidationError
  /\ validate_json_schema (JObject (post 1 101 "Test Post" "Contenido"))
       JSONPLACEHOLDER_POST_SCHEMA = Returns tt
  /\ validate_json_schema (JObject (<["extra" := JNull]> (post 1 1 "t" "b")))
       JSONPLACEHOLDER_POST_SCHEMA = Raises ValidationError.
Proof.
  destruct post_schema_verdicts as (Hmissing & _ & Hpass & Hextra).
  split; [|split].
  - apply (Hmissing _ "body"); [simpl; tauto | reflexivity].
  - apply Hpass; [lia | lia | discriminate | discriminate].
  - apply (Hextra _ "extra").
    + simpl. intros [H|[H|[H|[H|[]]]]]; discriminate H.
    + exists JNull. reflexivity.
Defined.

(** A document of the right shape with wrong member types or values
    (config.INVALID_PAYLOADS["post_invalid_types"] completed with an id,
    a zero userId, an empty title) is rejected as well. *)
Example wrong_types_rejected :
  valid JSONPLACEHOLDER_POST_SCHEMA
    (JObject (<["userId" := JString "string_instead_of_int"]>
                (<["id" := JInt 1]>
                   (<["title" := JInt 12345]>
                      (<["body" := JNull]> ∅))))) = false
  /\ valid JSONPLACEHOLDER_POST_SCHEMA (JObject (post 0 1 "t" "b")) = false
  /\ valid JSONPLACEHOLDER_POST_SCHEMA (JObject (post 1 1 "" "b")) = false.
Proof. vm_compute. repeat split. Qed.

End SchemaFacts.

(** * Further properties *)

(** ** Session registry: identities, headers, cleanup *)

Module RegistryMore.
Import Registry Observe.

Lemma initial_injective : injective initial.
Proof. intros n1 n2 id H. discriminate. Qed.

(** A call keeps the registry injective: a new object gets an identity
    that no registered name has. *)
Lemma get_session_injective fresh_session name hdrs m id m' :
  registered_alive m -> injective m ->
  get_session fresh_session name hdrs m = (id, m') ->
  injective m'.
Proof.
  intros Halive Hinj. unfold get_session, _create_session.
  destruct (dict_get name (_sessions m)) as [i|] eqn:Hget.
  - intros [= <- <-]. exact Hinj.
  - cbn [_sessions heap]. intros [= <- <-]. intros n1 n2 i.
    cbn [_sessions]. rewrite !RegistryFacts.dict_get_app.
    destruct (dict_get n1 (_sessions m)) as [i1|] eqn:H1;
      destruct (dict_get n2 (_sessions m)) as [i2|] eqn:H2.
    + intros [= <-] [= <-]. eapply Hinj; eauto.
    + intros [= E1]. destruct (String.eqb n2 name); [|discriminate].
      intros [= E2]. apply Halive in H1. subst.
      apply is_fresh in H1. destruct H1.
    + destruct (String.eqb n1 name); [|discriminate].
      intros [= E1] [= E2]. apply Halive in H2. subst.
      apply is_fresh in H2. destruct H2.
    + destruct (String.eqb_spec n1 name); [|discriminate].
      destruct (String.eqb_spec n2 name); [|discriminate]. congruence.
Qed.

Lemma get_sessions_injective fresh_session calls : forall m ids m',
  registered_alive m -> injective m ->
  get_sessions fresh_session calls m = (ids, m') ->
  injective m'.
Proof.
  induction calls as [|[name hdrs] rest IH]; intros m ids m' Halive Hinj; simpl.
  - intros [= <- <-]. exact Hinj.
  - destruct (get_session fresh_session name hdrs m) as [id m1] eqn:H1.
    destruct (get_sessions fresh_session rest m1) as [ids' m2] eqn:H2.
    intros [= <- <-].
    destruct (RegistryFacts.get_session_step _ _ _ _ _ _ Halive H1) as (Halive1 & _).
    apply (IH m1 ids' m2 Halive1); [|exact H2].
    exact (get_session_injective _ _ _ _ _ _ Halive Hinj H1).
Qed.

(** X1. From the registry of a fresh process, in every sequence of
    get_session calls, two calls with different names return different
    Session objects. *)
Theorem distinct_names_distinct_sessions (fresh_session : Session)
  (calls : list (string * option (gmap string string))) :
  let ids := fst (get_sessions fresh_session calls initial) in
  forall i j ni nj hi hj a b,
    calls !! i = Some (ni, hi) -> calls !! j = Some (nj, hj) ->
    ids !! i = Some a -> ids !! j = Some b ->
    ni <> nj -> a <> b.
Proof.
  intros ids i j ni nj hi hj a b Hi Hj Ha Hb Hne Heq. subst ids.
  destruct (get_sessions fresh_session calls initial) as [ids0 m0] eqn:Hrun.
  simpl in Ha, Hb.
  pose proof (get_sessions_injective _ _ _ _ _
                (RegistryFacts.initial_alive) initial_injective Hrun) as Hinj.
  destruct (RegistryFacts.get_sessions_spec fresh_session calls _ _ _
              (RegistryFacts.initial_alive) Hrun) as (_ & _ & Hcalls & _).
  destruct (Hcalls _ _ _ Hi) as (a' & Ha' & Hra).
  destruct (Hcalls _ _ _ Hj) as (b' & Hb' & Hrb).
  apply Hne. apply (Hinj ni nj a); congruence.
Qed.

Lemma distinct_names_distinct_sessions_witness :
  nth 0 (fst (get_sessions library_session sample_calls initial)) 0%nat
  <> nth 1 (fst (get_sessions library_session sample_calls initial)) 0%nat.
Proof.
  exact (distinct_names_distinct_sessions library_session sample_calls
           0%nat 1%nat "jsonplaceholder" "reqres" None (Some Config.REQRES_HEADERS)
           0%nat 1%nat eq_refl eq_refl eq_refl eq_refl ltac:(discriminate)).
Defined.

(** X2. A call for a name that is not registered constructs an object
    whose identity was not in use, registers it last, and leaves every
    existing Session object and registration as it was. *)
Theorem get_session_creates_fresh (fresh_session : Session) (name : string)
  (hdrs : option (gmap string string)) (m : manager) :
  dict_get name (_sessions m) = None ->
  let id := fst (get_session fresh_session name hdrs m) in
  let m' := snd (get_session fresh_session name hdrs m) in
  (id ∉ dom (heap m))
  /\ _sessions m' = _sessions m ++ [(name, id)]
  /\ (forall j, j ∈ dom (heap m) -> heap m' !! j = heap m !! j)
  /\ dom (heap m') = dom (heap m) ∪ {[id]}.
Proof.
  intros Hnone id m'. subst id m'. unfold get_session, _create_session.
  rewrite Hnone. cbn [fst snd _sessions heap].
  pose proof (is_fresh (dom (heap m))) as Hfresh.
  repeat split.
  - exact Hfresh.
  - intros j Hj. apply lookup_insert_ne. intros <-. contradiction.
  - rewrite dom_insert_L. set_solver.
Qed.

Lemma get_session_creates_fresh_witness :
  let id := fst (get_session library_session "default" None sample_manager) in
  id ∉ dom (heap sample_manager).
Proof.
  exact (proj1 (get_session_creates_fresh library_session "default" None
                  sample_manager eq_refl)).
Defined.

Lemma names_spec (h : gmap string string) (k : string) :
  names h k = true <-> exists k' v, h !! k' = Some v /\ lower k' = lower k.
Proof.
  unfold names. rewrite existsb_exists. split.
  - intros ([k' v] & Hin & Heq). exists k', v. split.
    + apply elem_of_map_to_list. apply list_elem_of_In. exact Hin.
    + apply String.eqb_eq. exact Heq.
  - intros (k' & v & Hk & Heq). exists (k', v). split.
    + apply list_elem_of_In. apply elem_of_map_to_list. exact Hk.
    + apply String.eqb_eq. exact Heq.
Qed.

(** An entry of the headers after [session.headers.update(h)]. *)
Lemma update_headers_lookup (h current : gmap string string) (k : string) :
  update_headers h current !! k
  = match h !! k with
    | Some v => Some v
    | None => if names h k then None else current !! k
    end.
Proof.
  unfold update_headers. destruct (h !! k) as [v|] eqn:Hk.
  - apply lookup_union_Some_l. exact Hk.
  - rewrite lookup_union_r by exact Hk.
    destruct (names h k) eqn:Hn.
    + apply map_lookup_filter_None. right. intros x _. cbn. rewrite Hn. discriminate.
    + destruct (current !! k) as [x|] eqn:Hc.
      * apply map_lookup_filter_Some. split; [exact Hc | exact Hn].
      * apply map_lookup_filter_None. left. exact Hc.
Qed.

(** X3. Headers of a newly created Session, entry by entry (an entry is
    a header under the name it was set with; requests finds a header
    whatever the case of its name, and setting one replaces the entry
    whose name differs at most in case).  Without custom headers (no
    argument, or an empty dict) the Session carries the two default
    headers, the default User-Agent replacing the library's, and every
    header of the library that is not one of these two under another
    spelling.  With non-empty custom headers, no two of which differ in
    case only, the defaults are not merged in: the entry under a name is
    the custom header of that name; there is none when the custom
    headers have the name in another spelling (the library's header of
    that name is replaced); otherwise it is what the library put
    there. *)
Theorem created_session_headers (fresh_session : Session)
  (hdrs : option (gmap string string)) (m : manager) :
  exists s,
    heap (snd (_create_session fresh_session hdrs m))
      !! fst (_create_session fresh_session hdrs m) = Some s
    /\ ((hdrs = None \/ hdrs = Some ∅) ->
          headers s !! "Content-Type" = Some "application/json"
          /\ headers s !! "User-Agent" = Some "QA-Automation-Tests/1.0"
          /\ (forall k, lower k <> "content-type" -> lower k <> "user-agent" ->
                headers s !! k = headers fresh_session !! k))
    /\ (forall h, hdrs = Some h -> h <> ∅ -> case_distinct h ->
          forall k,
            headers s !! k = match h !! k with
                             | Some v => Some v
                             | None => if names h k then None
                                       else headers fresh_session !! k
                             end).
Proof.
  unfold _create_session. cbn [fst snd heap].
  eexists. split; [apply lookup_insert_eq|]. cbn [headers]. split.
  - intros Hdef.
    assert (Heff : headers_or_default hdrs = Config.DEFAULT_HEADERS).
    { destruct Hdef as [-> | ->]; [reflexivity|].
      unfold headers_or_default. destruct (decide (∅ = ∅)); congruence. }
    rewrite Heff. repeat split.
    + rewrite update_headers_lookup. reflexivity.
    + rewrite update_headers_lookup. reflexivity.
    + intros k Hk1 Hk2. rewrite update_headers_lookup.
      destruct (names Config.DEFAULT_HEADERS k) eqn:Hn.
      * apply names_spec in Hn as (k' & v & Hk' & Heq).
        unfold Config.DEFAULT_HEADERS in Hk'.
        destruct (String.eqb_spec k' "Content-Type") as [->|N1];
          [exfalso; apply Hk1; rewrite <- Heq; reflexivity|].
        destruct (String.eqb_spec k' "User-Agent") as [->|N2];
          [exfalso; apply Hk2; rewrite <- Heq; reflexivity|].
        rewrite !lookup_insert_ne in Hk' by congruence.
        rewrite lookup_empty in Hk'. discriminate.
      * destruct (Config.DEFAULT_HEADERS !! k) as [v|] eqn:Hk; [|reflexivity].
        assert (Hn' : names Config.DEFAULT_HEADERS k = true)
          by (apply names_spec; eauto).
        congruence.
  - intros h -> Hne _ k. unfold headers_or_default.
    destruct (decide (h = ∅)); [contradiction|].
    apply update_headers_lookup.
Qed.

Lemma created_session_headers_witness :
  exists s,
    heap (snd (_create_session library_session (Some lowercase_agent) initial))
      !! fst (_create_session library_session (Some lowercase_agent) initial)
    = Some s
    /\ headers s !! "user-agent" = Some "probe/2.0"
    /\ headers s !! "User-Agent" = None
    /\ headers s !! "Content-Type" = None.
Proof.
  destruct (created_session_headers library_session (Some lowercase_agent) initial)
    as (s & Hs & _ & Hcustom).
  exists s. split; [exact Hs|].
  assert (Hd : case_distinct lowercase_agent).
  { intros k1 k2 [v1 H1] [v2 H2] _. unfold lowercase_agent in *.
    destruct (String.eqb_spec k1 "user-agent") as [->|N1];
      [|rewrite lookup_insert_ne, lookup_empty in H1 by congruence; discriminate].
    destruct (String.eqb_spec k2 "user-agent") as [->|N2];
      [reflexivity|].
    rewrite lookup_insert_ne, lookup_empty in H2 by congruence. discriminate. }
  assert (Hne : lowercase_agent <> ∅).
  { intros Heq. assert (H : lowercase_agent !! "user-agent" = None)
      by (rewrite Heq; apply lookup_empty). discriminate H. }
  pose proof (Hcustom lowercase_agent eq_refl Hne Hd) as Hk.
  split; [exact (Hk "user-agent")|]. split.
  - exact (Hk "User-Agent").
  - exact (Hk "Content-Type").
Defined.

Lemma close_loop_interrupted close pre n id post e : forall h,
  Forall (fun item => raises_only_Exception (close (snd item))) pre ->
  close id = Raises e -> is_Exception e = false ->
  exists h' tr,
    close_loop close (pre ++ (n, id) :: post) h = (Raises e, h', tr)
    /\ close_attempts tr = map fst pre ++ [n].
Proof.
  intros h Hpre Hc He. revert h.
  induction Hpre as [|[n0 i0] pre Hhead Hpre IH]; intros h; cbn [app close_loop].
  - rewrite Hc, He. eexists _, _. split; reflexivity.
  - cbn [snd] in Hhead. destruct (close i0) as [[]|e0] eqn:Hc0.
    + destruct (IH h) as (h' & tr & -> & Hatt).
      eexists _, _. split; [reflexivity|]. cbn. f_equal. exact Hatt.
    + cbn in Hhead. rewrite Hhead.
      destruct (IH h) as (h' & tr & -> & Hatt).
      eexists _, _. split; [reflexivity|]. cbn. f_equal. exact Hatt.
Qed.

(** X5. When the close of one Session raises something that is not an
    Exception (a Ctrl+C during cleanup), close_all_sessions stops there:
    the exception leaves the call, the Sessions registered after it are
    not closed, and the registry is not cleared. *)
Theorem close_all_sessions_interrupted (close : nat -> result unit) (m : manager)
  (pre post : list (string * nat)) (n : string) (id : nat) (e : exn) :
  _sessions m = pre ++ (n, id) :: post ->
  Forall (fun item => raises_only_Exception (close (snd item))) pre ->
  close id = Raises e -> is_Exception e = false ->
  exists m' tr,
    close_all_sessions close m = (Raises e, m', tr)
    /\ close_attempts tr = map fst pre ++ [n]
    /\ _sessions m' = _sessions m.
Proof.
  intros Hs Hpre Hc He. unfold close_all_sessions. rewrite Hs.
  destruct (close_loop_interrupted close pre n id post e (heap m) Hpre Hc He)
    as (h' & tr & -> & Hatt).
  eexists _, _. split; [reflexivity|]. split; [exact Hatt | reflexivity].
Qed.

Lemma close_all_sessions_interrupted_witness :
  exists m' tr,
    close_all_sessions
      (fun id => if (id =? 0)%nat then Raises KeyboardInterrupt else Returns tt)
      sample_manager = (Raises KeyboardInterrupt, m', tr)
    /\ close_attempts tr = ["jsonplaceholder"]
    /\ _sessions m' = _sessions sample_manager.
Proof.
  exact (close_all_sessions_interrupted
           (fun id => if (id =? 0)%nat then Raises KeyboardInterrupt else Returns tt)
           sample_manager [] [("reqres", 1%nat)] "jsonplaceholder" 0%nat
           KeyboardInterrupt eq_refl (List.Forall_nil _) eq_refl eq_refl).
Defined.

End RegistryMore.

(** ** Orchestrator: what leaves run_all_api_tests *)

Module OrchestratorMore.
Import Orchestrator Observe.

(** Only something that is not an Exception leaves the scenario loop. *)
Lemma run_scenarios_raises test_functions : forall k s f m e,
  fst (fst (run_scenarios k test_functions s f m)) = Raises e ->
  is_Exception e = false.
Proof.
  induction test_functions as [|t rest IH]; intros k s f m e; cbn [run_scenarios].
  - discriminate.
  - destruct (t m) as [[[]|e0] m1].
    + specialize (IH (S k) (s + 1) f m1 e).
      destruct (run_scenarios (S k) rest (s + 1) f m1) as [[r m2] tr]. exact IH.
    + destruct (is_Exception e0) eqn:He0.
      * specialize (IH (S k) s (f + 1) m1 e).
        destruct (run_scenarios (S k) rest s (f + 1) m1) as [[r m2] tr]. exact IH.
      * cbn. intros [= <-]. exact He0.
Qed.

Lemma report_raises s f e : fst (report s f) = Raises e -> is_Exception e = true.
Proof.
  unfold report. destruct (s + f =? 0)%Z; [|discriminate].
  intros [= <-]. reflexivity.
Qed.

(** X6. Whatever the scenario functions do, also when one of them is
    interrupted, and as long as closing a Session fails only with
    Exceptions: after run_all_api_tests the registry holds no session, and
    run_all_api_tests itself never raises an Exception; it returns, or lets
    through the non-Exception (Ctrl+C, SystemExit) that stopped a
    scenario. *)
Theorem run_all_api_tests_clears_registry (test_functions : list scenario)
  (close : nat -> result unit) (m : Registry.manager) :
  (forall id e, close id = Raises e -> is_Exception e = true) ->
  Registry._sessions (snd (fst (run_all_api_tests test_functions close m))) = []
  /\ match fst (fst (run_all_api_tests test_functions close m)) with
     | Returns _ => True
     | Raises e => is_Exception e = false
     end.
Proof.
  intros Hclose. unfold run_all_api_tests.
  pose proof (run_scenarios_raises test_functions 0 0 0 m) as Hraise.
  destruct (run_scenarios 0 test_functions 0 0 m) as [[r m1] tr0].
  cbn [fst] in Hraise.
  destruct (OrchestratorFacts.teardown_returns close m1 Hclose) as [Hrc Hempty].
  destruct (teardown close m1) as [[rc m2] tr3]. cbn [fst snd] in Hrc, Hempty.
  subst rc.
  destruct r as [[s f]|e].
  - pose proof (report_raises s f) as Hrep.
    destruct (report s f) as [[[]|e] trr]; cbn [fst] in Hrep.
    + split; [exact Hempty | exact I].
    + rewrite (Hrep e eq_refl). split; [exact Hempty | exact I].
  - rewrite (Hraise e eq_refl). split; [exact Hempty|]. cbn. auto.
Qed.

Lemma run_all_api_tests_clears_registry_witness :
  Registry._sessions
    (snd (fst (run_all_api_tests three_scenarios Registry.first_close_fails
                 Registry.initial))) = []
  /\ match fst (fst (run_all_api_tests three_scenarios Registry.first_close_fails
                       Registry.initial)) with
     | Returns _ => True
     | Raises e => is_Exception e = false
     end.
Proof.
  apply run_all_api_tests_clears_registry.
  intros id e. unfold Registry.first_close_fails.
  destruct (id =? 0)%nat; [intros [= <-]; reflexivity | discriminate].
Defined.

Lemma run_scenarios_interrupted (pre : list scenario) (t : scenario)
  (post : list scenario) (e : exn) : forall k s f m,
  Forall raises_only_Exception (observe pre m) ->
  fst (t (state_after pre m)) = Raises e -> is_Exception e = false ->
  exists tr,
    run_scenarios k (pre ++ t :: post) s f m
    = (Raises e, snd (t (state_after pre m)), tr)
    /\ scenarios_called tr = seq k (S (length pre)).
Proof.
  induction pre as [|t0 pre IH]; intros k s f m Hobs Ht He;
    cbn [app run_scenarios observe state_after] in *.
  - destruct (t m) as [r m1]. cbn [fst snd] in *. subst r. rewrite He.
    eexists. split; reflexivity.
  - destruct (t0 m) as [[[]|e0] m1]; cbn [snd] in *;
      apply Forall_cons in Hobs as [Hhead Htail].
    + destruct (IH (S k) (s + 1) f m1 Htail Ht He) as (tr & -> & Hc).
      eexists. split; [reflexivity|]. cbn. f_equal. exact Hc.
    + cbn in Hhead. rewrite Hhead.
      destruct (IH (S k) s (f + 1) m1 Htail Ht He) as (tr & -> & Hc).
      eexists. split; [reflexivity|]. cbn. f_equal. exact Hc.
Qed.

(** X7. When a scenario raises something that is not an Exception (it is
    interrupted) after scenarios that returned or failed normally, the
    scenarios after it are never called, no report is printed, the
    sessions are still torn down, and the same exception leaves
    run_all_api_tests. *)
Theorem interrupt_stops_the_list (pre post : list scenario) (t : scenario)
  (close : nat -> result unit) (m : Registry.manager) (e : exn) :
  Forall raises_only_Exception (observe pre m) ->
  fst (t (state_after pre m)) = Raises e -> is_Exception e = false ->
  (forall id e', close id = Raises e' -> is_Exception e' = true) ->
  let out := run_all_api_tests (pre ++ t :: post) close m in
  fst (fst out) = Raises e
  /\ scenarios_called (snd out) = seq 0 (S (length pre))
  /\ reports (snd out) = []
  /\ teardowns (snd out) = 1%nat.
Proof.
  intros Hobs Ht He Hclose out. subst out. unfold run_all_api_tests.
  destruct (run_scenarios_interrupted pre t post e 0 0 0 m Hobs Ht He)
    as (tr0 & Hrun & Hcalled).
  pose proof (OrchestratorFacts.run_scenarios_quiet (pre ++ t :: post) 0 0 0 m)
    as [Hq1 Hq2].
  rewrite Hrun in Hq1, Hq2. rewrite Hrun. cbn [fst snd] in *. rewrite He.
  destruct (OrchestratorFacts.teardown_returns close
              (snd (t (state_after pre m))) Hclose) as [Hrc _].
  destruct (OrchestratorFacts.teardown_trace close (snd (t (state_after pre m))))
    as (Ht1 & Ht2 & Ht3 & _).
  destruct (teardown close (snd (t (state_after pre m)))) as [[rc m2] tr3].
  cbn [fst snd] in Hrc, Ht1, Ht2, Ht3. subst rc. cbn [fst snd].
  rewrite OrchestratorFacts.scenarios_called_app, OrchestratorFacts.reports_app,
    OrchestratorFacts.teardowns_app, Hcalled, Hq1, Hq2, Ht1, Ht2, Ht3.
  rewrite app_nil_r. auto.
Qed.

Lemma interrupt_stops_the_list_witness :
  let out :=
    run_all_api_tests
      ([passing_scenario "jsonplaceholder"]
       ++ (fun m => (Raises KeyboardInterrupt, m))
       :: [passing_scenario "reqres"]) close_ok Registry.initial in
  fst (fst out) = Raises KeyboardInterrupt
  /\ scenarios_called (snd out) = seq 0 2
  /\ reports (snd out) = []
  /\ teardowns (snd out) = 1%nat.
Proof.
  apply (interrupt_stops_the_list [passing_scenario "jsonplaceholder"]
           [passing_scenario "reqres"] (fun m => (Raises KeyboardInterrupt, m))
           close_ok Registry.initial KeyboardInterrupt).
  - repeat constructor.
  - reflexivity.
  - reflexivity.
  - intros id e'. discriminate.
Defined.

End OrchestratorMore.

(** ** Rate-limit probe: counters, pacing, unusable Retry-After *)

Module ProbeMore.
Import Probe Observe.

Lemma count_status_cons code outcomes i rest :
  count_status code outcomes (i :: rest)
  = Z.b2z (status_is code (outcomes i)) + count_status code outcomes rest.
Proof.
  unfold count_status. cbn [List.filter].
  destruct (status_is code (outcomes i)); cbn [length Z.b2z]; lia.
Qed.

(** What one pass adds to the counters. *)
Lemma iteration_counts i out c :
  (forall e, out = Raises e -> is_Exception e = true) ->
  fst (iteration i out c)
  = Returns {| successful_requests :=
                 successful_requests c + Z.b2z (status_is 200 out);
               rate_limited_requests :=
                 rate_limited_requests c + Z.b2z (status_is 429 out) |}.
Proof.
  intros H. unfold iteration, status_is. destruct out as [response|e].
  - destruct (Z.eqb_spec (status_code response) 429) as [E|E].
    + rewrite E. cbn [Z.eqb Pos.eqb Z.b2z]. rewrite Z.add_0_r.
      destruct (if Py.truthy _ then _ else _).
      * apply ProbeFacts.sleep_then_returns.
      * apply ProbeFacts.handler_returns. reflexivity.
    + rewrite ProbeFacts.sleep_then_returns. cbn [Z.b2z]. rewrite Z.add_0_r.
      destruct (status_code response =? 200)%Z; cbn [Z.b2z].
      * reflexivity.
      * rewrite Z.add_0_r. destruct c; reflexivity.
  - rewrite ProbeFacts.handler_returns by (apply H; reflexivity).
    cbn [Z.b2z]. rewrite !Z.add_0_r. destruct c; reflexivity.
Qed.

Lemma loop_counts outcomes indices :
  (forall i e, outcomes i = Raises e -> is_Exception e = true) ->
  forall c,
    fst (loop outcomes indices c)
    = Returns {| successful_requests :=
                   successful_requests c + count_status 200 outcomes indices;
                 rate_limited_requests :=
                   rate_limited_requests c + count_status 429 outcomes indices |}.
Proof.
  intros H. induction indices as [|i rest IH]; intros c; cbn [loop].
  - unfold count_status. cbn. rewrite !Z.add_0_r. destruct c; reflexivity.
  - pose proof (iteration_counts i (outcomes i) c (H i)) as Hi.
    destruct (iteration i (outcomes i) c) as [r tr]. cbn [fst] in Hi. subst r.
    specialize (IH {| successful_requests :=
                        successful_requests c + Z.b2z (status_is 200 (outcomes i));
                      rate_limited_requests :=
                        rate_limited_requests c + Z.b2z (status_is 429 (outcomes i)) |}).
    destruct (loop outcomes rest _) as [r' tr']. cbn [fst] in *. subst r'.
    cbn [successful_requests rate_limited_requests].
    rewrite !count_status_cons. f_equal. f_equal; lia.
Qed.

Lemma count_status_bounds outcomes indices :
  0 <= count_status 200 outcomes indices
  /\ 0 <= count_status 429 outcomes indices
  /\ count_status 200 outcomes indices + count_status 429 outcomes indices
     <= Z.of_nat (length indices).
Proof.
  induction indices as [|i rest IH].
  - unfold count_status. cbn. lia.
  - rewrite !count_status_cons. cbn [length].
    assert (Z.b2z (status_is 200 (outcomes i)) + Z.b2z (status_is 429 (outcomes i)) <= 1).
    { unfold status_is. destruct (outcomes i) as [r|e]; cbn; [|lia].
      destruct (Z.eqb_spec (status_code r) 200) as [E|E];
        destruct (Z.eqb_spec (status_code r) 429); cbn; lia. }
    destruct (status_is 200 (outcomes i)), (status_is 429 (outcomes i));
      cbn [Z.b2z] in *; lia.
Qed.

(** X8. When requests fail only with Exceptions, the summary that the
    probe prints last carries the number of passes answered with status
    200 and the number answered with status 429 (also those whose
    Retry-After could not be used); responses with another status and
    requests that raised count in neither, so the two numbers add up to at
    most max_requests. *)
Theorem probe_summary_counts (outcomes : nat -> result Response) :
  (forall i e, outcomes i = Raises e -> is_Exception e = true) ->
  let passes := seq 0 (Config.max_requests Config.RATE_LIMIT_CONFIG) in
  let summary := {| successful_requests := count_status 200 outcomes passes;
                    rate_limited_requests := count_status 429 outcomes passes |} in
  (exists tr, _test_reqres_rate_limiting outcomes
              = (Returns tt, tr ++ [PrintSummary summary]))
  /\ 0 <= successful_requests summary
  /\ 0 <= rate_limited_requests summary
  /\ successful_requests summary + rate_limited_requests summary
     <= Z.of_nat (Config.max_requests Config.RATE_LIMIT_CONFIG).
Proof.
  intros H passes summary. split.
  - unfold _test_reqres_rate_limiting. fold passes.
    pose proof (loop_counts outcomes passes H
                  {| successful_requests := 0; rate_limited_requests := 0 |}) as Hc.
    destruct (loop outcomes passes _) as [r tr]. cbn [fst] in Hc. subst r.
    cbn [successful_requests rate_limited_requests]. rewrite !Z.add_0_l.
    exists tr. reflexivity.
  - pose proof (count_status_bounds outcomes passes) as (H1 & H2 & H3).
    subst summary. cbn [successful_requests rate_limited_requests].
    split; [exact H1|]. split; [exact H2|].
    subst passes. rewrite length_seq in H3. exact H3.
Qed.

Lemma probe_summary_counts_witness :
  exists tr, _test_reqres_rate_limiting sample_outcomes
             = (Returns tt,
                tr ++ [PrintSummary {| successful_requests := 57;
                                       rate_limited_requests := 29 |}]).
Proof.
  refine (proj1 (probe_summary_counts sample_outcomes _)).
  intros i e. unfold sample_outcomes.
  destruct (i mod 7 =? 6)%nat; [intros [= <-]; reflexivity|].
  destruct (i mod 3 =? 2)%nat; discriminate.
Defined.

Lemma sleeps_of_quiet_passes outcomes indices :
  (forall i, exists r, outcomes i = Returns r /\ status_code r <> 429) ->
  sleeps (flat_map (fun i => snd (iteration i (outcomes i) c0)) indices)
  = repeat (Config.delay_between_requests Config.RATE_LIMIT_CONFIG) (length indices).
Proof.
  intros H. induction indices as [|i rest IH]; [reflexivity|].
  cbn [flat_map length repeat]. rewrite ProbeFacts.sleeps_app, IH.
  destruct (H i) as (r & -> & Hne). unfold iteration.
  destruct (Z.eqb_spec (status_code r) 429) as [E|_]; [contradiction|].
  rewrite ProbeFacts.sleeps_sleep_then. reflexivity.
Qed.

(** X9. Against a server that never answers 429 and never drops a request,
    whatever statuses it returns, the probe sleeps the inter-request delay
    once per pass and nothing else: 100 sleeps of a tenth of a second, 10
    seconds in all. *)
Theorem probe_pacing_without_rate_limit (outcomes : nat -> result Response) :
  (forall i, exists r, outcomes i = Returns r /\ status_code r <> 429) ->
  let tr := snd (_test_reqres_rate_limiting outcomes) in
  sleeps tr = repeat (1 # 10)%Q 100
  /\ (total_sleep tr == 10)%Q.
Proof.
  intros H tr.
  assert (Hs : sleeps tr = repeat (1 # 10)%Q 100).
  { subst tr.
    assert (Hexc : forall i e, outcomes i = Raises e -> is_Exception e = true).
    { intros i e He. destruct (H i) as (r & Hr & _). congruence. }
    destruct (ProbeFacts.run_trace_by_iteration outcomes Hexc) as [c ->].
    cbn [snd]. rewrite ProbeFacts.sleeps_app, sleeps_of_quiet_passes by exact H.
    rewrite length_seq. cbn [sleeps flat_map]. apply app_nil_r. }
  split; [exact Hs|].
  unfold total_sleep. rewrite Hs. vm_compute. reflexivity.
Qed.

Lemma probe_pacing_without_rate_limit_witness :
  (total_sleep (snd (_test_reqres_rate_limiting (fun _ => Returns ok))) == 10)%Q.
Proof.
  refine (proj2 (probe_pacing_without_rate_limit (fun _ => Returns ok) _)).
  intros i. exists ok. split; [reflexivity | discriminate].
Defined.

(** X10. A 429 whose Retry-After header is there but unusable.  An empty
    value is treated like a missing header: the fallback of 5 seconds is
    slept.  A value that int() rejects, such as an HTTP date, ends the
    pass in the exception handler with a ValueError warning and no call
    of time.sleep.  A number that time.sleep refuses is still printed and
    handed to time.sleep, which raises ValueError for a negative number
    down to -9223372036 and OverflowError for a number beyond 9223372036
    either way; no wait takes place.  In every case the response is
    counted as rate-limited and the loop goes on. *)
Theorem unusable_retry_after (i : nat) (response : Response) (c : counters)
  (s : string) :
  status_code response = 429 ->
  headers response !! "Retry-After" = Some s ->
  let c1 := {| successful_requests := successful_requests c;
               rate_limited_requests := rate_limited_requests c + 1 |} in
  let pass := iteration i (Returns response) c in
  (s = "" ->
     pass = (Returns c1, [CallRequest i; PrintRateLimit 5; CallSleep (inject_Z 5)])
     /\ waits (snd pass) = [inject_Z 5])
  /\ (s <> "" -> Py.int s = None ->
        pass = (Returns c1, [CallRequest i; PrintWarning (S i) ValueError]))
  /\ (forall N, Py.int s = Some N -> -9223372036 <= N < 0 ->
        pass = (Returns c1,
                [CallRequest i; PrintRateLimit N; CallSleep (inject_Z N);
                 PrintWarning (S i) ValueError])
        /\ waits (snd pass) = [])
  /\ (forall N, Py.int s = Some N -> N < -9223372036 \/ 9223372036 < N ->
        pass = (Returns c1,
                [CallRequest i; PrintRateLimit N; CallSleep (inject_Z N);
                 PrintWarning (S i) OverflowError])
        /\ waits (snd pass) = []).
Proof.
  intros Hstatus Hhdr c1 pass. subst c1 pass. unfold iteration.
  rewrite Hstatus, Hhdr. simpl (429 =? 429)%Z. cbv iota. repeat split.
  - subst s. reflexivity.
  - subst s. reflexivity.
  - intros Hne Hint.
    assert (Ht : Py.truthy (Some s) = true) by (destruct s; [contradiction|reflexivity]).
    rewrite Ht. simpl (default _ _). rewrite Hint. reflexivity.
  - rewrite (ProbeFacts.int_of_empty_header s N H). simpl (default _ _).
    rewrite H, ProbeFacts.rate_limited_pass.
    destruct (Z.ltb_spec N (-9223372036)); [lia|].
    destruct (Z.ltb_spec 9223372036 N); [lia|].
    destruct (Z.ltb_spec N 0); [reflexivity | lia].
  - rewrite (ProbeFacts.int_of_empty_header s N H). simpl (default _ _).
    rewrite H, ProbeFacts.rate_limited_pass. unfold waits.
    cbn [snd]. rewrite ProbeFacts.sleeps_app. cbn [sleeps flat_map app List.filter].
    unfold Py.sleeps_through. rewrite ProbeFacts.sleep_int.
    destruct (Z.ltb_spec N (-9223372036)); [lia|].
    destruct (Z.ltb_spec 9223372036 N); [lia|].
    destruct (Z.ltb_spec N 0); [reflexivity | lia].
  - rewrite (ProbeFacts.int_of_empty_header s N H). simpl (default _ _).
    rewrite H, ProbeFacts.rate_limited_pass.
    destruct (Z.ltb_spec N (-9223372036));
      destruct (Z.ltb_spec 9223372036 N); cbn [orb]; try reflexivity; lia.
  - rewrite (ProbeFacts.int_of_empty_header s N H). simpl (default _ _).
    rewrite H, ProbeFacts.rate_limited_pass. unfold waits.
    cbn [snd]. rewrite ProbeFacts.sleeps_app. cbn [sleeps flat_map app List.filter].
    unfold Py.sleeps_through. rewrite ProbeFacts.sleep_int.
    destruct (Z.ltb_spec N (-9223372036));
      destruct (Z.ltb_spec 9223372036 N); cbn [orb]; try reflexivity; lia.
Qed.

Lemma unusable_retry_after_witness :
  iteration 0 (Returns (rate_limited (Some "soon"))) c0
  = (Returns {| successful_requests := 0; rate_limited_requests := 1 |},
     [CallRequest 0; PrintWarning 1 ValueError])
  /\ iteration 0 (Returns (rate_limited (Some "100000000000000000000"))) c0
     = (Returns {| successful_requests := 0; rate_limited_requests := 1 |},
        [CallRequest 0; PrintRateLimit 100000000000000000000;
         CallSleep (inject_Z 100000000000000000000);
         PrintWarning 1 OverflowError]).
Proof.
  split.
  - refine (proj1 (proj2 (unusable_retry_after 0 (rate_limited (Some "soon")) c0
                            "soon" eq_refl eq_refl)) _ eq_refl).
    discriminate.
  - refine (proj1 (proj2 (proj2 (proj2
             (unusable_retry_after 0
                (rate_limited (Some "100000000000000000000")) c0
                "100000000000000000000" eq_refl eq_refl)))
             100000000000000000000 eq_refl _)).
    right. lia.
Defined.

End ProbeMore.

(** ** API scenarios *)

(** Equality of Python values, as far as sets and comparisons need it. *)
Module PyJsonFacts.
Import Schema PyJson.

Lemma Qeq_bool_sym (x y : Q) : Qeq_bool x y = Qeq_bool y x.
Proof.
  destruct (Qeq_bool x y) eqn:H1; destruct (Qeq_bool y x) eqn:H2; try reflexivity.
  - apply Qeq_bool_iff in H1. symmetry in H1. apply Qeq_bool_iff in H1. congruence.
  - apply Qeq_bool_iff in H2. symmetry in H2. apply Qeq_bool_iff in H2. congruence.
Qed.

Lemma py_eq_sym (a b : json) : py_eq a b = py_eq b a.
Proof.
  unfold py_eq.
  destruct (as_number a) as [x|] eqn:Ha; destruct (as_number b) as [y|] eqn:Hb;
    try reflexivity.
  - apply Qeq_bool_sym.
  - destruct a, b; try reflexivity; try discriminate.
    + apply String.eqb_sym.
    + destruct negative, negative0; reflexivity.
Qed.

Lemma py_eq_trans (a b c : json) :
  py_eq a b = true -> py_eq b c = true -> py_eq a c = true.
Proof.
  unfold py_eq.
  destruct (as_number a) as [x|] eqn:Ha; destruct (as_number b) as [y|] eqn:Hb;
    destruct (as_number c) as [z|] eqn:Hc; try discriminate.
  - intros H1 H2. apply Qeq_bool_iff in H1, H2. apply Qeq_bool_iff.
    rewrite H1. exact H2.
  - destruct a, b, c; try discriminate.
    + reflexivity.
    + intros H1 H2. apply String.eqb_eq in H1, H2. subst. apply String.eqb_refl.
    + destruct negative, negative0, negative1; try discriminate; reflexivity.
Qed.

(** Every hashable value but NaN equals itself. *)
Lemma py_eq_refl (v : json) :
  hashable v = true -> is_nan v = false -> py_eq v v = true.
Proof.
  destruct v; try discriminate; intros _ _; unfold py_eq; cbn;
    first [reflexivity | apply Qeq_bool_refl | apply String.eqb_refl
          | destruct negative; reflexivity].
Qed.

(** NaN equals nothing. *)
Lemma py_eq_nan (a b : json) : is_nan a = true -> py_eq a b = false.
Proof.
  destruct a; try discriminate. intros _. unfold py_eq. cbn.
  destruct (as_number b); reflexivity.
Qed.

(** Away from NaN, to be one member is to be equal. *)
Lemma same_member_eq (a b : json) :
  is_nan a = false -> same_member a b = py_eq a b.
Proof. intros H. unfold same_member. rewrite H. apply orb_false_r. Qed.

Lemma same_member_sym (a b : json) : same_member a b = same_member b a.
Proof. unfold same_member. rewrite py_eq_sym, andb_comm. reflexivity. Qed.

Lemma same_member_trans (a b c : json) :
  same_member a b = true -> same_member b c = true -> same_member a c = true.
Proof.
  unfold same_member. rewrite !orb_true_iff, !andb_true_iff.
  intros [H1|[Ha Hb]] [H2|[Hb' Hc]].
  - left. exact (py_eq_trans a b c H1 H2).
  - rewrite py_eq_sym, (py_eq_nan b a Hb') in H1. discriminate.
  - rewrite (py_eq_nan b c Hb) in H2. discriminate.
  - right. auto.
Qed.

Lemma same_member_refl (v : json) : hashable v = true -> same_member v v = true.
Proof.
  intros H. unfold same_member. destruct (is_nan v) eqn:Hn.
  - apply orb_true_r.
  - rewrite (py_eq_refl v H Hn). reflexivity.
Qed.

Lemma set_member_add v x s :
  set_member v (set_add x s) = set_member v s || same_member v x.
Proof.
  unfold set_add, set_member.
  destruct (existsb (same_member x) s) eqn:Hx.
  - destruct (same_member v x) eqn:Hvx; [|symmetry; apply orb_false_r].
    rewrite orb_true_r. apply existsb_exists in Hx as (y & Hin & Hxy).
    apply existsb_exists. exists y. split; [exact Hin|].
    exact (same_member_trans v x y Hvx Hxy).
  - rewrite existsb_app. cbn [existsb]. rewrite orb_false_r. reflexivity.
Qed.

Lemma set_inter_nonempty a b :
  (0 <? length (set_inter a b))%nat = true
  <-> exists x, In x a /\ set_member x b = true.
Proof.
  unfold set_inter. split.
  - intros H. apply Nat.ltb_lt in H.
    destruct (List.filter (fun v => set_member v b) a) as [|x rest] eqn:Hf;
      [cbn in H; lia|].
    assert (Hin : In x (List.filter (fun v => set_member v b) a))
      by (rewrite Hf; left; reflexivity).
    apply filter_In in Hin. exists x. exact Hin.
  - intros (x & Hin & Hmem). apply Nat.ltb_lt.
    assert (Hx : In x (List.filter (fun v => set_member v b) a))
      by (apply filter_In; auto).
    destruct (List.filter (fun v => set_member v b) a); [destruct Hx | cbn; lia].
Qed.

End PyJsonFacts.

Module ApiFacts.
Import Schema PyJson Fixtures Api.

Section WithNetwork.
Variable fresh_session : Registry.Session.
Variable transport : list request -> request -> result Response.


Lemma make_api_request_spec (method : string) (target : url)
  (session : option nat) (kwargs : gmap string json) (w : world) :
  exists req,
    sent (snd (Api.make_api_request fresh_session transport method target session kwargs w)) = sent w ++ [req]
    /\ fst (Api.make_api_request fresh_session transport method target session kwargs w) = transport (sent w) req
    /\ Api.method req = method /\ Api.target req = target
    /\ has_timeout req
    /\ (is_Some (kwargs !! "timeout") -> Api.kwargs req = kwargs)
    /\ (kwargs !! "timeout" = None ->
          Api.kwargs req !! "timeout" = Some (JArray [JInt 5; JInt 30])
          /\ forall k, k <> "timeout" -> Api.kwargs req !! k = kwargs !! k).
Proof.
  unfold Api.make_api_request.
  destruct (match session with
            | Some s => (s, registry w)
            | None => Registry.get_session fresh_session "default" None (registry w)
            end) as [s reg].
  eexists. cbn [fst snd sent Api.method Api.target Api.kwargs].
  split; [reflexivity|]. split; [reflexivity|]. split; [reflexivity|].
  split; [reflexivity|]. unfold has_timeout. cbn [Api.kwargs].
  destruct (kwargs !! "timeout") as [t|] eqn:Ht.
  - rewrite bool_decide_eq_true_2 by eauto. rewrite Ht.
    split; [eauto|]. split; [reflexivity | discriminate].
  - rewrite bool_decide_eq_false_2 by (intros [? ?]; discriminate).
    rewrite lookup_insert_eq. split; [eauto|]. split.
    + intros [? ?]; discriminate.
    + intros _. split; [reflexivity|].
      intros k Hk. apply lookup_insert_ne. congruence.
Qed.

(** X11. make_api_request sends exactly one request and hands on what the
    transport answers, response or exception, unchanged.  The request
    always carries a timeout: the caller's when one is given (the keyword
    arguments are then passed as they are), the default (5, 30) pair
    otherwise, with the other keyword arguments untouched. *)
Theorem make_api_request_timeout (method : string) (target : url)
  (session : option nat) (kwargs : gmap string json) (w : world) :
  exists req,
    sent (snd (Api.make_api_request fresh_session transport method target session kwargs w)) = sent w ++ [req]
    /\ fst (Api.make_api_request fresh_session transport method target session kwargs w) = transport (sent w) req
    /\ Api.method req = method /\ Api.target req = target
    /\ has_timeout req
    /\ (is_Some (kwargs !! "timeout") -> Api.kwargs req = kwargs)
    /\ (kwargs !! "timeout" = None ->
          Api.kwargs req !! "timeout" = Some (JArray [JInt 5; JInt 30])
          /\ forall k, k <> "timeout" -> Api.kwargs req !! k = kwargs !! k).
Proof. apply make_api_request_spec. Qed.

(** X12. The session of a request.  A session passed by the caller is
    used as it is and the registry is not touched.  Without one, the
    request goes through the session registered as "default": the one
    already there, or one created on the spot with the default headers and
    registered, so that later requests without a session reuse it. *)
Theorem make_api_request_session (method : string) (target : url)
  (kwargs : gmap string json) (w : world) :
  (forall s,
      registry (snd (Api.make_api_request fresh_session transport method target (Some s) kwargs w)) = registry w
      /\ exists req, sent (snd (Api.make_api_request fresh_session transport method target (Some s) kwargs w))
                     = sent w ++ [req] /\ Api.session req = s)
  /\ (exists req,
        sent (snd (Api.make_api_request fresh_session transport method target None kwargs w)) = sent w ++ [req]
        /\ Registry.dict_get "default"
             (Registry._sessions
                (registry (snd (Api.make_api_request fresh_session transport method target None kwargs w))))
           = Some (Api.session req)
        /\ (forall id, Registry.dict_get "default" (Registry._sessions (registry w))
                       = Some id ->
                       Api.session req = id
                       /\ registry (snd (Api.make_api_request fresh_session transport method target None kwargs w))
                          = registry w)).
Proof.
  split.
  - intros s. unfold Api.make_api_request. cbn [fst snd registry sent].
    split; [reflexivity|]. eexists. split; reflexivity.
  - unfold Api.make_api_request.
    destruct (Registry.get_session fresh_session "default" None (registry w))
      as [s reg] eqn:Hget.
    cbn [fst snd registry sent]. eexists. split; [reflexivity|].
    cbn [Api.session]. split.
    + unfold Registry.get_session, Registry._create_session in Hget.
      destruct (Registry.dict_get "default" (Registry._sessions (registry w)))
        as [i|] eqn:Hd.
      * injection Hget as <- <-. exact Hd.
      * injection Hget as <- <-. cbn [Registry._sessions].
        rewrite RegistryFacts.dict_get_app, Hd. reflexivity.
    + intros id Hid.
      rewrite (RegistryFacts.get_session_hit fresh_session _ None _ _ Hid) in Hget.
      injection Hget as <- <-. split; reflexivity.
Qed.

(** *** Scripts: which requests a computation sends *)

Lemma follows_nothing {A : Type} s script (c : M A) :
  (forall w, snd (c w) = w) ->
  (forall w a, fst (c w) = Returns a -> script = []) ->
  follows_script s script c.
Proof.
  intros Hw Hr w. exists []. rewrite Hw, app_nil_r.
  split; [reflexivity|]. split; [reflexivity|]. split; [apply prefix_nil|].
  split; [|apply List.Forall_nil].
  intros a Ha. rewrite (Hr w a Ha). reflexivity.
Qed.

Lemma follows_ret {A : Type} s (a : A) : follows_script s [] (ret a).
Proof. apply follows_nothing; reflexivity. Qed.

Lemma follows_lift {A : Type} s (r : result A) : follows_script s [] (lift r).
Proof. apply follows_nothing; reflexivity. Qed.

Lemma follows_raise {A : Type} s script e : follows_script s script (@raise A e).
Proof. apply follows_nothing; [reflexivity | discriminate]. Qed.

Lemma follows_assert s cond : follows_script s [] (assert cond).
Proof. unfold assert. destruct cond; [apply follows_ret | apply follows_raise]. Qed.

Lemma follows_bind {A B : Type} s script1 script2 (c : M A) (k : A -> M B) :
  follows_script s script1 c ->
  (forall a, follows_script s script2 (k a)) ->
  follows_script s (script1 ++ script2) (bind c k).
Proof.
  intros Hc Hk w. unfold bind.
  destruct (Hc w) as (extra1 & Hsent1 & Hreg1 & Hpre1 & Hfull1 & Hall1).
  destruct (c w) as [[a|e] w1]; cbn [fst snd] in *.
  - destruct (Hk a w1) as (extra2 & Hsent2 & Hreg2 & Hpre2 & Hfull2 & Hall2).
    exists (extra1 ++ extra2).
    rewrite Hsent2, Hsent1, Hreg2, Hreg1, map_app, (Hfull1 a eq_refl), <- app_assoc.
    repeat split.
    + apply prefix_app. exact Hpre2.
    + intros b Hb. f_equal. eauto.
    + apply Forall_app. split; assumption.
  - exists extra1. repeat split; auto.
    + apply prefix_app_r. exact Hpre1.
    + discriminate.
Qed.

(** A step that sends nothing may precede a script. *)
Lemma follows_bind_quiet {A B : Type} s script (c : M A) (k : A -> M B) :
  follows_script s [] c ->
  (forall a, follows_script s script (k a)) ->
  follows_script s script (bind c k).
Proof. intros Hc Hk. exact (follows_bind s [] script c k Hc Hk). Qed.

Lemma timeout_filled (kwargs : gmap string json) :
  is_Some ((if bool_decide (is_Some (kwargs !! "timeout")) then kwargs
            else <["timeout" := default_timeout]> kwargs) !! "timeout").
Proof.
  destruct (kwargs !! "timeout") as [t|] eqn:Ht.
  - rewrite bool_decide_eq_true_2 by eauto. rewrite Ht. eauto.
  - rewrite bool_decide_eq_false_2 by (intros [? ?]; discriminate).
    rewrite lookup_insert_eq. eauto.
Qed.

Lemma follows_make_api_request s method target kwargs :
  follows_script s [method]
    (Api.make_api_request fresh_session transport method target (Some s) kwargs).
Proof.
  intros w. unfold Api.make_api_request. cbn [fst snd sent registry].
  eexists [_]. split; [reflexivity|]. split; [reflexivity|].
  cbn [map Api.method]. split; [reflexivity|]. split; [reflexivity|].
  apply List.Forall_cons; [|apply List.Forall_nil].
  split; [reflexivity|]. apply timeout_filled.
Qed.

Lemma follows_bind_cons {A B : Type} s m script (c : M A) (k : A -> M B) :
  follows_script s [m] c ->
  (forall a, follows_script s script (k a)) ->
  follows_script s (m :: script) (bind c k).
Proof. intros Hc Hk. exact (follows_bind s [m] script c k Hc Hk). Qed.

Lemma follows_assert_status s response codes :
  follows_script s [] (assert_status_code_in_range response codes).
Proof. apply follows_assert. Qed.

(** Walks through a sequence of steps, each of which sends one request or
    none. *)
Ltac script :=
  repeat first
    [ apply follows_ret | apply follows_lift | apply follows_assert
    | apply follows_assert_status | apply follows_raise
    | apply follows_make_api_request
    | apply follows_bind_quiet;
        [ first [apply follows_lift | apply follows_assert
                | apply follows_assert_status] | intros ? ]
    | apply follows_bind_cons; [apply follows_make_api_request | intros ? ] ].

Lemma get_data_script s endpoint limit :
  follows_script s ["GET"]
    (_get_jsonplaceholder_data fresh_session transport s endpoint limit).
Proof.
  unfold _get_jsonplaceholder_data.
  destruct (jsonplaceholder_endpoints !! endpoint); script.
Qed.

Lemma crud_script s posts_data :
  follows_script s ["POST"; "PUT"; "DELETE"]
    (_test_jsonplaceholder_crud fresh_session transport s posts_data).
Proof. unfold _test_jsonplaceholder_crud. script. Qed.

Lemma validate_script s posts_data :
  follows_script s [] (_validate_jsonplaceholder_schemas posts_data).
Proof.
  induction posts_data as [|post rest IH]; cbn [_validate_jsonplaceholder_schemas].
  - apply follows_ret.
  - apply follows_bind_quiet; [apply follows_lift | intros _; exact IH].
Qed.

Lemma relationships_script s posts comments users :
  follows_script s [] (_test_jsonplaceholder_relationships posts comments users).
Proof. unfold _test_jsonplaceholder_relationships. script. Qed.

Lemma negative_script s :
  follows_script s ["GET"; "POST"; "PUT"]
    (_test_jsonplaceholder_negative_cases fresh_session transport s).
Proof. unfold _test_jsonplaceholder_negative_cases. script. Qed.

Lemma bind_get_session {B : Type} name hdrs (k : nat -> M B) (w : world) :
  bind (get_session fresh_session name hdrs) k w
  = k (fst (Registry.get_session fresh_session name hdrs (registry w)))
      {| registry := snd (Registry.get_session fresh_session name hdrs (registry w));
         sent := sent w |}.
Proof.
  unfold bind, get_session.
  destruct (Registry.get_session fresh_session name hdrs (registry w)); reflexivity.
Qed.

(** The steps of test_jsonplaceholder_api after it has its session. *)
Lemma jsonplaceholder_steps_script s :
  follows_script s
    ["GET"; "GET"; "GET"; "POST"; "PUT"; "DELETE"; "GET"; "POST"; "PUT"]
    (let* posts_data := _get_jsonplaceholder_data fresh_session transport s "posts" 10 in
     let* comments_data :=
       _get_jsonplaceholder_data fresh_session transport s "comments" 10 in
     let* users_data := _get_jsonplaceholder_data fresh_session transport s "users" 10 in
     _test_jsonplaceholder_crud fresh_session transport s posts_data ;;
     _validate_jsonplaceholder_schemas posts_data ;;
     _test_jsonplaceholder_relationships posts_data comments_data users_data ;;
     _test_jsonplaceholder_negative_cases fresh_session transport s).
Proof.
  apply follows_bind_cons; [apply get_data_script | intros posts_data].
  apply follows_bind_cons; [apply get_data_script | intros comments_data].
  apply follows_bind_cons; [apply get_data_script | intros users_data].
  apply (follows_bind s ["POST"; "PUT"; "DELETE"] ["GET"; "POST"; "PUT"]);
    [apply crud_script | intros _].
  apply follows_bind_quiet; [apply validate_script | intros _].
  apply follows_bind_quiet; [apply relationships_script | intros _].
  apply negative_script.
Qed.

(** X13. test_jsonplaceholder_api, started in any registry and against
    any network: it takes the session registered as "jsonplaceholder"
    (creating it if need be) and does nothing else to the registry; the
    requests it sends are, in this order, GET, GET, GET, POST, PUT, DELETE,
    GET, POST, PUT, cut short at the first step that fails and complete
    when the scenario returns; every request goes through that session
    and carries a timeout. *)
Theorem jsonplaceholder_scenario_script (m : Registry.manager) :
  let out := test_jsonplaceholder_api fresh_session transport (start m) in
  let session :=
    fst (Registry.get_session fresh_session "jsonplaceholder" None m) in
  registry (snd out)
  = snd (Registry.get_session fresh_session "jsonplaceholder" None m)
  /\ map method (sent (snd out))
       `prefix_of` ["GET"; "GET"; "GET"; "POST"; "PUT"; "DELETE"; "GET"; "POST"; "PUT"]
  /\ (fst out = Returns tt ->
        map method (sent (snd out))
        = ["GET"; "GET"; "GET"; "POST"; "PUT"; "DELETE"; "GET"; "POST"; "PUT"])
  /\ Forall (fun req => Api.session req = session /\ has_timeout req)
            (sent (snd out)).
Proof.
  intros out session. subst out session.
  unfold test_jsonplaceholder_api. rewrite bind_get_session.
  unfold start. cbn [registry sent].
  destruct (Registry.get_session fresh_session "jsonplaceholder" None m)
    as [id reg].
  cbn [fst snd].
  destruct (jsonplaceholder_steps_script id {| registry := reg; sent := [] |})
    as (extra & Hsent & Hreg & Hpre & Hfull & Hall).
  cbn [sent registry app] in Hsent, Hreg.
  rewrite Hsent, Hreg. split; [reflexivity|]. split; [exact Hpre|].
  split; [|exact Hall]. intros Hret. exact (Hfull tt Hret).
Qed.

(** *** Reading a run backwards *)

Lemma bind_inv {A B : Type} (c : M A) (k : A -> M B) w b w' :
  bind c k w = (Returns b, w') ->
  exists a w1, c w = (Returns a, w1) /\ k a w1 = (Returns b, w').
Proof.
  unfold bind. destruct (c w) as [[a|e] w1]; [eauto | discriminate].
Qed.

Lemma bind_returns {A B : Type} (c : M A) (k : A -> M B) w a w1 :
  c w = (Returns a, w1) -> bind c k w = k a w1.
Proof. unfold bind. intros ->. reflexivity. Qed.

Lemma bind_raises {A B : Type} (c : M A) (k : A -> M B) w e w1 :
  c w = (Raises e, w1) -> bind c k w = (Raises e, w1).
Proof. unfold bind. intros ->. reflexivity. Qed.

Lemma request_run method target s kwargs w :
  Api.make_api_request fresh_session transport method target (Some s) kwargs w
  = (transport (sent w) (built method target s kwargs),
     {| registry := registry w;
        sent := sent w ++ [built method target s kwargs] |}).
Proof. reflexivity. Qed.

Lemma lift_inv {A : Type} (r : result A) w a w' :
  lift r w = (Returns a, w') -> r = Returns a /\ w' = w.
Proof. unfold lift. intros [= -> ->]. auto. Qed.

Lemma assert_inv cond w u w' :
  assert cond w = (Returns u, w') -> cond = true /\ w' = w.
Proof.
  unfold assert. destruct cond; cbn; [intros [= _ ->]; auto | discriminate].
Qed.

Lemma status_inv response codes w u w' :
  assert_status_code_in_range response codes w = (Returns u, w') ->
  In (status_code response) codes /\ w' = w.
Proof.
  intros H. apply assert_inv in H as [H ->]. split; [|reflexivity].
  apply existsb_exists in H as (x & Hin & Heq).
  apply Z.eqb_eq in Heq. subst. exact Hin.
Qed.

Lemma request_inv method target s kwargs w response w' :
  Api.make_api_request fresh_session transport method target (Some s) kwargs w
  = (Returns response, w') ->
  transport (sent w) (built method target s kwargs) = Returns response
  /\ w' = {| registry := registry w;
             sent := sent w ++ [built method target s kwargs] |}.
Proof. unfold Api.make_api_request, built. intros [= -> <-]. auto. Qed.

Lemma slice_items_length data limit items :
  slice_items data limit = Returns items -> (length items <= limit)%nat.
Proof.
  destruct data; try discriminate; cbn; intros [= <-].
  - rewrite length_map. apply firstn_le_length.
  - apply firstn_le_length.
Qed.

(** X15. _get_jsonplaceholder_data.  An endpoint name that the
    configuration does not know raises KeyError before any request is
    sent.  Otherwise one GET is sent: a response with a status other than
    200 raises AssertionError whatever its body; with status 200 and a
    JSON array as body the result is the first [limit] elements of the
    array; and whenever the function returns, it returns at most [limit]
    items. *)
Theorem get_data_at_most_limit (s : nat) (endpoint : string) (limit : nat)
  (w : world) :
  let out := _get_jsonplaceholder_data fresh_session transport s endpoint limit w in
  (jsonplaceholder_endpoints !! endpoint = None -> out = (Raises KeyError, w))
  /\ (forall endpoint_url response,
        jsonplaceholder_endpoints !! endpoint = Some endpoint_url ->
        transport (sent w)
          (built "GET" (Literal (jsonplaceholder_base ++ endpoint_url)) s ∅)
        = Returns response ->
        (status_code response <> 200 -> fst out = Raises AssertionError)
        /\ (forall l, status_code response = 200 ->
                      body response = Returns (JArray l) ->
                      fst out = Returns (firstn limit l)))
  /\ (forall items, fst out = Returns items -> (length items <= limit)%nat).
Proof.
  intros out. subst out. unfold _get_jsonplaceholder_data. split; [|split].
  - intros ->. reflexivity.
  - intros endpoint_url response -> Hresp.
    rewrite (bind_returns _ _ w response _
               (eq_trans (request_run _ _ _ _ _) (f_equal (fun r => (r, _)) Hresp))).
    unfold assert_status_code_in_range, assert. cbn [existsb]. split.
    + intros Hne. destruct (Z.eqb_spec (status_code response) 200); [contradiction|].
      reflexivity.
    + intros l Hst Hbody. rewrite Hst. cbn [Z.eqb Pos.eqb orb].
      unfold bind, ret, lift. rewrite Hbody. reflexivity.
  - intros items.
    destruct (jsonplaceholder_endpoints !! endpoint) as [endpoint_url|];
      [|discriminate].
    destruct (bind _ _ w) as [r w'] eqn:Hrun. cbn [fst]. intros ->.
    apply bind_inv in Hrun as (response & w1 & _ & Hrun).
    apply bind_inv in Hrun as (u & w2 & _ & Hrun).
    apply bind_inv in Hrun as (data & w3 & _ & Hrun).
    apply lift_inv in Hrun as [Hslice _].
    exact (slice_items_length _ _ _ Hslice).
Qed.

Lemma validate_all posts_data w :
  _validate_jsonplaceholder_schemas posts_data w
  = (if forallb (valid JSONPLACEHOLDER_POST_SCHEMA) posts_data
     then Returns tt else Raises ValidationError, w).
Proof.
  induction posts_data as [|post rest IH]; cbn [_validate_jsonplaceholder_schemas forallb].
  - reflexivity.
  - unfold bind, lift, validate_json_schema.
    destruct (valid JSONPLACEHOLDER_POST_SCHEMA post); cbn [andb].
    + exact IH.
    + reflexivity.
Qed.

(** X16. _validate_jsonplaceholder_schemas returns exactly when every
    post is valid against the post schema (so also for no posts at all),
    raises ValidationError as soon as one is not, and in no case sends a
    request or touches the registry. *)
Theorem validate_schemas_all_or_error (posts_data : list json) (w : world) :
  snd (_validate_jsonplaceholder_schemas posts_data w) = w
  /\ (fst (_validate_jsonplaceholder_schemas posts_data w) = Returns tt
      <-> forall post, In post posts_data ->
                       valid JSONPLACEHOLDER_POST_SCHEMA post = true)
  /\ (fst (_validate_jsonplaceholder_schemas posts_data w) = Raises ValidationError
      <-> exists post, In post posts_data
                       /\ valid JSONPLACEHOLDER_POST_SCHEMA post = false).
Proof.
  rewrite validate_all. cbn [fst snd]. split; [reflexivity|].
  destruct (forallb (valid JSONPLACEHOLDER_POST_SCHEMA) posts_data) eqn:Hall.
  - rewrite forallb_forall in Hall. split; [tauto|]. split; [discriminate|].
    intros (post & Hin & Hbad). rewrite (Hall post Hin) in Hbad. discriminate.
  - split.
    + split; [discriminate|]. intros H. apply forallb_forall in H. congruence.
    + split; [intros _ | reflexivity].
      apply not_true_iff_false in Hall.
      destruct (existsb (fun p => negb (valid JSONPLACEHOLDER_POST_SCHEMA p))
                  posts_data) eqn:Hex.
      * apply existsb_exists in Hex as (post & Hin & Hneg).
        exists post. split; [exact Hin|]. apply negb_true_iff. exact Hneg.
      * exfalso. apply Hall. apply forallb_forall. intros post Hin.
        destruct (valid JSONPLACEHOLDER_POST_SCHEMA post) eqn:Hv; [reflexivity|].
        assert (existsb (fun p => negb (valid JSONPLACEHOLDER_POST_SCHEMA p))
                  posts_data = true) as Hcontra.
        { apply existsb_exists. exists post. rewrite Hv. auto. }
        congruence.
Qed.

(** X17. _test_jsonplaceholder_crud, when it returns, has sent exactly
    three requests: the POST of the valid payload to the posts collection,
    the PUT of the update payload to post 1, and a DELETE whose URL ends in
    the "id" member of the JSON object that the POST was answered with;
    nothing is sent to check the posts handed in. *)
Theorem crud_deletes_what_it_created (s : nat) (posts_data : list json)
  (w : world) :
  fst (_test_jsonplaceholder_crud fresh_session transport s posts_data w)
  = Returns tt ->
  exists created m id,
    transport (sent w)
      (built "POST" (Literal posts_url) s (json_kw VALID_POST_PAYLOAD))
    = Returns created
    /\ body created = Returns (JObject m)
    /\ m !! "id" = Some id
    /\ sent (snd (_test_jsonplaceholder_crud fresh_session transport s posts_data w))
       = sent w
         ++ [built "POST" (Literal posts_url) s (json_kw VALID_POST_PAYLOAD);
             built "PUT" (Literal (posts_url ++ "/1")) s (json_kw update_post_payload);
             built "DELETE" (Formatted posts_url id) s ∅].
Proof.
  destruct (_test_jsonplaceholder_crud fresh_session transport s posts_data w)
    as [r w'] eqn:Hrun.
  cbn [fst snd]. intros ->. unfold _test_jsonplaceholder_crud in Hrun.
  apply bind_inv in Hrun as (structure & w1 & H1 & Hrun).
  apply lift_inv in H1 as [_ ->].
  apply bind_inv in Hrun as (u1 & w2 & H2 & Hrun).
  apply assert_inv in H2 as [_ ->].
  apply bind_inv in Hrun as (created & w3 & H3 & Hrun).
  apply request_inv in H3 as [Hcreated ->].
  apply bind_inv in Hrun as (u2 & w4 & H4 & Hrun).
  apply status_inv in H4 as [_ ->].
  apply bind_inv in Hrun as (created_post & w5 & H5 & Hrun).
  apply lift_inv in H5 as [Hbody ->].
  apply bind_inv in Hrun as (has_id & w6 & H6 & Hrun).
  apply lift_inv in H6 as [_ ->].
  apply bind_inv in Hrun as (u3 & w7 & H7 & Hrun).
  apply assert_inv in H7 as [_ ->].
  apply bind_inv in Hrun as (created_id & w8 & H8 & Hrun).
  apply lift_inv in H8 as [Hid ->].
  apply bind_inv in Hrun as (updated & w9 & H9 & Hrun).
  apply request_inv in H9 as [_ ->].
  apply bind_inv in Hrun as (u4 & w10 & H10 & Hrun).
  apply status_inv in H10 as [_ ->].
  apply bind_inv in Hrun as (deleted & w11 & H11 & Hrun).
  apply request_inv in H11 as [_ ->].
  apply status_inv in Hrun as [_ ->].
  destruct created_post; try discriminate. cbn in Hid.
  destruct (m !! "id") as [v|] eqn:Hm; [|discriminate].
  injection Hid as <-.
  exists created, m, v. cbn [sent]. rewrite <- !app_assoc.
  repeat split; auto.
Qed.

Lemma validate_user_list_script s users :
  follows_script s [] (validate_user_list users).
Proof.
  induction users as [|user rest IH]; cbn [validate_user_list].
  - apply follows_ret.
  - apply follows_bind_quiet; [|intros _; exact IH].
    destruct user; first [apply follows_lift | apply follows_raise].
Qed.

Lemma validate_users_script s data : follows_script s [] (validate_users data).
Proof.
  unfold validate_users. destruct data; try apply follows_raise.
  - destruct (String.eqb s0 ""); [apply follows_ret | apply follows_raise].
  - apply validate_user_list_script.
  - destruct (bool_decide (m = ∅)); [apply follows_ret | apply follows_raise].
Qed.

Lemma users_script s :
  follows_script s ["POST"; "GET"; "GET"; "PUT"; "DELETE"]
    (_test_reqres_users fresh_session transport s).
Proof.
  unfold _test_reqres_users.
  repeat first
    [ apply follows_assert_status
    | apply follows_bind_quiet;
        [ first [apply follows_lift | apply follows_assert
                | apply follows_assert_status | apply validate_users_script]
        | intros ? ]
    | apply follows_bind_cons; [apply follows_make_api_request | intros ? ] ].
Qed.

Lemma authentication_script s :
  follows_script s ["POST"; "POST"; "POST"; "POST"]
    (_test_reqres_authentication fresh_session transport s).
Proof. unfold _test_reqres_authentication. script. Qed.

(** The probe's requests are the first passes, all of them when the loop
    is not left early. *)
Lemma loop_requests_prefix outcomes indices : forall c,
  exists k,
    (k <= length indices)%nat
    /\ Probe.requests (snd (Probe.loop outcomes indices c)) = firstn k indices
    /\ (forall c', fst (Probe.loop outcomes indices c) = Returns c' ->
                   k = length indices).
Proof.
  induction indices as [|i rest IH]; intros c; cbn [Probe.loop].
  - exists 0%nat. repeat split; auto.
  - pose proof (ProbeFacts.iteration_requests i (outcomes i) c) as Hreq.
    destruct (Probe.iteration i (outcomes i) c) as [[c1|e] tr]; cbn [snd] in Hreq.
    + destruct (IH c1) as (k & Hk & Hfirst & Hfull).
      destruct (Probe.loop outcomes rest c1) as [r tr']. cbn [fst snd] in *.
      exists (S k). rewrite ProbeFacts.requests_app, Hreq, Hfirst.
      cbn [length firstn app]. repeat split; [lia | ].
      intros c' Hc'. f_equal. eauto.
    + exists 1%nat. cbn [fst snd length firstn]. rewrite Hreq.
      repeat split; [lia | discriminate].
Qed.

Lemma probe_requests_count outcomes :
  exists k,
    (k <= 100)%nat
    /\ length (Probe.requests (snd (Probe._test_reqres_rate_limiting outcomes))) = k
    /\ (fst (Probe._test_reqres_rate_limiting outcomes) = Returns tt -> k = 100%nat).
Proof.
  unfold Probe._test_reqres_rate_limiting.
  destruct (loop_requests_prefix outcomes
              (seq 0 (Config.max_requests Config.RATE_LIMIT_CONFIG))
              {| Probe.successful_requests := 0; Probe.rate_limited_requests := 0 |})
    as (k & Hk & Hfirst & Hfull).
  rewrite length_seq in Hk, Hfull.
  destruct (Probe.loop outcomes _ _) as [[c|e] tr]; cbn [fst snd] in *.
  - exists k. rewrite ProbeFacts.requests_app, Hfirst.
    cbn [Probe.requests flat_map]. rewrite app_nil_r, length_firstn, length_seq.
    repeat split; [exact Hk | apply Nat.min_l; exact Hk | eauto].
  - exists k. rewrite Hfirst, length_firstn, length_seq.
    repeat split; [exact Hk | apply Nat.min_l; exact Hk | discriminate].
Qed.

Lemma rate_limiting_script s :
  follows_script s (repeat "GET" 100)
    (_test_reqres_rate_limiting transport s).
Proof.
  intros w. unfold _test_reqres_rate_limiting.
  destruct (probe_requests_count
              (fun i => to_probe (transport (sent w ++ repeat (probe_request s) i)
                                    (probe_request s))))
    as (k & Hk & Hlen & Hfull).
  destruct (Probe._test_reqres_rate_limiting _) as [r tr]. cbn [fst snd] in *.
  rewrite Hlen. exists (repeat (probe_request s) k).
  cbn [sent registry]. split; [reflexivity|]. split; [reflexivity|].
  assert (Hm : map method (repeat (probe_request s) k) = repeat "GET" k).
  { clear. induction k; cbn; [reflexivity | f_equal; exact IHk]. }
  rewrite Hm. split; [|split].
  - exists (repeat "GET" (100 - k)). rewrite <- repeat_app. f_equal. lia.
  - intros [] Hr. rewrite (Hfull Hr). reflexivity.
  - clear. induction k; cbn [repeat]; [apply List.Forall_nil|].
    apply List.Forall_cons; [|exact IHk].
    split; [reflexivity|]. unfold has_timeout, probe_request. cbn [kwargs].
    rewrite lookup_insert_eq. eauto.
Qed.

(** X14. test_reqres_api, started in any registry and against any
    network: it takes the session registered as "reqres" (created with the
    ReqRes headers if it is not there yet) and does nothing else to the
    registry; its requests are, in this order, the five of the user flow
    (POST, GET, GET, PUT, DELETE), the four POSTs of the authentication
    flow and the GETs of the probe, cut short at the first failure; when
    the scenario returns it has sent exactly 109 requests; every request
    goes through that session and carries a timeout. *)
Theorem reqres_scenario_script (m : Registry.manager) :
  let out := test_reqres_api fresh_session transport (start m) in
  let session :=
    fst (Registry.get_session fresh_session "reqres"
           (Some Config.REQRES_HEADERS) m) in
  let script := ["POST"; "GET"; "GET"; "PUT"; "DELETE"]
                ++ ["POST"; "POST"; "POST"; "POST"] ++ repeat "GET" 100 in
  registry (snd out)
  = snd (Registry.get_session fresh_session "reqres" (Some Config.REQRES_HEADERS) m)
  /\ map method (sent (snd out)) `prefix_of` script
  /\ (fst out = Returns tt ->
        map method (sent (snd out)) = script /\ length (sent (snd out)) = 109%nat)
  /\ Forall (fun req => Api.session req = session /\ has_timeout req)
            (sent (snd out)).
Proof.
  intros out session script. subst out session script.
  unfold test_reqres_api. rewrite bind_get_session.
  unfold start. cbn [registry sent].
  destruct (Registry.get_session fresh_session "reqres"
              (Some Config.REQRES_HEADERS) m) as [id reg].
  cbn [fst snd].
  assert (Hscript :
    follows_script id
      (["POST"; "GET"; "GET"; "PUT"; "DELETE"]
       ++ ["POST"; "POST"; "POST"; "POST"] ++ repeat "GET" 100)
      (_test_reqres_users fresh_session transport id ;;
       _test_reqres_authentication fresh_session transport id ;;
       _test_reqres_rate_limiting transport id)).
  { apply follows_bind; [apply users_script | intros _].
    apply follows_bind; [apply authentication_script | intros _].
    apply rate_limiting_script. }
  destruct (Hscript {| registry := reg; sent := [] |})
    as (extra & Hsent & Hreg & Hpre & Hfull & Hall).
  cbn [sent registry] in Hsent, Hreg. rewrite app_nil_l in Hsent.
  rewrite Hsent, Hreg. split; [reflexivity|]. split; [exact Hpre|].
  split; [|exact Hall]. intros Hret. pose proof (Hfull tt Hret) as Hm.
  split; [exact Hm|].
  rewrite <- (length_map method), Hm. reflexivity.
Qed.

End WithNetwork.

(** *** Identifier sets and relationships *)

Lemma occurs_cons_dict field m rest v :
  occurs field (JObject m :: rest) v
  <-> (exists v', m !! field = Some v' /\ same_member v v' = true)
      \/ occurs field rest v.
Proof.
  unfold occurs. split.
  - intros (m' & v' & [Heq|Hin] & Hm & Hv).
    + injection Heq as <-. left. eauto.
    + right. eauto 6.
  - intros [(v' & Hm & Hv) | (m' & v' & Hin & Hm & Hv)].
    + exists m, v'. repeat split; auto. left. reflexivity.
    + exists m', v'. repeat split; auto. right. exact Hin.
Qed.

Lemma in_set_add x v s : In x (set_add v s) -> In x s \/ x = v.
Proof.
  unfold set_add. destruct (set_member v s); [auto|].
  intros H. apply in_app_or in H as [H|[H|[]]]; auto.
Qed.

Lemma extract_from_spec field data :
  dicts_with_hashable field data ->
  forall acc, exists s,
    extract_ids_from acc data field = Returns s
    /\ (forall v, set_member v s = true
                  <-> set_member v acc = true \/ occurs field data v)
    /\ (forall x, In x s ->
                  In x acc \/ exists m, In (JObject m) data /\ m !! field = Some x).
Proof.
  intros Hdata. induction Hdata as [|item rest (m & -> & Hhash) _ IH]; intros acc.
  - exists acc. cbn [extract_ids_from]. split; [reflexivity|]. split.
    + intros v. split; [auto|]. intros [H|(m & v' & [] & _)]. exact H.
    + auto.
  - cbn [extract_ids_from py_in py_getitem].
    destruct (m !! field) as [v0|] eqn:Hm.
    + rewrite bool_decide_eq_true_2 by eauto. rewrite (Hhash v0 eq_refl).
      destruct (IH (set_add v0 acc)) as (s & -> & Hmem & Hfrom).
      exists s. split; [reflexivity|]. split.
      * intros v. rewrite Hmem, PyJsonFacts.set_member_add, occurs_cons_dict.
        rewrite orb_true_iff. split.
        -- intros [[H|H]|H]; auto. right. left. eauto.
        -- intros [H|[(v' & Hv' & Heq)|H]]; auto.
           left. right. congruence.
      * intros x Hx. destruct (Hfrom x Hx) as [Hin|(m' & Hin & Hm')].
        -- apply in_set_add in Hin as [Hin| ->]; [auto|].
           right. exists m. split; [left; reflexivity | exact Hm].
        -- right. exists m'. split; [right; exact Hin | exact Hm'].
    + rewrite bool_decide_eq_false_2 by (intros [? ?]; discriminate).
      destruct (IH acc) as (s & -> & Hmem & Hfrom).
      exists s. split; [reflexivity|]. split.
      * intros v. rewrite Hmem, occurs_cons_dict. split.
        -- intros [H|H]; auto.
        -- intros [H|[(v' & Hv' & _)|H]]; auto. congruence.
      * intros x Hx. destruct (Hfrom x Hx) as [Hin|(m' & Hin & Hm')]; [auto|].
        right. exists m'. split; [right; exact Hin | exact Hm'].
Qed.

Lemma extract_ids_spec (id_field : string) (response_data : list json) :
  dicts_with_hashable id_field response_data ->
  exists s,
    extract_ids_from_response response_data id_field = Returns s
    /\ (forall v, set_member v s = true <-> occurs id_field response_data v)
    /\ (forall x, In x s ->
                  exists m, In (JObject m) response_data /\ m !! id_field = Some x).
Proof.
  intros Hdata. unfold extract_ids_from_response.
  destruct (extract_from_spec id_field response_data Hdata [])
    as (s & Hs & Hmem & Hfrom).
  exists s. split; [exact Hs|]. split.
  - intros v. rewrite Hmem. split; [|intros H; right; exact H].
    intros [H|H]; [|exact H]. unfold set_member in H. cbn [existsb] in H.
    discriminate H.
  - intros x Hx. destruct (Hfrom x Hx) as [[]|H]. exact H.
Qed.

(** X18. extract_ids_from_response on a list of dicts whose values in the
    field, where present, are hashable: it returns a set; a value belongs
    to the set exactly when it is, for a set, the same as the field of
    some item, which for every value but NaN is to equal it (==); NaN
    equals nothing, and belongs to the set when the field of some item is
    NaN; every member is the field of some item; items that lack the
    field are skipped without error. *)
Theorem extract_ids_membership (id_field : string) (response_data : list json) :
  dicts_with_hashable id_field response_data ->
  exists s,
    extract_ids_from_response response_data id_field = Returns s
    /\ (forall v, set_member v s = true <-> occurs id_field response_data v)
    /\ (forall v, is_nan v = false ->
          (set_member v s = true
           <-> exists m v', In (JObject m) response_data
                            /\ m !! id_field = Some v' /\ py_eq v v' = true))
    /\ (set_member JNaN s = true
        <-> exists m, In (JObject m) response_data /\ m !! id_field = Some JNaN)
    /\ (forall x, In x s ->
                  exists m, In (JObject m) response_data /\ m !! id_field = Some x).
Proof.
  intros Hdata.
  destruct (extract_ids_spec id_field response_data Hdata) as (s & Hs & Hmem & Hfrom).
  exists s. split; [exact Hs|]. split; [exact Hmem|]. split; [|split; [|exact Hfrom]].
  - intros v Hv. rewrite Hmem. unfold occurs. split.
    + intros (m & v' & Hin & Hm & Heq). exists m, v'.
      rewrite (PyJsonFacts.same_member_eq v v' Hv) in Heq. auto.
    + intros (m & v' & Hin & Hm & Heq). exists m, v'.
      rewrite (PyJsonFacts.same_member_eq v v' Hv). auto.
  - rewrite Hmem. unfold occurs. split.
    + intros (m & v' & Hin & Hm & Heq). exists m. split; [exact Hin|].
      destruct v'; try discriminate Heq. exact Hm.
    + intros (m & Hin & Hm). exists m, JNaN. auto.
Qed.

Lemma hashable_at field data m x :
  dicts_with_hashable field data -> In (JObject m) data -> m !! field = Some x ->
  hashable x = true.
Proof.
  intros Hdata Hin Hm. unfold dicts_with_hashable in Hdata.
  rewrite List.Forall_forall in Hdata.
  destruct (Hdata _ Hin) as (m' & Heq & Hhash). injection Heq as <-. eauto.
Qed.

(** The sets of two fields intersect exactly when the fields are related. *)
Lemma sets_intersect field1 data1 field2 data2 s1 s2 :
  dicts_with_hashable field1 data1 -> dicts_with_hashable field2 data2 ->
  extract_ids_from_response data1 field1 = Returns s1 ->
  extract_ids_from_response data2 field2 = Returns s2 ->
  (0 <? length (set_inter s1 s2))%nat = true
  <-> related field1 data1 field2 data2.
Proof.
  intros H1 H2 E1 E2.
  destruct (extract_from_spec field1 data1 H1 []) as (s1' & E1' & Hmem1 & Hfrom1).
  destruct (extract_from_spec field2 data2 H2 []) as (s2' & E2' & Hmem2 & Hfrom2).
  unfold extract_ids_from_response in E1, E2.
  assert (s1' = s1) by congruence. assert (s2' = s2) by congruence. subst s1' s2'.
  rewrite PyJsonFacts.set_inter_nonempty. split.
  - intros (x & Hin & Hx).
    destruct (Hfrom1 x Hin) as [[]|(m1 & Hin1 & Hm1)].
    apply Hmem2 in Hx as [Hx|(m2 & v2 & Hin2 & Hm2 & Heq)]; [discriminate|].
    exists m1, x, m2, v2. auto.
  - intros (m1 & v1 & m2 & v2 & Hin1 & Hm1 & Hin2 & Hm2 & Heq).
    assert (Hv1 : set_member v1 s1 = true).
    { apply Hmem1. right. exists m1, v1. repeat split; auto.
      apply PyJsonFacts.same_member_refl. exact (hashable_at _ _ _ _ H1 Hin1 Hm1). }
    apply existsb_exists in Hv1 as (y & Hy & Hv1y).
    exists y. split; [exact Hy|]. apply Hmem2. right.
    exists m2, v2. repeat split; auto.
    apply (PyJsonFacts.same_member_trans y v1 v2); [|exact Heq].
    rewrite PyJsonFacts.same_member_sym. exact Hv1y.
Qed.

(** X19. _test_jsonplaceholder_relationships on lists of dicts with
    hashable identifiers: it returns exactly when some post's "id" and
    some comment's "postId" are one member of a set, and some user's "id"
    and some post's "userId" are; to be one member is to be equal (==)
    or, for NaN, which equals nothing, to be NaN both; otherwise it
    raises AssertionError; it sends no request. *)
Theorem relationships_verdict (posts_data comments_data users_data : list json)
  (w : world) :
  dicts_with_hashable "id" posts_data ->
  dicts_with_hashable "postId" comments_data ->
  dicts_with_hashable "id" users_data ->
  dicts_with_hashable "userId" posts_data ->
  let out := _test_jsonplaceholder_relationships posts_data comments_data users_data w in
  snd out = w
  /\ (fst out = Returns tt \/ fst out = Raises AssertionError)
  /\ (fst out = Returns tt
      <-> related "id" posts_data "postId" comments_data
          /\ related "id" users_data "userId" posts_data).
Proof.
  intros Hp Hc Hu Hpu out. subst out.
  unfold _test_jsonplaceholder_relationships.
  destruct (extract_ids_spec "id" posts_data Hp) as (s1 & E1 & _).
  destruct (extract_ids_spec "postId" comments_data Hc) as (s2 & E2 & _).
  destruct (extract_ids_spec "id" users_data Hu) as (s3 & E3 & _).
  destruct (extract_ids_spec "userId" posts_data Hpu) as (s4 & E4 & _).
  pose proof (sets_intersect _ _ _ _ _ _ Hp Hc E1 E2) as Hposts.
  pose proof (sets_intersect _ _ _ _ _ _ Hu Hpu E3 E4) as Husers.
  unfold bind, lift, assert, ret, raise. rewrite E1, E2, E3, E4.
  destruct (0 <? length (set_inter s1 s2))%nat;
    destruct (0 <? length (set_inter s3 s4))%nat; cbn [fst snd];
    (split; [reflexivity|]); (split; [auto|]).
  - split; [intros _|reflexivity]. split; [apply Hposts | apply Husers]; reflexivity.
  - split; [discriminate|]. intros [_ H]. apply Husers in H. discriminate.
  - split; [discriminate|]. intros [H _]. apply Hposts in H. discriminate.
  - split; [discriminate|]. intros [H _]. apply Hposts in H. discriminate.
Qed.

(** *** A network that fails only with Exceptions *)

Section Benign.
Variable fresh_session : Registry.Session.
Variable transport : list request -> request -> result Response.
Hypothesis network : benign_transport transport.

Lemma yields_ret {A : Type} (P : A -> Prop) a : P a -> yields P (ret a).
Proof. intros H w. exact H. Qed.

Lemma yields_raise {A : Type} (P : A -> Prop) e :
  is_Exception e = true -> yields P (@raise A e).
Proof. intros H w. exact H. Qed.

Lemma yields_lift {A : Type} (r : result A) :
  raises_only_Exception r -> yields (fun _ => True) (lift r).
Proof. intros H w. cbn. destruct r; [exact I | exact H]. Qed.

Lemma yields_assert cond : yields (fun _ => True) (assert cond).
Proof. intros w. unfold assert. destruct cond; cbn; auto. Qed.

Lemma yields_bind {A B : Type} (P : A -> Prop) (Q : B -> Prop) (c : M A)
  (k : A -> M B) :
  yields P c -> (forall a, P a -> yields Q (k a)) -> yields Q (bind c k).
Proof.
  intros Hc Hk w. unfold bind. specialize (Hc w).
  destruct (c w) as [[a|e] w1]; cbn [fst] in *.
  - exact (Hk a Hc w1).
  - exact Hc.
Qed.

Lemma yields_request method target session kwargs :
  yields (fun response => raises_only_Exception (body response))
    (Api.make_api_request fresh_session transport method target session kwargs).
Proof.
  intros w. unfold Api.make_api_request.
  destruct (match session with
            | Some s => (s, registry w)
            | None => Registry.get_session fresh_session "default" None (registry w)
            end) as [s reg].
  cbn [fst]. apply network.
Qed.

Lemma yields_get_session name hdrs :
  yields (fun _ => True) (get_session fresh_session name hdrs).
Proof.
  intros w. unfold get_session.
  destruct (Registry.get_session fresh_session name hdrs (registry w)). exact I.
Qed.

Lemma py_in_benign key item : raises_only_Exception (py_in key item).
Proof. destruct item; cbn; auto. Qed.

Lemma py_getitem_benign key item : raises_only_Exception (py_getitem key item).
Proof. destruct item; cbn; auto. destruct (m !! key); cbn; auto. Qed.

Lemma slice_items_benign data limit : raises_only_Exception (slice_items data limit).
Proof. destruct data; cbn; auto. Qed.

Lemma all_fields_in_benign fields item :
  raises_only_Exception (all_fields_in fields item).
Proof.
  induction fields as [|f rest IH]; cbn [all_fields_in]; [exact I|].
  pose proof (py_in_benign f item) as H.
  destruct (py_in f item) as [[|]|e]; cbn in *; auto.
Qed.

Lemma all_items_have_benign fields items :
  raises_only_Exception (all_items_have fields items).
Proof.
  induction items as [|item rest IH]; cbn [all_items_have]; [exact I|].
  pose proof (all_fields_in_benign fields item) as H.
  destruct (all_fields_in fields item) as [[|]|e]; cbn in *; auto.
Qed.

Lemma extract_ids_benign data field : forall acc,
  raises_only_Exception (extract_ids_from acc data field).
Proof.
  induction data as [|item rest IH]; intros acc; cbn [extract_ids_from]; [exact I|].
  pose proof (py_in_benign field item) as H1.
  destruct (py_in field item) as [[|]|e]; cbn in *; auto.
  pose proof (py_getitem_benign field item) as H2.
  destruct (py_getitem field item) as [v|e]; cbn in *; auto.
  destruct (hashable v); cbn; auto.
Qed.

Lemma validate_json_schema_benign data s :
  raises_only_Exception (validate_json_schema data s).
Proof. unfold validate_json_schema. destruct (valid s data); cbn; auto. Qed.

(** Goes through a sequence of steps. *)
Ltac benign_steps :=
  repeat first
    [ apply yields_assert
    | apply yields_ret; exact I
    | apply yields_raise; reflexivity
    | apply yields_lift;
        first [ assumption | apply py_in_benign | apply py_getitem_benign
              | apply slice_items_benign | apply all_fields_in_benign
              | apply all_items_have_benign | apply extract_ids_benign
              | apply validate_json_schema_benign ]
    | eapply yields_bind; [apply yields_request | cbn beta; intros ? ? ]
    | eapply yields_bind;
        [ first [ apply yields_assert
                | apply yields_lift;
                    first [ assumption | apply py_in_benign | apply py_getitem_benign
                          | apply slice_items_benign | apply all_fields_in_benign
                          | apply all_items_have_benign | apply extract_ids_benign
                          | apply validate_json_schema_benign ] ]
        | cbn beta; intros ? _ ] ].

Lemma get_data_benign s endpoint limit :
  yields (fun _ => True)
    (_get_jsonplaceholder_data fresh_session transport s endpoint limit).
Proof.
  unfold _get_jsonplaceholder_data, assert_status_code_in_range.
  destruct (jsonplaceholder_endpoints !! endpoint); benign_steps.
Qed.

Lemma crud_benign s posts_data :
  yields (fun _ => True) (_test_jsonplaceholder_crud fresh_session transport s posts_data).
Proof. unfold _test_jsonplaceholder_crud, assert_status_code_in_range. benign_steps. Qed.

Lemma validate_benign posts_data :
  yields (fun _ => True) (_validate_jsonplaceholder_schemas posts_data).
Proof.
  intros w. rewrite validate_all. cbn [fst].
  destruct (forallb _ _); [exact I | reflexivity].
Qed.

Lemma relationships_benign posts comments users :
  yields (fun _ => True) (_test_jsonplaceholder_relationships posts comments users).
Proof.
  unfold _test_jsonplaceholder_relationships, extract_ids_from_response. benign_steps.
Qed.

Lemma negative_benign s :
  yields (fun _ => True) (_test_jsonplaceholder_negative_cases fresh_session transport s).
Proof.
  unfold _test_jsonplaceholder_negative_cases, assert_status_code_in_range.
  benign_steps.
Qed.

Lemma jsonplaceholder_benign :
  yields (fun _ => True) (test_jsonplaceholder_api fresh_session transport).
Proof.
  unfold test_jsonplaceholder_api.
  eapply yields_bind; [apply yields_get_session | intros s _].
  eapply yields_bind; [apply get_data_benign | intros posts _].
  eapply yields_bind; [apply get_data_benign | intros comments _].
  eapply yields_bind; [apply get_data_benign | intros users _].
  eapply yields_bind; [apply crud_benign | intros ? _].
  eapply yields_bind; [apply validate_benign | intros ? _].
  eapply yields_bind; [apply relationships_benign | intros ? _].
  apply negative_benign.
Qed.

Lemma validate_user_list_benign users :
  yields (fun _ => True) (validate_user_list users).
Proof.
  induction users as [|user rest IH]; cbn [validate_user_list].
  - apply yields_ret. exact I.
  - eapply yields_bind; [|intros ? _; exact IH].
    destruct user;
      first [ apply yields_raise; reflexivity
            | apply yields_lift; apply validate_json_schema_benign ].
Qed.

Lemma validate_users_benign data : yields (fun _ => True) (validate_users data).
Proof.
  unfold validate_users. destruct data;
    try (apply yields_raise; reflexivity).
  - destruct (String.eqb s ""); [apply yields_ret; exact I | apply yields_raise; reflexivity].
  - apply validate_user_list_benign.
  - destruct (bool_decide (m = ∅));
      [apply yields_ret; exact I | apply yields_raise; reflexivity].
Qed.

Lemma users_benign s :
  yields (fun _ => True) (_test_reqres_users fresh_session transport s).
Proof.
  unfold _test_reqres_users, assert_status_code_in_range.
  repeat first
    [ apply yields_assert
    | eapply yields_bind; [apply yields_request | cbn beta; intros ? ? ]
    | eapply yields_bind; [apply validate_users_benign | cbn beta; intros ? _ ]
    | eapply yields_bind;
        [ first [ apply yields_assert
                | apply yields_lift;
                    first [ assumption | apply py_in_benign | apply py_getitem_benign
                          | apply all_fields_in_benign ] ]
        | cbn beta; intros ? _ ] ].
Qed.

Lemma authentication_benign s :
  yields (fun _ => True) (_test_reqres_authentication fresh_session transport s).
Proof.
  unfold _test_reqres_authentication, assert_status_code_in_range. benign_steps.
Qed.

Lemma rate_limiting_benign s :
  yields (fun _ => True) (_test_reqres_rate_limiting transport s).
Proof.
  intros w. unfold _test_reqres_rate_limiting.
  destruct (ProbeFacts.run_trace_by_iteration
              (fun i => to_probe (transport (sent w ++ repeat (probe_request s) i)
                                    (probe_request s)))) as [c Hc].
  - intros i e. unfold to_probe.
    pose proof (network (sent w ++ repeat (probe_request s) i) (probe_request s)) as H.
    destruct (transport _ _); [discriminate|]. intros [= <-]. exact H.
  - rewrite Hc. exact I.
Qed.

Lemma reqres_benign :
  yields (fun _ => True) (test_reqres_api fresh_session transport).
Proof.
  unfold test_reqres_api.
  eapply yields_bind; [apply yields_get_session | intros s _].
  eapply yields_bind; [apply users_benign | intros ? _].
  eapply yields_bind; [apply authentication_benign | intros ? _].
  apply rate_limiting_benign.
Qed.

End Benign.

Lemma as_scenario_benign (c : M unit) m :
  yields (fun _ => True) c -> raises_only_Exception (fst (as_scenario c m)).
Proof.
  intros H. unfold as_scenario. specialize (H (start m)). unfold start in H.
  destruct (c _) as [[u|e] w']; cbn in *; auto.
Qed.

Lemma get_data_at_most_limit_witness :
  fst (_get_jsonplaceholder_data Registry.library_session mock_server 0 "posts" 1
         (start Registry.initial))
  = Returns (firstn 1 [sample_post 1; sample_post 2]).
Proof.
  refine (proj2 (proj1 (proj2 (get_data_at_most_limit Registry.library_session
                                 mock_server 0 "posts" 1 (start Registry.initial)))
                   "/posts"
                   {| status_code := 200; headers := ∅;
                      body := Returns (JArray [sample_post 1; sample_post 2]) |}
                   eq_refl _)
            [sample_post 1; sample_post 2] eq_refl eq_refl).
  vm_compute. reflexivity.
Defined.

Lemma validate_schemas_all_or_error_witness :
  fst (_validate_jsonplaceholder_schemas [sample_post 1; sample_post 2]
         (start Registry.initial)) = Returns tt.
Proof.
  apply (proj1 (proj2 (validate_schemas_all_or_error [sample_post 1; sample_post 2]
                         (start Registry.initial)))).
  intros post [<-|[<-|[]]]; vm_compute; reflexivity.
Defined.

Lemma crud_deletes_what_it_created_witness :
  exists created m id,
    mock_server [] (built "POST" (Literal posts_url) 0 (json_kw VALID_POST_PAYLOAD))
    = Returns created
    /\ body created = Returns (JObject m)
    /\ m !! "id" = Some id
    /\ sent (snd (_test_jsonplaceholder_crud Registry.library_session mock_server 0
                    [sample_post 1] (start Registry.initial)))
       = [built "POST" (Literal posts_url) 0 (json_kw VALID_POST_PAYLOAD);
          built "PUT" (Literal (posts_url ++ "/1")) 0 (json_kw update_post_payload);
          built "DELETE" (Formatted posts_url id) 0 ∅].
Proof.
  apply (crud_deletes_what_it_created Registry.library_session mock_server 0
           [sample_post 1] (start Registry.initial)).
  vm_compute. reflexivity.
Defined.

Lemma sample_dicts field (items : list json) :
  forallb (fun item => match item with
                       | JObject m => match m !! field with
                                      | Some v => hashable v
                                      | None => true
                                      end
                       | _ => false
                       end) items = true ->
  dicts_with_hashable field items.
Proof.
  intros H. rewrite forallb_forall in H. apply List.Forall_forall.
  intros item Hin. specialize (H item Hin).
  destruct item; try discriminate. exists m. split; [reflexivity|].
  intros v Hv. rewrite Hv in H. exact H.
Qed.

Lemma extract_ids_membership_witness :
  exists s,
    extract_ids_from_response [sample_post 1; sample_user; sample_post 2] "userId"
    = Returns s
    /\ (forall v, set_member v s = true
                  <-> occurs "userId" [sample_post 1; sample_user; sample_post 2] v).
Proof.
  destruct (extract_ids_membership "userId"
              [sample_post 1; sample_user; sample_post 2])
    as (s & Hs & Hmem & _).
  { apply sample_dicts. vm_compute. reflexivity. }
  exists s. split; [exact Hs | exact Hmem].
Defined.

(** Posts and comments whose identifiers are NaN pass the check of
    relationships, although no identifier equals another. *)
Example nan_identifiers_relate :
  fst (_test_jsonplaceholder_relationships [nan_post] [nan_comment]
         [sample_user] (start Registry.initial)) = Returns tt
  /\ py_eq JNaN JNaN = false.
Proof. split; reflexivity. Qed.

Lemma relationships_verdict_witness :
  fst (_test_jsonplaceholder_relationships [sample_post 1; sample_post 2]
         [sample_comment] [sample_user] (start Registry.initial)) = Returns tt
  <-> related "id" [sample_post 1; sample_post 2] "postId" [sample_comment]
      /\ related "id" [sample_user] "userId" [sample_post 1; sample_post 2].
Proof.
  apply (relationships_verdict [sample_post 1; sample_post 2] [sample_comment]
           [sample_user] (start Registry.initial));
    apply sample_dicts; vm_compute; reflexivity.
Defined.

Lemma reqres_scenario_script_witness :
  length (sent (snd (test_reqres_api Registry.library_session mock_server
                       (start Registry.initial)))) = 109%nat.
Proof.
  refine (proj2 (proj1 (proj2 (proj2 (reqres_scenario_script
                                        Registry.library_session mock_server
                                        Registry.initial))) _)).
  vm_compute. reflexivity.
Defined.

Lemma jsonplaceholder_scenario_script_witness :
  map method
    (sent (snd (test_jsonplaceholder_api Registry.library_session mock_server
                  (start Registry.initial))))
  = ["GET"; "GET"; "GET"; "POST"; "PUT"; "DELETE"; "GET"; "POST"; "PUT"].
Proof.
  refine (proj1 (proj2 (proj2 (jsonplaceholder_scenario_script
                                 Registry.library_session mock_server
                                 Registry.initial))) _).
  vm_compute. reflexivity.
Defined.

Lemma make_api_request_timeout_witness :
  exists req,
    sent (snd (Api.make_api_request Registry.library_session mock_server "GET"
                 (Literal posts_url) None ∅ (start Registry.initial))) = [req]
    /\ kwargs req !! "timeout" = Some (JArray [JInt 5; JInt 30]).
Proof.
  destruct (make_api_request_timeout Registry.library_session mock_server "GET"
              (Literal posts_url) None ∅ (start Registry.initial))
    as (req & Hsent & _ & _ & _ & _ & _ & Hdefault).
  exists req. split; [exact Hsent|]. exact (proj1 (Hdefault eq_refl)).
Defined.

Lemma make_api_request_session_witness :
  registry (snd (Api.make_api_request Registry.library_session mock_server "GET"
                   (Literal posts_url) (Some 0%nat) ∅ (start Registry.sample_manager)))
  = Registry.sample_manager.
Proof.
  exact (proj1 (proj1 (make_api_request_session Registry.library_session mock_server
                         "GET" (Literal posts_url) ∅ (start Registry.sample_manager))
                  0%nat)).
Defined.

Example jsonplaceholder_against_mock :
  let out := test_jsonplaceholder_api Registry.library_session mock_server
               (start Registry.initial) in
  fst out = Returns tt
  /\ map method (sent (snd out))
     = ["GET"; "GET"; "GET"; "POST"; "PUT"; "DELETE"; "GET"; "POST"; "PUT"].
Proof. vm_compute. split; reflexivity. Qed.

Example reqres_against_mock :
  let out := test_reqres_api Registry.library_session mock_server
               (start Registry.initial) in
  fst out = Returns tt /\ length (sent (snd out)) = 109%nat.
Proof. vm_compute. split; reflexivity. Qed.

End ApiFacts.

(** ** The orchestrator with the scenarios of the source *)

Module SourceRun.

Lemma counts_add_up (obs : list (result unit)) :
  Orchestrator.successes obs + Orchestrator.failures obs = Z.of_nat (length obs)
  /\ 0 <= Orchestrator.successes obs /\ 0 <= Orchestrator.failures obs.
Proof.
  unfold Orchestrator.successes, Orchestrator.failures, Orchestrator.raised.
  induction obs as [|r rest IH]; [cbn; lia|].
  cbn [List.filter length]. destruct (Orchestrator.returned r); cbn [negb length]; lia.
Qed.

Lemma observe_length test_functions : forall m,
  length (Orchestrator.observe test_functions m) = length test_functions.
Proof.
  induction test_functions as [|t rest IH]; intros m; cbn [Orchestrator.observe];
    [reflexivity|].
  destruct (t m) as [r m1]. cbn [length]. f_equal. apply IH.
Qed.

(** The scenario loop prints nothing but its own two kinds of lines. *)
Lemma run_scenarios_events test_functions : forall k s f m ev,
  In ev (snd (Orchestrator.run_scenarios k test_functions s f m)) ->
  (exists j, ev = Orchestrator.CallScenario j)
  \/ (exists j e, ev = Orchestrator.PrintFailed j e).
Proof.
  induction test_functions as [|t rest IH]; intros k s f m ev;
    cbn [Orchestrator.run_scenarios].
  - intros [].
  - destruct (t m) as [[[]|e] m1].
    + specialize (IH (S k) (s + 1) f m1 ev).
      destruct (Orchestrator.run_scenarios (S k) rest (s + 1) f m1) as [[r m2] tr].
      cbn [snd] in *. intros [<-|Hin]; eauto.
    + destruct (is_Exception e).
      * specialize (IH (S k) s (f + 1) m1 ev).
        destruct (Orchestrator.run_scenarios (S k) rest s (f + 1) m1) as [[r m2] tr].
        cbn [snd] in *. intros [<-|[<-|Hin]]; eauto.
      * cbn [snd]. intros [<-|[]]; eauto.
Qed.

(** X20. run_all_api_tests with the two scenario functions of the source,
    on a network that fails only with Exceptions and with closes that fail
    only with Exceptions: it returns; both scenarios are called, the
    second also when the first failed; exactly one report is printed and
    its numbers of passed and failed tests add up to 2, so the success
    rate never divides by zero and the critical-error branch is never
    taken; afterwards the registry is empty. *)
Theorem source_scenarios_report (fresh_session : Registry.Session)
  (network1 network2 : list Api.request -> Api.request -> result Api.Response)
  (close : nat -> result unit) (m : Registry.manager) :
  Api.benign_transport network1 -> Api.benign_transport network2 ->
  (forall id e, close id = Raises e -> is_Exception e = true) ->
  let out :=
    Orchestrator.run_all_api_tests
      (Api.test_functions fresh_session network1 network2) close m in
  fst (fst out) = Returns tt
  /\ Orchestrator.scenarios_called (snd out) = [0; 1]%nat
  /\ (exists s f, Orchestrator.reports (snd out) = [(s, f)]
                  /\ 0 <= s /\ 0 <= f /\ s + f = 2)
  /\ (forall e, ~ In (Orchestrator.PrintCritical e) (snd out))
  /\ Registry._sessions (snd (fst out)) = [].
Proof.
  intros H1 H2 Hclose out. subst out.
  set (tfs := Api.test_functions fresh_session network1 network2).
  assert (Hobs : Forall raises_only_Exception (Orchestrator.observe tfs m)).
  { subst tfs. unfold Api.test_functions. cbn [Orchestrator.observe].
    pose proof (ApiFacts.as_scenario_benign
                  (Api.test_jsonplaceholder_api fresh_session network1) m
                  (ApiFacts.jsonplaceholder_benign fresh_session network1 H1)) as Ha.
    destruct (Api.as_scenario _ m) as [r1 m1]. cbn [fst] in Ha.
    pose proof (ApiFacts.as_scenario_benign
                  (Api.test_reqres_api fresh_session network2) m1
                  (ApiFacts.reqres_benign fresh_session network2 H2)) as Hb.
    destruct (Api.as_scenario _ m1) as [r2 m2]. cbn [fst] in Hb.
    apply List.Forall_cons; [exact Ha|].
    apply List.Forall_cons; [exact Hb|]. apply List.Forall_nil. }
  pose proof (counts_add_up (Orchestrator.observe tfs m)) as (Hsum & Hs & Hf).
  rewrite observe_length in Hsum. change (length tfs) with 2%nat in Hsum.
  pose proof (OrchestratorFacts.run_scenarios_counts tfs 0 0 0 m Hobs)
    as (Hr & Hcalled & _).
  pose proof (OrchestratorFacts.run_scenarios_quiet tfs 0 0 0 m) as [_ Hq].
  pose proof (run_scenarios_events tfs 0 0 0 m) as Hev.
  unfold Orchestrator.run_all_api_tests.
  destruct (Orchestrator.run_scenarios 0 tfs 0 0 m) as [[r m1] tr0].
  cbn [fst snd] in Hr, Hcalled, Hq, Hev. subst r.
  rewrite !Z.add_0_l.
  destruct (OrchestratorFacts.teardown_returns close m1 Hclose) as [Hrc Hempty].
  destruct (OrchestratorFacts.teardown_trace close m1) as (_ & Ht2 & Ht3 & _).
  pose proof (OrchestratorFacts.teardown_prints_no_critical close m1) as Ht4.
  destruct (Orchestrator.teardown close m1) as [[rc m2] tr3].
  cbn [fst snd] in Hrc, Hempty, Ht2, Ht3, Ht4. subst rc.
  unfold Orchestrator.report.
  replace (Orchestrator.successes (Orchestrator.observe tfs m)
           + Orchestrator.failures (Orchestrator.observe tfs m) =? 0)%Z
    with false by (symmetry; apply Z.eqb_neq; lia).
  cbn [fst snd].
  rewrite !OrchestratorFacts.scenarios_called_app, !OrchestratorFacts.reports_app,
    Hcalled, Hq, Ht2, Ht3.
  split; [reflexivity|]. split; [reflexivity|]. split; [|split; [|exact Hempty]].
  - eexists _, _. split; [reflexivity|]. repeat split; [exact Hs | exact Hf | lia].
  - intros e Hin. apply in_app_or in Hin as [Hin|Hin].
    + apply in_app_or in Hin as [Hin|Hin].
      * destruct (Hev _ Hin) as [(j & Hj)|(j & e' & Hj)]; discriminate.
      * destruct Hin as [Hin|[Hin|[]]]; discriminate.
    + exact (Ht4 e Hin).
Qed.

Lemma source_scenarios_report_witness :
  let out :=
    Orchestrator.run_all_api_tests
      (Api.test_functions Registry.library_session Api.mock_server Api.no_network)
      Orchestrator.close_ok Registry.initial in
  fst (fst out) = Returns tt
  /\ Orchestrator.scenarios_called (snd out) = [0; 1]%nat
  /\ (exists s f, Orchestrator.reports (snd out) = [(s, f)]
                  /\ 0 <= s /\ 0 <= f /\ s + f = 2)
  /\ (forall e, ~ In (Orchestrator.PrintCritical e) (snd out))
  /\ Registry._sessions (snd (fst out)) = [].
Proof.
  apply source_scenarios_report.
  - intros history req. unfold Api.mock_server, Api.respond, Api.no_content.
    destruct (Api.target req);
      repeat match goal with
             | |- context [if ?b then _ else _] => destruct b
             end;
      try destruct (Api.earlier _ _ _); cbn; auto.
  - intros history req. reflexivity.
  - intros id e. discriminate.
Defined.

End SourceRun.

(** ** Schemas: exactly what is accepted *)

Module SchemaExact.
Import Schema SchemaShapes Fixtures.

Lemma valid_object type properties required additionalProperties m :
  valid (MkSchema (Some type) properties required additionalProperties None None)
    (JObject m)
  = has_type type (JObject m)
    && members_ok properties m
    && check_required required (JObject m)
    && check_additional additionalProperties properties (JObject m).
Proof.
  cbn [valid check_type check_minimum check_minLength]. rewrite !andb_true_r.
  f_equal. f_equal. f_equal. unfold members_ok.
  induction properties as [|[k sub] rest IH]; [reflexivity|].
  cbn [forallb fst snd]. rewrite <- IH. reflexivity.
Qed.

Lemma valid_scalar type minimum minLength v :
  valid (scalar type minimum minLength) v
  = has_type type v && check_minimum minimum v && check_minLength minLength v.
Proof.
  unfold scalar. cbn [valid check_type].
  assert (H1 : check_required [] v = true) by (destruct v; reflexivity).
  assert (H2 : check_additional true [] v = true) by (destruct v; reflexivity).
  rewrite H1, H2, !andb_true_r. reflexivity.
Qed.

Lemma integer_from_1_valid v :
  valid (scalar TInteger (Some 1) None) v = true <-> integer_from_1 v.
Proof.
  rewrite valid_scalar.
  destruct v; cbn; try (split; [discriminate | tauto]).
  - rewrite andb_true_r. apply Z.leb_le.
  - rewrite andb_true_r. apply andb_true_iff.
Qed.

Lemma nonempty_string_valid v :
  valid (scalar TString None (Some 1%nat)) v = true <-> nonempty_string v.
Proof.
  rewrite valid_scalar.
  destruct v; cbn; try (split; [discriminate | tauto]).
  destruct s; cbn; split; congruence.
Qed.

Lemma required_all required m :
  check_required required (JObject m) = true
  <-> forall k, In k required -> is_Some (m !! k).
Proof.
  unfold check_required. rewrite forallb_forall. split.
  - intros H k Hk. specialize (H k Hk). apply bool_decide_eq_true in H. exact H.
  - intros H k Hk. apply bool_decide_eq_true. auto.
Qed.

Lemma no_additional properties m :
  check_additional false properties (JObject m) = true
  <-> forall k, is_Some (m !! k) -> In k (map fst properties).
Proof.
  unfold check_additional. cbn [orb]. rewrite forallb_forall. split.
  - intros H k [v Hv]. apply SchemaFacts.declared_In. apply H.
    apply (in_map fst _ (k, v)).
    apply list_elem_of_In, elem_of_map_to_list. exact Hv.
  - intros H k Hk. apply SchemaFacts.declared_In.
    apply in_map_iff in Hk as ([k' v] & <- & Hin).
    apply H. exists v. apply elem_of_map_to_list, list_elem_of_In. exact Hin.
Qed.

Lemma not_object_invalid properties required additionalProperties d :
  (forall m, d <> JObject m) ->
  valid (MkSchema (Some TObject) properties required additionalProperties None None) d
  = false.
Proof.
  intros H. cbn [valid check_type]. destruct d; cbn [has_type andb]; try reflexivity.
  destruct (H m eq_refl).
Qed.

(** X21. The post schema accepts a document exactly when it is an object
    whose members are userId, id, title and body and nothing else, with
    userId and id integers of at least 1 (a float with a whole value
    counts, a bool does not) and title and body non-empty strings. *)
Theorem post_schema_exact (d : json) :
  valid JSONPLACEHOLDER_POST_SCHEMA d = true
  <-> exists m u i t b,
        d = JObject m
        /\ m !! "userId" = Some u /\ m !! "id" = Some i
        /\ m !! "title" = Some t /\ m !! "body" = Some b
        /\ integer_from_1 u /\ integer_from_1 i
        /\ nonempty_string t /\ nonempty_string b
        /\ (forall k, is_Some (m !! k) -> In k ["userId"; "id"; "title"; "body"]).
Proof.
  unfold JSONPLACEHOLDER_POST_SCHEMA.
  destruct d as [| | | | | |m| |];
    try (rewrite not_object_invalid by discriminate;
         split; [discriminate | intros (? & ? & ? & ? & ? & Hd & _); discriminate]).
  rewrite valid_object. cbn [has_type andb].
  rewrite !andb_true_iff, required_all, no_additional.
  unfold members_ok. cbn [forallb fst snd map]. rewrite !andb_true_iff.
  split.
  - intros [[(Hu & Hi & Ht & Hb & _) Hreq] Hadd].
    destruct (Hreq "userId") as [u Eu]; [cbn; tauto|].
    destruct (Hreq "id") as [i Ei]; [cbn; tauto|].
    destruct (Hreq "title") as [t Et]; [cbn; tauto|].
    destruct (Hreq "body") as [b Eb]; [cbn; tauto|].
    rewrite Eu in Hu. rewrite Ei in Hi. rewrite Et in Ht. rewrite Eb in Hb.
    exists m, u, i, t, b.
    repeat split; auto;
      first [apply integer_from_1_valid | apply nonempty_string_valid]; assumption.
  - intros (m' & u & i & t & b & Hd & Eu & Ei & Et & Eb & Hu & Hi & Ht & Hb & Hadd).
    injection Hd as <-. rewrite Eu, Ei, Et, Eb.
    repeat split; auto;
      try first [apply integer_from_1_valid | apply nonempty_string_valid]; auto.
    intros k [<-|[<-|[<-|[<-|[]]]]]; eauto.
Qed.

Lemma post_schema_exact_witness :
  valid JSONPLACEHOLDER_POST_SCHEMA (JObject (post 3 7 "t" "b")) = true.
Proof.
  apply post_schema_exact.
  exists (post 3 7 "t" "b"), (JInt 3), (JInt 7), (JString "t"), (JString "b").
  repeat split; try reflexivity; try (cbn; lia); try discriminate.
  intros k [v Hv].
  destruct (String.eqb_spec k "userId") as [->|N1]; [cbn; tauto|].
  destruct (String.eqb_spec k "id") as [->|N2]; [cbn; tauto|].
  destruct (String.eqb_spec k "title") as [->|N3]; [cbn; tauto|].
  destruct (String.eqb_spec k "body") as [->|N4]; [cbn; tauto|].
  unfold post in Hv. rewrite !lookup_insert_ne in Hv by congruence.
  rewrite lookup_empty in Hv. discriminate.
Defined.

Lemma is_type_valid type v : valid (scalar type None None) v = has_type type v.
Proof.
  rewrite valid_scalar. cbn [check_minimum check_minLength]. rewrite !andb_true_r.
  reflexivity.
Qed.

(** X22. The ReqRes user schema (its format keywords assert nothing, as
    validate is called without a format checker) accepts a document
    exactly when it is an object with an integer id and string email,
    first_name and last_name, whose avatar, if present, is a string;
    members beyond these are allowed. *)
Theorem user_schema_exact (d : json) :
  valid REQRES_USER_SCHEMA d = true
  <-> exists m i e f l,
        d = JObject m
        /\ m !! "id" = Some i /\ m !! "email" = Some e
        /\ m !! "first_name" = Some f /\ m !! "last_name" = Some l
        /\ is_integer i /\ is_string e /\ is_string f /\ is_string l
        /\ (forall a, m !! "avatar" = Some a -> is_string a).
Proof.
  unfold REQRES_USER_SCHEMA.
  destruct d as [| | | | | |m| |];
    try (rewrite not_object_invalid by discriminate;
         split; [discriminate | intros (? & ? & ? & ? & ? & Hd & _); discriminate]).
  rewrite valid_object. cbn [has_type andb check_additional orb].
  rewrite andb_true_r, !andb_true_iff, required_all.
  unfold members_ok. cbn [forallb fst snd]. rewrite !andb_true_iff.
  unfold is_integer, is_string. split.
  - intros [(Hi & He & Hf & Hl & Ha & _) Hreq].
    destruct (Hreq "id") as [i Ei]; [cbn; tauto|].
    destruct (Hreq "email") as [e Ee]; [cbn; tauto|].
    destruct (Hreq "first_name") as [f Ef]; [cbn; tauto|].
    destruct (Hreq "last_name") as [l El]; [cbn; tauto|].
    rewrite Ei, is_type_valid in Hi. rewrite Ee, is_type_valid in He.
    rewrite Ef, is_type_valid in Hf. rewrite El, is_type_valid in Hl.
    exists m, i, e, f, l. repeat split; auto.
    intros a Ea. rewrite Ea, is_type_valid in Ha. exact Ha.
  - intros (m' & i & e & f & l & Hd & Ei & Ee & Ef & El & Hi & He & Hf & Hl & Ha).
    injection Hd as <-. rewrite Ei, Ee, Ef, El, !is_type_valid.
    repeat split; auto.
    + destruct (m !! "avatar") as [a|] eqn:Ea; [|reflexivity].
      rewrite is_type_valid. apply Ha. reflexivity.
    + intros k [<-|[<-|[<-|[<-|[]]]]]; eauto.
Qed.

Lemma user_schema_exact_witness :
  valid REQRES_USER_SCHEMA Api.reqres_user = true.
Proof.
  apply user_schema_exact. unfold Api.reqres_user.
  eexists _, (JInt 7), (JString _), (JString _), (JString _).
  split; [reflexivity|].
  repeat split; try reflexivity.
  intros a Ha. vm_compute in Ha. injection Ha as <-. reflexivity.
Defined.

End SchemaExact.

(** ** Browser lifecycle *)

Module WebFacts.
Import Web.

Lemma started_app tr1 tr2 : started (tr1 ++ tr2) = started tr1 ++ started tr2.
Proof. apply flat_map_app. Qed.

Lemma launched_app tr1 tr2 : launched (tr1 ++ tr2) = launched tr1 ++ launched tr2.
Proof. apply flat_map_app. Qed.

Lemma quits_app tr1 tr2 : quits (tr1 ++ tr2) = quits tr1 ++ quits tr2.
Proof. apply flat_map_app. Qed.

Lemma runs_app tr1 tr2 : runs (tr1 ++ tr2) = runs tr1 ++ runs tr2.
Proof. apply flat_map_app. Qed.

Lemma counts_app tr1 tr2 : counts (tr1 ++ tr2) = counts tr1 ++ counts tr2.
Proof. apply flat_map_app. Qed.

Section WithBrowser.

Variables options chrome fallback configure quit : nat -> result unit.

#[local] Abbreviation start := (start_browser options chrome fallback).
#[local] Abbreviation create := (_create_driver options chrome fallback configure).
#[local] Abbreviation get := (get_driver options chrome fallback configure).
#[local] Abbreviation test := (web_test options chrome fallback configure quit).
#[local] Abbreviation loop := (run_tests options chrome fallback configure quit).
#[local] Abbreviation suite := (run_all_web_tests options chrome fallback configure quit).

(** *** _create_driver *)

Lemma start_browser_returns n d : start n = Returns d -> d = n.
Proof.
  unfold start_browser. intros H.
  destruct (options n) as [[]|eo]; [|discriminate].
  destruct (chrome n) as [[]|ec]; [congruence|].
  destruct (is_Exception ec); [|discriminate].
  destruct (fallback n) as [[]|ef]; [congruence|].
  destruct (is_Exception ef); discriminate.
Qed.

Lemma start_browser_raises n e :
  start n = Raises e ->
  options n = Raises e \/ chrome n = Raises e
  \/ (fallback n = Raises e /\ is_Exception e = false).
Proof.
  unfold start_browser. intros H.
  destruct (options n) as [[]|eo]; [|left; congruence].
  right.
  destruct (chrome n) as [[]|ec]; [discriminate|].
  destruct (is_Exception ec) eqn:Hec; [|left; congruence].
  destruct (fallback n) as [[]|ef]; [discriminate|].
  destruct (is_Exception ef) eqn:Hef.
  - left. congruence.
  - right. injection H as <-. auto.
Qed.

(** _create_driver returns exactly when a browser was started and its
    timeouts could be set. *)
Lemma create_driver_returns n d :
  create n = Returns d <-> start n = Returns d /\ configured configure d = true.
Proof.
  unfold _create_driver, configured. destruct (start n) as [d0|e].
  - destruct (configure d0) as [[]|ec] eqn:Hc; split.
    + intros [= <-]. rewrite Hc. auto.
    + intros [[= <-] _]. reflexivity.
    + discriminate.
    + intros [[= <-] H]. rewrite Hc in H. discriminate.
  - split; [discriminate | intros [H _]; discriminate].
Qed.

Lemma create_driver_number n d : create n = Returns d -> d = n.
Proof.
  intros H. apply create_driver_returns in H as [H _].
  exact (start_browser_returns n d H).
Qed.

Lemma create_driver_raises n e :
  create n = Raises e ->
  options n = Raises e \/ chrome n = Raises e \/ configure n = Raises e
  \/ (fallback n = Raises e /\ is_Exception e = false).
Proof.
  unfold _create_driver. intros H.
  destruct (start n) as [d|e0] eqn:Hs.
  - apply start_browser_returns in Hs as ->.
    destruct (configure n) as [[]|ec]; [discriminate|].
    right. right. left. congruence.
  - injection H as <-.
    destruct (start_browser_raises n e0 Hs) as [H|[H|H]]; auto.
Qed.

(** X23. When _create_driver raises, the exception is the one raised by
    building the options, by the first webdriver.Chrome call or by a
    timeout setter; an exception of the webdriver-manager route reaches
    the caller only if it is not derived from Exception.  So when both
    attempts fail with Exceptions, the caller sees the first. *)
Theorem create_driver_raises_first (n : nat) (e : exn) :
  create n = Raises e ->
  options n = Raises e \/ chrome n = Raises e \/ configure n = Raises e
  \/ (fallback n = Raises e /\ is_Exception e = false).
Proof. apply create_driver_raises. Qed.

(** *** get_driver and quit_driver *)

Lemma get_driver_held m d :
  _driver m = Some d -> get m = (Returns d, m).
Proof. unfold get_driver. intros ->. reflexivity. Qed.

Lemma get_driver_holds m d :
  fst (get m) = Returns d -> _driver (snd (get m)) = Some d.
Proof.
  unfold get_driver. destruct (_driver m) as [d0|] eqn:Hd.
  - cbn. intros [= <-]. exact Hd.
  - destruct (create (attempts m)) as [d1|e]; cbn; [|discriminate].
    intros [= <-]. reflexivity.
Qed.

(** What get_driver adds to the trace: nothing when a browser is held;
    otherwise the browser that was started, if one was, and the browser
    handed out, if the creation completed. *)
Lemma get_driver_trace m :
  trace (snd (get m))
  = trace m
    ++ match _driver m with
       | Some _ => []
       | None =>
           match start (attempts m) with
           | Returns d => [Started d]
           | Raises _ => []
           end
           ++ match fst (get m) with
              | Returns d => [Launched d]
              | Raises _ => []
              end
       end.
Proof.
  unfold get_driver. destruct (_driver m) as [d0|]; cbn.
  - rewrite app_nil_r. reflexivity.
  - destruct (create (attempts m)) as [d1|e]; cbn.
    + rewrite <- app_assoc. reflexivity.
    + rewrite app_nil_r. reflexivity.
Qed.

(** get_driver adds no event of these kinds. *)
Lemma get_driver_quiet m :
  quits (trace (snd (get m))) = quits (trace m)
  /\ runs (trace (snd (get m))) = runs (trace m)
  /\ counts (trace (snd (get m))) = counts (trace m).
Proof.
  rewrite get_driver_trace, quits_app, runs_app, counts_app.
  destruct (_driver m); [cbn; rewrite !app_nil_r; auto|].
  rewrite quits_app, runs_app, counts_app.
  destruct (start (attempts m)); destruct (fst (get m)); cbn;
    rewrite !app_nil_r; auto.
Qed.

(** What get_driver launches. *)
Lemma get_driver_launched m :
  launched (trace (snd (get m)))
  = launched (trace m)
    ++ match _driver m, fst (get m) with
       | None, Returns d => [d]
       | _, _ => []
       end.
Proof.
  rewrite get_driver_trace, launched_app.
  destruct (_driver m); [reflexivity|]. rewrite launched_app.
  destruct (start (attempts m)); destruct (fst (get m)); reflexivity.
Qed.

Lemma quit_driver_trace m :
  trace (snd (quit_driver quit m))
  = trace m ++ match _driver m with
               | Some d => [QuitCalled d]
               | None => []
               end.
Proof.
  unfold quit_driver. destruct (_driver m) as [d|]; cbn.
  - destruct (quit d) as [[]|e]; [reflexivity|].
    destruct (is_Exception e); reflexivity.
  - rewrite app_nil_r. reflexivity.
Qed.

(** X24. get_driver is lazy and keeps what it made: once it has returned
    a browser, calling it again returns the same browser and changes
    nothing, so no second browser is launched. *)
Theorem get_driver_singleton (m : manager) (d : nat) :
  fst (get m) = Returns d ->
  get (snd (get m)) = (Returns d, snd (get m)).
Proof.
  intros H. apply get_driver_held. apply get_driver_holds. exact H.
Qed.

Lemma quit_driver_clears m :
  _driver (snd (quit_driver quit m)) = None.
Proof.
  unfold quit_driver. destruct (_driver m) as [d|] eqn:Hd; [|exact Hd].
  destruct (quit d) as [[]|e]; [reflexivity|].
  destruct (is_Exception e); reflexivity.
Qed.

Lemma quit_driver_raises m e :
  fst (quit_driver quit m) = Raises e ->
  is_Exception e = false /\ exists d, _driver m = Some d /\ quit d = Raises e.
Proof.
  unfold quit_driver. destruct (_driver m) as [d|] eqn:Hd; [|discriminate].
  destruct (quit d) as [[]|e'] eqn:Hq; [discriminate|].
  destruct (is_Exception e') eqn:He; cbn; [discriminate|].
  intros [= <-]. split; [exact He|]. exists d. auto.
Qed.

(** X25. quit_driver leaves the manager without a browser on every
    path, also when quit raises; it lets no Exception of quit through;
    and the next get_driver that returns has launched a new browser. *)
Theorem quit_driver_always_clears (m : manager) :
  let m' := snd (quit_driver quit m) in
  _driver m' = None
  /\ (forall e, fst (quit_driver quit m) = Raises e ->
        is_Exception e = false
        /\ exists d, _driver m = Some d /\ quit d = Raises e)
  /\ (forall d, fst (get m') = Returns d ->
        d = attempts m'
        /\ launched (trace (snd (get m'))) = launched (trace m') ++ [d]).
Proof.
  cbn zeta. split; [apply quit_driver_clears|]. split; [apply quit_driver_raises|].
  intros d Hd. pose proof (quit_driver_clears m) as Hc.
  rewrite get_driver_launched, Hc, Hd. split; [|reflexivity].
  revert Hd. unfold get_driver. rewrite Hc.
  destruct (create _) as [d1|e] eqn:Hcr; cbn; [|discriminate].
  intros [= <-]. apply create_driver_number in Hcr. exact Hcr.
Qed.

(** *** Which browsers are quit *)

Lemma get_driver_accounted m :
  accounted configure m -> accounted configure (snd (get m)).
Proof.
  unfold accounted, live. intros [H1 H2].
  destruct (get_driver_quiet m) as (Hq & _ & _).
  rewrite get_driver_launched, Hq, get_driver_trace, started_app.
  unfold get_driver. destruct (_driver m) as [d|] eqn:Hd; cbn [fst snd].
  - rewrite Hd. cbn. rewrite !app_nil_r. auto.
  - rewrite List.filter_app, <- H2.
    destruct (create (attempts m)) as [d1|e] eqn:Hc; cbn [fst snd _driver log set_driver].
    + apply create_driver_returns in Hc as [Hs Hcf]. rewrite Hs.
      cbn [started flat_map app List.filter]. rewrite Hcf.
      rewrite H1. cbn. rewrite !app_nil_r. auto.
    + split; [rewrite app_nil_r; exact H1|].
      destruct (start (attempts m)) as [d0|e0] eqn:Hs;
        cbn [started flat_map app List.filter]; [|reflexivity].
      destruct (configured configure d0) eqn:Hcf; [|reflexivity].
      assert (Hret : create (attempts m) = Returns d0)
        by (apply create_driver_returns; auto).
      congruence.
Qed.

Lemma log_accounted m ev :
  (forall d, ev <> Started d) -> (forall d, ev <> Launched d) ->
  (forall d, ev <> QuitCalled d) ->
  accounted configure m -> accounted configure (log ev m).
Proof.
  unfold accounted, live, log. cbn. intros H0 H1 H2 [H H'].
  rewrite launched_app, quits_app, started_app, List.filter_app, <- H', H.
  destruct ev; cbn; rewrite ?app_nil_r; auto.
  - destruct (H0 driver eq_refl).
  - destruct (H1 driver eq_refl).
  - destruct (H2 driver eq_refl).
Qed.

Lemma quit_driver_accounted m :
  accounted configure m -> accounted configure (snd (quit_driver quit m)).
Proof.
  unfold accounted, live. intros [H H'].
  rewrite quit_driver_clears, quit_driver_trace, launched_app, quits_app,
    started_app, List.filter_app, <- H', H.
  destruct (_driver m) as [d|]; cbn; rewrite !app_nil_r; auto.
Qed.

Lemma web_test_accounted steps m :
  accounted configure m -> accounted configure (snd (test steps m)).
Proof.
  intros H. unfold web_test.
  pose proof (get_driver_accounted m H) as Hg.
  destruct (get m) as [[d|e] m1]; cbn in Hg; [|exact Hg].
  assert (Hl : accounted configure (log (BodyRun d) m1))
    by (apply log_accounted; [discriminate | discriminate | discriminate | exact Hg]).
  destruct (steps d) as [[]|e]; [|exact Hl].
  apply quit_driver_accounted, Hl.
Qed.

Lemma run_tests_accounted test_functions : forall s f m,
  accounted configure m -> accounted configure (snd (loop test_functions s f m)).
Proof.
  induction test_functions as [|steps rest IH]; intros s f m H; [exact H|].
  cbn [run_tests]. pose proof (web_test_accounted steps m H) as Ht.
  destruct (test steps m) as [[[]|e] m1]; cbn in Ht.
  - apply IH, Ht.
  - destruct (is_Exception e); [apply IH, Ht | exact Ht].
Qed.

Lemma suite_ends_in_quit test_functions m :
  accounted configure m ->
  exists m2, accounted configure m2
             /\ snd (suite test_functions m) = snd (quit_driver quit m2).
Proof.
  intros H. unfold run_all_web_tests.
  pose proof (run_tests_accounted test_functions 0 0 m H) as Hl.
  destruct (loop test_functions 0 0 m) as [[[s f]|e] m1]; cbn in Hl.
  - exists (log (Counted s f) m1). split.
    + apply log_accounted; [discriminate | discriminate | discriminate | exact Hl].
    + destruct (quit_driver quit _) as [[[]|e] m3]; reflexivity.
  - exists m1. split; [exact Hl|].
    destruct (quit_driver quit _) as [[[]|e'] m3]; reflexivity.
Qed.

(** X27. Whatever the tests and the browser do, when run_all_web_tests
    ends (returning or raising) the manager holds no browser, and quit
    has been called, once each and in the order they were handed out, on
    exactly the browsers that _create_driver returned.  These are the
    browsers started whose timeouts could be set: on a browser that
    webdriver.Chrome started and whose timeout setter raised, which
    _create_driver drops, quit is never called. *)
Theorem run_all_web_tests_quits_every_browser
    (test_functions : list body) (m : manager) :
  accounted configure m ->
  let m' := snd (suite test_functions m) in
  _driver m' = None
  /\ quits (trace m') = launched (trace m')
  /\ quits (trace m') = List.filter (configured configure) (started (trace m'))
  /\ (forall d, In d (started (trace m')) -> configured configure d = false ->
                ~ In d (quits (trace m'))).
Proof.
  intros H. cbn zeta.
  destruct (suite_ends_in_quit test_functions m H) as (m2 & H2 & ->).
  pose proof (quit_driver_accounted m2 H2) as [Ha Hb].
  unfold live in Ha. rewrite quit_driver_clears, app_nil_r in Ha.
  split; [apply quit_driver_clears|]. split; [symmetry; exact Ha|].
  split; [rewrite <- Ha; exact Hb|].
  intros d _ Hd Hin. rewrite <- Ha, Hb in Hin.
  apply filter_In in Hin as [_ Hin]. congruence.
Qed.

(** *** A failed test and the next one *)

Lemma web_test_failed steps m d e :
  fst (get m) = Returns d -> steps d = Raises e ->
  test steps m = (Raises e, log (BodyRun d) (snd (get m))).
Proof.
  unfold web_test. destruct (get m) as [[d'|e'] m1]; cbn; [|discriminate].
  intros [= ->] ->. reflexivity.
Qed.

(** X26. A test whose steps raise does not quit its browser: the manager
    still holds it afterwards, and the next test, whatever its steps,
    runs in that same browser without launching one. *)
Theorem failed_test_keeps_browser (steps : body) (m : manager) (d : nat) (e : exn) :
  fst (get m) = Returns d ->
  steps d = Raises e ->
  let m1 := snd (test steps m) in
  fst (test steps m) = Raises e
  /\ _driver m1 = Some d
  /\ quits (trace m1) = quits (trace m)
  /\ forall steps2 : body,
       let m2 := snd (test steps2 m1) in
       runs (trace m2) = runs (trace m1) ++ [d]
       /\ launched (trace m2) = launched (trace m1).
Proof.
  intros Hg Hs. cbn zeta.
  pose proof (get_driver_holds m d Hg) as Hh.
  rewrite (web_test_failed steps m d e Hg Hs). cbn [fst snd].
  set (m1 := snd (get m)) in *.
  split; [reflexivity|]. split; [exact Hh|]. split.
  - cbn. rewrite quits_app. subst m1.
    destruct (get_driver_quiet m) as (-> & _ & _). cbn. apply app_nil_r.
  - intros steps2. unfold web_test.
    rewrite (get_driver_held (log (BodyRun d) m1) d Hh).
    destruct (steps2 d) as [[]|e2].
    + rewrite quit_driver_trace, runs_app, launched_app.
      cbn [log _driver Web.trace]. rewrite Hh, runs_app, launched_app. cbn.
      rewrite !app_nil_r. auto.
    + cbn. rewrite runs_app, launched_app. cbn. rewrite !app_nil_r. auto.
Qed.

(** *** What leaves run_all_web_tests *)

Lemma suite_raises (test_functions : list body) (m : manager) (e : exn) :
  fst (suite test_functions m) = Raises e -> is_Exception e = false.
Proof.
  unfold run_all_web_tests.
  destruct (loop test_functions 0 0 m) as [[[s f]|e1] m1].
  - destruct (quit_driver quit _) as [[[]|e2] m3] eqn:Hq; cbn; [discriminate|].
    intros [= <-]. apply (quit_driver_raises (log (Counted s f) m1)).
    rewrite Hq. reflexivity.
  - destruct (quit_driver quit m1) as [[[]|e2] m3] eqn:Hq; cbn.
    + destruct (is_Exception e1) eqn:He1; [discriminate|]. intros [= <-]. exact He1.
    + intros [= <-]. apply (quit_driver_raises m1). rewrite Hq. reflexivity.
Qed.

(** X28. run_all_web_tests lets no Exception out: whatever it raises is
    a KeyboardInterrupt or a SystemExit. *)
Theorem run_all_web_tests_raises_no_Exception
    (test_functions : list body) (m : manager) (e : exn) :
  fst (suite test_functions m) = Raises e -> is_Exception e = false.
Proof. apply suite_raises. Qed.

Section Tame.

Hypothesis options_tame : tame options.
Hypothesis chrome_tame : tame chrome.
Hypothesis fallback_tame : tame fallback.
Hypothesis configure_tame : tame configure.
Hypothesis quit_tame : tame quit.

Lemma get_driver_tame m : raises_only_Exception (fst (get m)).
Proof.
  unfold get_driver. destruct (_driver m) as [d|]; [exact I|].
  destruct (create (attempts m)) as [d|e] eqn:Hc; [exact I|]. cbn.
  destruct (create_driver_raises _ _ Hc) as [H|[H|[H|[H He]]]].
  - pose proof (options_tame (attempts m)) as T. rewrite H in T. exact T.
  - pose proof (chrome_tame (attempts m)) as T. rewrite H in T. exact T.
  - pose proof (configure_tame (attempts m)) as T. rewrite H in T. exact T.
  - pose proof (fallback_tame (attempts m)) as T. rewrite H in T. cbn in T.
    congruence.
Qed.

Lemma quit_driver_returns m : fst (quit_driver quit m) = Returns tt.
Proof.
  destruct (fst (quit_driver quit m)) as [[]|e] eqn:Hq; [reflexivity|].
  destruct (quit_driver_raises m e Hq) as (He & d & _ & Hd).
  pose proof (quit_tame d) as T. rewrite Hd in T. cbn in T. congruence.
Qed.

Lemma web_test_tame steps m :
  tame steps -> raises_only_Exception (fst (test steps m)).
Proof.
  intros Hs. unfold web_test. pose proof (get_driver_tame m) as Hg.
  destruct (get m) as [[d|e] m1]; cbn in Hg; [|exact Hg].
  pose proof (Hs d) as Hd. destruct (steps d) as [[]|e]; [|exact Hd].
  rewrite quit_driver_returns. exact I.
Qed.

Lemma web_test_counts steps m :
  counts (trace (snd (test steps m))) = counts (trace m).
Proof.
  unfold web_test. destruct (get_driver_quiet m) as (_ & _ & H1).
  destruct (get m) as [[d|e] m1]; cbn [snd] in H1 |- *; [|exact H1].
  destruct (steps d) as [[]|e].
  - rewrite quit_driver_trace, counts_app. cbn [log _driver Web.trace].
    rewrite counts_app, H1.
    destruct (_driver m1); cbn; rewrite !app_nil_r; reflexivity.
  - cbn. rewrite counts_app, H1. cbn. rewrite app_nil_r. reflexivity.
Qed.

Lemma run_tests_tame (test_functions : list body) : forall s f m,
  Forall tame test_functions ->
  exists s' f',
    fst (loop test_functions s f m) = Returns (s', f')
    /\ s' + f' = s + f + Z.of_nat (length test_functions)
    /\ counts (trace (snd (loop test_functions s f m))) = counts (trace m).
Proof.
  induction test_functions as [|steps rest IH]; intros s f m Hall.
  - exists s, f. cbn. split; [reflexivity|]. split; [lia | reflexivity].
  - apply List.Forall_cons_iff in Hall. destruct Hall as [Hs Hrest].
    cbn [run_tests].
    pose proof (web_test_tame steps m Hs) as Ht.
    pose proof (web_test_counts steps m) as Hc.
    destruct (test steps m) as [[[]|e] m1]; cbn in Ht, Hc.
    + destruct (IH (s + 1) f m1 Hrest) as (s' & f' & H1 & H2 & H3).
      exists s', f'. split; [exact H1|]. split.
      * cbn [length]. lia.
      * rewrite H3. exact Hc.
    + rewrite Ht.
      destruct (IH s (f + 1) m1 Hrest) as (s' & f' & H1 & H2 & H3).
      exists s', f'. split; [exact H1|]. split.
      * cbn [length]. lia.
      * rewrite H3. exact Hc.
Qed.

(** X29. When the browser, the environment and the steps of the tests
    fail only with Exceptions, run_all_web_tests returns however many
    tests failed, after reporting counts that add up to the number of
    tests; so the runner records the web suite as successful. *)
Theorem web_failures_stay_inside (test_functions : list body) (m : manager) :
  Forall tame test_functions ->
  let out := suite test_functions m in
  fst out = Returns tt
  /\ (exists s f, counts (trace (snd out)) = counts (trace m) ++ [(s, f)]
                  /\ s + f = Z.of_nat (length test_functions))
  /\ Runner._execute_test_suite (fst out) = Returns true.
Proof.
  intros Hall. cbn zeta. unfold run_all_web_tests.
  destruct (run_tests_tame test_functions 0 0 m Hall) as (s & f & H1 & H2 & H3).
  destruct (loop test_functions 0 0 m) as [r m1]. cbn in H1, H3. subst r.
  pose proof (quit_driver_returns (log (Counted s f) m1)) as Hq.
  pose proof (quit_driver_trace (log (Counted s f) m1)) as Ht.
  destruct (quit_driver quit (log (Counted s f) m1)) as [[[]|e] m3];
    cbn in Hq, Ht; [|discriminate].
  cbn [fst snd]. split; [reflexivity|]. split; [|reflexivity].
  exists s, f. split; [|lia].
  rewrite Ht, !counts_app, H3. cbn.
  destruct (_driver m1); cbn; rewrite !app_nil_r; reflexivity.
Qed.

End Tame.

End WithBrowser.

Lemma accounted_initial configure : accounted configure initial.
Proof. split; reflexivity. Qed.

Lemma create_driver_raises_first_witness :
  works 0%nat = Raises (Exception "WebDriverException")
  \/ no_chrome 0%nat = Raises (Exception "WebDriverException")
  \/ works 0%nat = Raises (Exception "WebDriverException")
  \/ (not_installed 0%nat = Raises (Exception "WebDriverException")
      /\ is_Exception (Exception "WebDriverException") = false).
Proof.
  apply (create_driver_raises_first works no_chrome not_installed works 0%nat).
  reflexivity.
Defined.

Lemma get_driver_singleton_witness :
  get_driver works works works works
    (snd (get_driver works works works works initial))
  = (Returns 0%nat, snd (get_driver works works works works initial)).
Proof.
  apply (get_driver_singleton works works works works initial 0%nat).
  reflexivity.
Defined.

Lemma quit_driver_always_clears_witness :
  _driver (snd (quit_driver interrupted holding)) = None.
Proof.
  exact (proj1 (quit_driver_always_clears works works works works interrupted holding)).
Defined.

Lemma failed_test_keeps_browser_witness :
  fst (web_test works works works works works failing_steps initial)
  = Raises AssertionError
  /\ _driver (snd (web_test works works works works works failing_steps initial))
     = Some 0%nat.
Proof.
  pose proof (failed_test_keeps_browser works works works works works
                failing_steps initial 0%nat AssertionError eq_refl eq_refl)
    as (H1 & H2 & _).
  split; [exact H1 | exact H2].
Defined.

Lemma run_all_web_tests_quits_every_browser_witness :
  let m' := snd (run_all_web_tests works works works setter_fails_once works
                   [passing_steps; passing_steps] initial) in
  _driver m' = None
  /\ quits (trace m') = launched (trace m')
  /\ quits (trace m')
     = List.filter (configured setter_fails_once) (started (trace m'))
  /\ (forall d, In d (started (trace m')) ->
                configured setter_fails_once d = false ->
                ~ In d (quits (trace m'))).
Proof.
  apply (run_all_web_tests_quits_every_browser works works works
           setter_fails_once works [passing_steps; passing_steps] initial).
  split; reflexivity.
Defined.

(** The timeouts of the first browser cannot be set: the first test
    fails without a browser of its own, the second gets a new one, and
    only that one is quit. *)
Example dropped_browser_is_not_quit :
  let m' := snd (run_all_web_tests works works works setter_fails_once works
                   [passing_steps; passing_steps] initial) in
  started (trace m') = [0; 1]%nat /\ launched (trace m') = [1%nat]
  /\ quits (trace m') = [1%nat] /\ counts (trace m') = [(1, 1)].
Proof. vm_compute. auto. Qed.

Lemma run_all_web_tests_raises_no_Exception_witness :
  is_Exception KeyboardInterrupt = false.
Proof.
  apply (run_all_web_tests_raises_no_Exception works works works works
           interrupted [failing_steps] initial KeyboardInterrupt).
  reflexivity.
Defined.

Lemma web_failures_stay_inside_witness :
  fst (run_all_web_tests works no_chrome works works works
         [failing_steps; passing_steps] initial) = Returns tt.
Proof.
  refine (proj1 (web_failures_stay_inside works no_chrome works works works
                   _ _ _ _ _ [failing_steps; passing_steps] initial _)).
  - intros n. exact I.
  - intros n. reflexivity.
  - intros n. exact I.
  - intros n. exact I.
  - intros n. exact I.
  - repeat constructor.
Defined.

(** The first test fails and leaves its browser to the second, which
    quits it; no browser is open when the suite returns. *)
Example one_browser_for_two_tests :
  let m' := snd (run_all_web_tests works works works works works
                   [failing_steps; passing_steps] initial) in
  launched (trace m') = [0%nat] /\ runs (trace m') = [0%nat; 0%nat]
  /\ quits (trace m') = [0%nat] /\ counts (trace m') = [(1, 1)].
Proof. vm_compute. auto. Qed.

End WebFacts.

(** ** The final report and the result of the run *)

Module ReportFacts.
Import Runner Report.

(** X30. When run_all_tests returns, the closing message of the report
    printed in its finally clause agrees with the result: the message is
    the one for full success exactly when the result is True. *)
Theorem report_matches_result (r : run) (b : bool) :
  run_all_tests r = Returns b ->
  (b = true <-> final_message r = Excelente).
Proof.
  destruct r as [en u c w p a f fw].
  unfold final_message, flags_at_report, run_all_tests, _execute_test_suite.
  cbn [web_suite pause api_suite final_report].
  destruct f as [[]|ef]; [|discriminate].
  destruct w as [[]|[cw| |kw]]; cbn;
    destruct p as [[]|[cp| |kp]]; cbn;
      destruct a as [[]|[ca| |ka]]; cbn;
        intros H; try discriminate; injection H as <-;
          split; intros H; try discriminate; try reflexivity;
            vm_compute in H; discriminate.
Qed.

Lemma report_matches_result_witness :
  true = true
  <-> final_message (plain_run (Returns tt) (Returns tt)) = Excelente.
Proof.
  apply (report_matches_result (plain_run (Returns tt) (Returns tt)) true).
  reflexivity.
Defined.

(** A Ctrl+C during the API suite after a successful web suite: no test
    has failed, and the report says that some did. *)
Example interrupted_run_reports_failures :
  final_message (interrupt AtApiSuite (plain_run (Returns tt) (Returns tt)))
  = Advertencia.
Proof. vm_compute. reflexivity. Qed.

End ReportFacts.

(** ** Process exit code *)

Module SuiteFacts.

(** Only something that is not an Exception leaves the close loop. *)
Lemma close_loop_raises close items : forall h e,
  fst (fst (Registry.close_loop close items h)) = Raises e ->
  is_Exception e = false.
Proof.
  induction items as [|[n id] rest IH]; intros h e; cbn [Registry.close_loop].
  - discriminate.
  - destruct (close id) as [[]|e0].
    + specialize (IH h e).
      destruct (Registry.close_loop close rest h) as [[r h'] tr]. exact IH.
    + destruct (is_Exception e0) eqn:He0.
      * specialize (IH h e).
        destruct (Registry.close_loop close rest h) as [[r h'] tr]. exact IH.
      * cbn. intros [= <-]. exact He0.
Qed.

Lemma teardown_raises close m e :
  fst (fst (Orchestrator.teardown close m)) = Raises e -> is_Exception e = false.
Proof.
  rewrite OrchestratorFacts.teardown_spec. cbn [fst].
  unfold Registry.close_all_sessions.
  pose proof (close_loop_raises close (Registry._sessions m) (Registry.heap m)) as H.
  destruct (Registry.close_loop close (Registry._sessions m) (Registry.heap m))
    as [[[[]|e0] h] tr]; cbn [fst] in *; [discriminate|].
  intros [= <-]. apply (H e0). reflexivity.
Qed.

(** run_all_api_tests lets no Exception out. *)
Lemma run_all_api_tests_raises test_functions close m e :
  fst (fst (Orchestrator.run_all_api_tests test_functions close m)) = Raises e ->
  is_Exception e = false.
Proof.
  unfold Orchestrator.run_all_api_tests.
  pose proof (OrchestratorMore.run_scenarios_raises test_functions 0 0 0 m) as Hloop.
  destruct (Orchestrator.run_scenarios 0 test_functions 0 0 m) as [[r m1] tr0].
  cbn [fst] in Hloop.
  pose proof (teardown_raises close m1) as Hdown.
  destruct (Orchestrator.teardown close m1) as [[rc m2] tr3]. cbn [fst] in Hdown.
  destruct r as [[s f]|e0].
  - pose proof (OrchestratorMore.report_raises s f) as Hrep.
    destruct (Orchestrator.report s f) as [[[]|e1] trr]; cbn [fst] in Hrep.
    + destruct rc as [[]|e3]; cbn; [discriminate|].
      intros [= <-]. apply Hdown. reflexivity.
    + rewrite (Hrep e1 eq_refl).
      destruct rc as [[]|e3]; cbn; [discriminate|].
      intros [= <-]. apply Hdown. reflexivity.
  - rewrite (Hloop e0 eq_refl).
    destruct rc as [[]|e3]; cbn; intros [= <-];
      [apply Hloop | apply Hdown]; reflexivity.
Qed.

End SuiteFacts.

Module RunnerFacts.
Import Runner Program.

(** A suite step that succeeds returns, unless something that is not an
    Exception cuts it short. *)
Lemma suites_return (r : run) :
  every_suite_succeeds r ->
  raises_only_Exception (web_suite r) -> raises_only_Exception (api_suite r) ->
  web_suite r = Returns tt /\ api_suite r = Returns tt.
Proof.
  intros [(options & chrome & fallback & configure & quit & web_tests & Hweb & _)
          (api_tests & close & Hapi & _)] Hw Ha.
  split.
  - destruct (web_suite r) as [[]|e] eqn:Hr; [reflexivity|].
    cbn in Hw. symmetry in Hweb.
    apply WebFacts.suite_raises in Hweb. congruence.
  - destruct (api_suite r) as [[]|e] eqn:Hr; [reflexivity|].
    cbn in Ha. symmetry in Hapi.
    apply SuiteFacts.run_all_api_tests_raises in Hapi. congruence.
Qed.

(** C6, as stated, fails: a Ctrl+C that reaches an API scenario leaves
    run_all_api_tests as a KeyboardInterrupt, which run_all_tests catches
    itself; it returns False, and the process exits with 1, the code of a
    failed run. *)
Lemma interrupt_during_suite_exits_1 :
  api_suite api_interrupted_run = Raises KeyboardInterrupt
  /\ main api_interrupted_run = SystemExit 1
  /\ ~ (exit_code api_interrupted_run <> 0 /\ exit_code api_interrupted_run <> 1).
Proof.
  split; [reflexivity|]. split; [reflexivity|].
  intros [_ H]. apply H. reflexivity.
Qed.

(** C6, amended. In a run that no KeyboardInterrupt or SystemExit cuts
    short: the exit code is 1 when an environment prerequisite is unmet,
    and 0 when the environment is good and every suite succeeds.  When
    the environment is good and one step of such a run raises
    KeyboardInterrupt instead, the exit code is 130 if the step is
    outside the try block of run_all_tests (usage banner, countdown,
    final report, closing message) and 1 if it is inside (web suite,
    pause, API suite). *)
Theorem exit_code_cases (r : run) :
  uninterrupted r ->
  (check_environment (env r) = false -> exit_code r = 1)
  /\ (check_environment (env r) = true ->
      (every_suite_succeeds r -> exit_code r = 0)
      /\ (forall s, exit_code (interrupt s r)
                    = match s with
                      | AtWebSuite | AtPause | AtApiSuite => 1
                      | AtUsage | AtCountdown | AtFinalReport | AtFarewell => 130
                      end)).
Proof.
  intros (Hu & Hc & Hp & Hf & Hw & Hweb & Hapi). split.
  - destruct r as [en u c w p a f fw]. simpl in *. subst u c p f fw.
    unfold exit_code, main; simpl. intros ->. reflexivity.
  - intros Henv. split.
    + intros Hok. destruct (suites_return r Hok Hweb Hapi) as [Hw' Ha'].
      destruct r as [en u c w p a f fw]. simpl in *. subst u c p f fw w a.
      unfold exit_code, main; simpl. rewrite Henv. reflexivity.
    + destruct r as [en u c w p a f fw]. simpl in *. subst u c p f fw.
      intros s. unfold exit_code, main; simpl. rewrite Henv. simpl.
      unfold run_all_tests, _execute_test_suite; simpl.
      destruct w as [[]|ew]; destruct a as [[]|ea]; simpl in *;
        rewrite ?Hweb, ?Hapi; destruct s; simpl;
        rewrite ?Hweb, ?Hapi; reflexivity.
Qed.

Lemma passing_run_succeeds : every_suite_succeeds passing_run.
Proof.
  split.
  - exists Web.works, Web.works, Web.works, Web.works, Web.works,
      [Web.passing_steps].
    split; [reflexivity|]. repeat constructor.
  - exists [Orchestrator.passing_scenario "jsonplaceholder"], Orchestrator.close_ok.
    split; [reflexivity|]. repeat constructor.
Qed.

Lemma exit_code_cases_witness :
  exit_code passing_run = 0
  /\ exit_code (interrupt AtCountdown passing_run) = 130
  /\ exit_code (interrupt AtWebSuite passing_run) = 1.
Proof.
  assert (Hrun : uninterrupted passing_run).
  { repeat split; reflexivity. }
  pose proof (proj2 (exit_code_cases passing_run Hrun) eq_refl) as (Hok & Hint).
  split; [exact (Hok passing_run_succeeds)|].
  split; [exact (Hint AtCountdown) | exact (Hint AtWebSuite)].
Defined.

(** An unmet prerequisite: Python 3.7, or a library that does not import. *)
Example old_python_exit_code :
  exit_code {| env := {| python_major := 3; python_minor := 7;
                         selenium_importable := true;
                         requests_importable := true;
                         jsonschema_importable := true |};
               usage := Returns tt; countdown := Returns tt;
               web_suite := Returns tt; pause := Returns tt;
               api_suite := Returns tt; final_report := Returns tt;
               farewell := Returns tt |} = 1.
Proof. reflexivity. Qed.

(** Not part of C6 as amended: the suite function swallows the failures
    of its scenarios (run_all_api_tests returns normally), so a run whose
    API scenarios fail still exits with 0, against the comment in main
    that the exit code follows the results. *)
Lemma scenario_failures_do_not_reach_exit_code test_functions close m :
  Forall raises_only_Exception (Orchestrator.observe test_functions m) ->
  (forall id e, close id = Raises e -> is_Exception e = true) ->
  exit_code
    (plain_run (Returns tt)
       (fst (fst (Orchestrator.run_all_api_tests test_functions close m)))) = 0.
Proof.
  intros Hobs Hclose.
  rewrite (OrchestratorFacts.run_all_api_tests_returns _ _ _ Hobs Hclose).
  reflexivity.
Qed.

Example failed_scenario_exit_code :
  exit_code
    (plain_run (Returns tt)
       (fst (fst (Orchestrator.run_all_api_tests Orchestrator.three_scenarios
                    Orchestrator.close_ok Registry.initial)))) = 0.
Proof. vm_compute. reflexivity. Qed.

End RunnerFacts.
